(** * ArangoDB query optimizer rules and cursor actions

    Shallow embedding of [arangod/Aql/OptimizerRules.cpp] (the three
    optimizer rules and the range-collecting [CalculationNodeFinder]) and of
    [js/actions/api-cursor.js] (the HTTP cursor actions), with the
    properties the specification states about them. *)

From stdpp Require Import gmap strings list fin_maps pretty.
From Stdlib Require Import ZArith.

Set Warnings "-register-all,-clear-no-such-hyp".

(** JSON values, as carried by AST value nodes and by request bodies.
    Numbers are kept as integers: the properties below only ask whether a
    number is zero and compare constants. *)
Inductive Json : Type :=
| JNull
| JBool (b : bool)
| JNumber (n : Z)
| JString (s : string)
| JArray (items : list Json)
| JObject (props : list (string * Json)).

(** Outcome of a call that can hit a failed [TRI_ASSERT] or an internal
    error of one of the plan primitives. *)
Inductive Failure : Type :=
| AssertionFailed
| BadCast
| InternalError.

Inductive Result (A : Type) : Type :=
| Ok (a : A)
| Failed (f : Failure).
Arguments Ok {A} a.
Arguments Failed {A} f.

#[global] Instance Result_ret : MRet Result := λ A a, Ok a.
#[global] Instance Result_bind : MBind Result := λ A B k r,
  match r with
  | Ok a => k a
  | Failed f => Failed f
  end.

Definition TRI_ASSERT (b : bool) : Result unit :=
  if b then Ok tt else Failed AssertionFailed.

Module Aql.

(** ** Variables, AST nodes, expressions *)

(** [Variable] of Aql/Variable.h: the fields the rules read. *)
Record AqlVariable := mkVariable { var_id : nat; var_name : string }.

Inductive AstNodeType : Type :=
| NODE_TYPE_REFERENCE
| NODE_TYPE_ATTRIBUTE_ACCESS
| NODE_TYPE_VALUE
| NODE_TYPE_OPERATOR_BINARY_EQ
| NODE_TYPE_OPERATOR_BINARY_NE
| NODE_TYPE_OPERATOR_BINARY_LT
| NODE_TYPE_OPERATOR_BINARY_GT
| NODE_TYPE_OPERATOR_BINARY_LE
| NODE_TYPE_OPERATOR_BINARY_GE
| NODE_TYPE_OPERATOR_BINARY_AND
| NODE_TYPE_OPERATOR_BINARY_OR
| NODE_TYPE_OPERATOR_BINARY_PLUS
| NODE_TYPE_FCALL.

#[global] Instance AstNodeType_eq_dec : EqDecision AstNodeType.
Proof. solve_decision. Defined.

Inductive BinaryOperator : Type :=
| BINARY_EQ | BINARY_NE | BINARY_LT | BINARY_GT | BINARY_LE | BINARY_GE
| BINARY_AND | BINARY_OR | BINARY_PLUS.

(** The AST as the parser builds it: a reference carries its variable
    ([getData]), an attribute access its name ([getStringValue]) and the
    accessed expression ([getMember(0)]), a binary operator its two operands
    ([getMember(0)], [getMember(1)]). *)
Inductive AstNode : Type :=
| AstReference (x : AqlVariable)
| AstAttributeAccess (attributeName : string) (member0 : AstNode)
| AstValue (v : Json)
| AstBinary (op : BinaryOperator) (lhs rhs : AstNode)
| AstFcall (fname : string) (args : list AstNode).

Definition binary_type (op : BinaryOperator) : AstNodeType :=
  match op with
  | BINARY_EQ => NODE_TYPE_OPERATOR_BINARY_EQ
  | BINARY_NE => NODE_TYPE_OPERATOR_BINARY_NE
  | BINARY_LT => NODE_TYPE_OPERATOR_BINARY_LT
  | BINARY_GT => NODE_TYPE_OPERATOR_BINARY_GT
  | BINARY_LE => NODE_TYPE_OPERATOR_BINARY_LE
  | BINARY_GE => NODE_TYPE_OPERATOR_BINARY_GE
  | BINARY_AND => NODE_TYPE_OPERATOR_BINARY_AND
  | BINARY_OR => NODE_TYPE_OPERATOR_BINARY_OR
  | BINARY_PLUS => NODE_TYPE_OPERATOR_BINARY_PLUS
  end.

(** [node->type] *)
Definition type (node : AstNode) : AstNodeType :=
  match node with
  | AstReference _ => NODE_TYPE_REFERENCE
  | AstAttributeAccess _ _ => NODE_TYPE_ATTRIBUTE_ACCESS
  | AstValue _ => NODE_TYPE_VALUE
  | AstBinary op _ _ => binary_type op
  | AstFcall _ _ => NODE_TYPE_FCALL
  end.

Record Expression := mkExpression { node : AstNode }.

(** ** Range bounds *)

(** [RangeInfoBound(val, include)]: the constant's AST node and the
    inclusive flag. *)
Record RangeInfoBound := mkBound { _bound : AstNode; _include : bool }.

Record RangeInfo := mkRange {
  _low : option RangeInfoBound;
  _high : option RangeInfoBound
}.

(** Modelled from the spec: the [RangesInfo] accumulator of
    Aql/ExecutionNode.h, which is not part of the sources at hand.  It maps
    a bound variable name and an attribute path to a (low, high) pair whose
    sides may be absent.  [find] returns the per-attribute map of a variable
    name, if any.  [insert] files a contribution under (name, attr); on an
    attribute that already has an entry each side the contribution carries
    overwrites that side of the entry (no intersection is computed), and a
    side it does not carry leaves the earlier bound of that side in place,
    so that [a > 1 AND a < 10] accumulates low = 1 and high = 10. *)
Abbreviation RangesInfo := (gmap string (gmap string RangeInfo)).

(** Modelled from the spec: [RangesInfo::find(name)], the map from
    attribute paths to ranges of a variable name, or null. *)
Definition RangesInfo_find (name : string) (r : RangesInfo)
  : option (gmap string RangeInfo) := r !! name.

(** Modelled from the spec: what a contribution makes of the entry of its
    attribute (see above): a side it carries overwrites, a side it does not
    carry stays. *)
Definition RangeInfo_overwrite (old : option RangeInfo)
    (low high : option RangeInfoBound) : RangeInfo :=
  match old with
  | None => mkRange low high
  | Some o =>
      mkRange (match low with Some b => Some b | None => _low o end)
              (match high with Some b => Some b | None => _high o end)
  end.

(** Modelled from the spec: [RangesInfo::insert(name, attr, low, high)]. *)
Definition RangesInfo_insert (name attr : string)
    (low high : option RangeInfoBound) (r : RangesInfo) : RangesInfo :=
  let m : gmap string RangeInfo := default ∅ (r !! name) in
  <[name := <[attr := RangeInfo_overwrite (m !! attr) low high]> m]> r.

(** ** Execution nodes and plans *)

Inductive NodeType : Type :=
| SINGLETON
| ENUMERATE_COLLECTION
| INDEX_RANGE
| FILTER
| CALCULATION
| NORESULTS
| RETURN
| LIMIT.

#[global] Instance NodeType_eq_dec : EqDecision NodeType.
Proof. solve_decision. Defined.

(** [TRI_index_t]: an index handle of the catalog. *)
Record Index := mkIndex { index_iid : nat; index_fields : list string }.

(** The node classes, with the members the rules read. *)
Inductive NodeData : Type :=
| SingletonNode
| EnumerateCollectionNode (vocbase collection : string) (outVariable : AqlVariable)
| IndexRangeNode (vocbase collection : string) (outVariable : AqlVariable)
    (idx : Index) (ranges : list RangeInfo)
| FilterNode (inVariable : AqlVariable)
| CalculationNode (expression : Expression) (outVariable : AqlVariable)
| NoResultsNode
| ReturnNode (inVariable : AqlVariable)
| LimitNode (offset count : nat).

(** An [ExecutionNode]; other nodes are referred to by id, which is how the
    plan finds them ([getNodeById]). *)
Record ExecutionNode := mkNode {
  _id : nat;
  data : NodeData;
  _dependencies : list nat;
  _parents : list nat;
  _varsUsedLater : gset nat
}.

(** [getType()]: the kind tag of the node's class. *)
Definition getType (n : ExecutionNode) : NodeType :=
  match data n with
  | SingletonNode => SINGLETON
  | EnumerateCollectionNode _ _ _ => ENUMERATE_COLLECTION
  | IndexRangeNode _ _ _ _ _ => INDEX_RANGE
  | FilterNode _ => FILTER
  | CalculationNode _ _ => CALCULATION
  | NoResultsNode => NORESULTS
  | ReturnNode _ => RETURN
  | LimitNode _ _ => LIMIT
  end.

(** Modelled from the spec: [getVariablesUsedHere] (Aql/ExecutionNode is
    not part of the sources at hand) for the nodes the rules call it on: a
    filter reads exactly one variable. *)
Definition getVariablesUsedHere (n : ExecutionNode) : list AqlVariable :=
  match data n with
  | FilterNode v => [v]
  | ReturnNode v => [v]
  | _ => []
  end.

(** Modelled from the spec: [getVariablesSetHere]: Calculation and
    EnumerateCollection nodes (and the IndexRange node that stands in for
    one) write exactly one variable. *)
Definition getVariablesSetHere (n : ExecutionNode) : list AqlVariable :=
  match data n with
  | EnumerateCollectionNode _ _ v => [v]
  | IndexRangeNode _ _ v _ _ => [v]
  | CalculationNode _ v => [v]
  | _ => []
  end.

(** Modelled from the spec: [getVarsUsedLater]: the set of variables used
    later in the plan, as the plan's variable-usage pass stored it in the
    node (variables are identified by id). *)
Definition getVarsUsedLater (n : ExecutionNode) : gset nat := _varsUsedLater n.

(** An [ExecutionPlan]: the id index, the root, the id counter and the
    variable-id to setter index. *)
Record ExecutionPlan := mkPlan {
  _ids : gmap nat ExecutionNode;
  _root : nat;
  _nextId : nat;
  _varSetBy : gmap nat nat
}.

(** Modelled from the spec: [ExecutionPlan::getNodeById]. *)
Definition getNodeById (plan : ExecutionPlan) (id : nat) : option ExecutionNode :=
  _ids plan !! id.

(** Modelled from the spec: [ExecutionPlan::getVarSetBy] (Aql/ExecutionPlan
    is not part of the sources at hand): a lookup in the maintained
    variable-id to setter-node index; none when the variable has no
    setter. *)
Definition getVarSetBy (plan : ExecutionPlan) (varId : nat) : option ExecutionNode :=
  _varSetBy plan !! varId ≫= getNodeById plan.

(** ** The range collector of [CalculationNodeFinder] *)

(** [std::string::empty] *)
Definition string_empty (s : string) : bool := bool_decide (s = "").

(** [attr.substr(0, attr.size()-1)] *)
Definition dropLastChar (attr : string) : string :=
  String.substring 0 (String.length attr - 1) attr.

(** The tail of the two comparison cases: after the recursive call on the
    attribute side, [_ranges->insert] runs when [enumCollVar] is not
    empty. *)
Definition insertIfCorrelated (res : string * string * RangesInfo)
    (low high : option RangeInfoBound) : string * string * RangesInfo :=
  let '(enumCollVar, attr, _ranges) := res in
  if negb (string_empty enumCollVar)
  then (enumCollVar, attr,
        RangesInfo_insert enumCollVar (dropLastChar attr) low high _ranges)
  else res.

Definition isOrdering (t : AstNodeType) : bool :=
  bool_decide (t = NODE_TYPE_OPERATOR_BINARY_LT)
  || bool_decide (t = NODE_TYPE_OPERATOR_BINARY_GT)
  || bool_decide (t = NODE_TYPE_OPERATOR_BINARY_LE)
  || bool_decide (t = NODE_TYPE_OPERATOR_BINARY_GE).

(** [CalculationNodeFinder::buildRangeInfo]; [enumCollVar] and [attr] are
    the two reference parameters, [_ranges] the finder's accumulator, and
    the three are returned as they stand when the call ends. *)
Fixpoint buildRangeInfo (plan : ExecutionPlan) (node : AstNode)
    (enumCollVar attr : string) (_ranges : RangesInfo) {struct node}
  : string * string * RangesInfo :=
  match node with
  | AstReference x =>
      match getVarSetBy plan (var_id x) with
      | Some setter =>
          if bool_decide (getType setter = ENUMERATE_COLLECTION)
          then (var_name x, attr, _ranges)
          else (enumCollVar, attr, _ranges)
      | None => (enumCollVar, attr, _ranges)
      end
  | AstAttributeAccess attributeName member0 =>
      let '(enumCollVar, attr, _ranges) :=
        buildRangeInfo plan member0 enumCollVar attr _ranges in
      if negb (string_empty enumCollVar)
      then (enumCollVar, (attr +:+ attributeName) +:+ ".", _ranges)
      else (enumCollVar, attr, _ranges)
  | AstBinary op lhs rhs =>
      let t := binary_type op in
      if bool_decide (t = NODE_TYPE_OPERATOR_BINARY_EQ) then
        if bool_decide (type rhs = NODE_TYPE_ATTRIBUTE_ACCESS)
           && bool_decide (type lhs = NODE_TYPE_VALUE)
        then (* val = lhs, nextNode = rhs *)
          insertIfCorrelated (buildRangeInfo plan rhs enumCollVar attr _ranges)
            (Some (mkBound lhs true)) (Some (mkBound lhs true))
        else if bool_decide (type lhs = NODE_TYPE_ATTRIBUTE_ACCESS)
                && bool_decide (type rhs = NODE_TYPE_VALUE)
        then (* val = rhs, nextNode = lhs *)
          insertIfCorrelated (buildRangeInfo plan lhs enumCollVar attr _ranges)
            (Some (mkBound rhs true)) (Some (mkBound rhs true))
        else (enumCollVar, attr, _ranges)
      else if isOrdering t then
        let include :=
          bool_decide (t = NODE_TYPE_OPERATOR_BINARY_LE)
          || bool_decide (t = NODE_TYPE_OPERATOR_BINARY_GE) in
        let isGreater :=
          bool_decide (t = NODE_TYPE_OPERATOR_BINARY_GE)
          || bool_decide (t = NODE_TYPE_OPERATOR_BINARY_GT) in
        if bool_decide (type rhs = NODE_TYPE_ATTRIBUTE_ACCESS)
           && bool_decide (type lhs = NODE_TYPE_VALUE)
        then
          let '(low, high) :=
            if isGreater
            then (None, Some (mkBound lhs include))
            else (Some (mkBound lhs include), None) in
          insertIfCorrelated (buildRangeInfo plan rhs enumCollVar attr _ranges)
            low high
        else if bool_decide (type lhs = NODE_TYPE_ATTRIBUTE_ACCESS)
                && bool_decide (type rhs = NODE_TYPE_VALUE)
        then
          let '(low, high) :=
            if isGreater
            then (Some (mkBound rhs include), None)
            else (None, Some (mkBound rhs include)) in
          insertIfCorrelated (buildRangeInfo plan lhs enumCollVar attr _ranges)
            low high
        else (enumCollVar, attr, _ranges)
      else if bool_decide (t = NODE_TYPE_OPERATOR_BINARY_AND) then
        let '(enumCollVar, _, _ranges) :=
          buildRangeInfo plan lhs enumCollVar "" _ranges in
        buildRangeInfo plan rhs enumCollVar "" _ranges
      else (enumCollVar, attr, _ranges)
  | AstValue _ | AstFcall _ _ => (enumCollVar, attr, _ranges)
  end.

(** The access [x.a1.a2...an] as the parser nests it: the outermost node
    carries the last name. *)
Definition attributeAccess (x : AqlVariable) (path : list string) : AstNode :=
  foldl (λ n a, AstAttributeAccess a n) (AstReference x) path.

(** What the attribute-access case leaves in [attr] after walking a path. *)
Definition appendPath (attr : string) (path : list string) : string :=
  foldl (λ s a, (s +:+ a) +:+ ".") attr path.

(** The variable is introduced by an EnumerateCollection node. *)
Definition setByEnumerateCollection (plan : ExecutionPlan) (x : AqlVariable) : bool :=
  match getVarSetBy plan (var_id x) with
  | Some setter => bool_decide (getType setter = ENUMERATE_COLLECTION)
  | None => false
  end.

(** The bound an ordering comparison stands for, read off the comparison
    itself: [attrOnLeft] tells on which side the attribute is. *)
Definition constrainsFromBelow (op : BinaryOperator) (attrOnLeft : bool) : bool :=
  match op, attrOnLeft with
  | (BINARY_GT | BINARY_GE), true => true      (* attr > c, attr >= c *)
  | (BINARY_LT | BINARY_LE), false => true     (* c < attr, c <= attr *)
  | _, _ => false
  end.

Definition includesEquality (op : BinaryOperator) : bool :=
  match op with
  | BINARY_LE | BINARY_GE => true
  | _ => false
  end.

Definition isOrderingOperator (op : BinaryOperator) : bool :=
  match op with
  | BINARY_LT | BINARY_LE | BINARY_GT | BINARY_GE => true
  | _ => false
  end.

Definition orderingLow (op : BinaryOperator) (attrOnLeft : bool) (c : AstNode)
  : option RangeInfoBound :=
  if constrainsFromBelow op attrOnLeft
  then Some (mkBound c (includesEquality op)) else None.

Definition orderingHigh (op : BinaryOperator) (attrOnLeft : bool) (c : AstNode)
  : option RangeInfoBound :=
  if constrainsFromBelow op attrOnLeft
  then None else Some (mkBound c (includesEquality op)).

(** The comparison node with the attribute on the given side. *)
Definition comparison (op : BinaryOperator) (attrOnLeft : bool)
    (access c : AstNode) : AstNode :=
  if attrOnLeft then AstBinary op access c else AstBinary op c access.

(** The conjunction [x.a > lo AND x.a < hi]. *)
Definition betweenExclusive (x : AqlVariable) (a : string) (lo hi : Z) : AstNode :=
  AstBinary BINARY_AND
    (AstBinary BINARY_GT (attributeAccess x [a]) (AstValue (JNumber lo)))
    (AstBinary BINARY_LT (attributeAccess x [a]) (AstValue (JNumber hi))).

(** The (low, high) pair the accumulator holds for a variable name and an
    attribute path. *)
Definition rangeOf (name attr : string) (r : RangesInfo) : option RangeInfo :=
  RangesInfo_find name r ≫= (.!! attr).

(** ** Plan primitives *)

Definition withDependencies (deps : list nat) (n : ExecutionNode) : ExecutionNode :=
  mkNode (_id n) (data n) deps (_parents n) (_varsUsedLater n).

Definition withParents (parents : list nat) (n : ExecutionNode) : ExecutionNode :=
  mkNode (_id n) (data n) (_dependencies n) parents (_varsUsedLater n).

Definition withIds (ids : gmap nat ExecutionNode) (plan : ExecutionPlan) : ExecutionPlan :=
  mkPlan ids (_root plan) (_nextId plan) (_varSetBy plan).

(** Every occurrence of [old] in a list of node ids becomes [new]. *)
Definition replaceId (old new : nat) (l : list nat) : list nat :=
  (λ i, if decide (i = old) then new else i) <$> l.

(** [ExecutionNode::replaceDependency(old, new)] on the node itself. *)
Definition replaceDependency (old new : nat) (n : ExecutionNode) : ExecutionNode :=
  withDependencies (replaceId old new (_dependencies n)) n.

(** Modelled from the spec: [ExecutionPlan::nextId] (Aql/ExecutionPlan is
    not part of the sources at hand): ids are handed out in increasing
    order; the call advances the counter and returns the new value. *)
Definition nextId (plan : ExecutionPlan) : nat * ExecutionPlan :=
  (S (_nextId plan),
   mkPlan (_ids plan) (_root plan) (S (_nextId plan)) (_varSetBy plan)).

(** Modelled from the spec: [ExecutionPlan::registerNode]: the plan takes
    ownership of the node and files it under its id. *)
Definition registerNode (n : ExecutionNode) (plan : ExecutionPlan) : ExecutionPlan :=
  withIds (<[_id n := n]> (_ids plan)) plan.

(** Modelled from the spec: [ExecutionPlan::replaceNode(old, new, parent)]:
    splices [new] in place of [old] under [parent], which must list [old]
    as a dependency (an internal error otherwise).  In place of [old]: the
    new node takes over the dependencies of the old one, those dependencies
    name it as their parent instead, and the parent's dependency on [old]
    becomes one on [new].  The spec says nothing about the lists of the
    replaced node itself; they are left as they are. *)
Definition replaceNode (old new parent : nat) (plan : ExecutionPlan)
  : Result ExecutionPlan :=
  match getNodeById plan old, getNodeById plan new, getNodeById plan parent with
  | Some Old, Some _, Some Par =>
      if bool_decide (old ∈ _dependencies Par) then
        let ids1 :=
          alter (λ N, withParents (_parents N ++ [parent])
                        (withDependencies (_dependencies N ++ _dependencies Old) N))
                new (_ids plan) in
        let ids2 :=
          foldr (λ d m, alter (λ D, withParents (replaceId old new (_parents D)) D) d m)
                ids1 (_dependencies Old) in
        let ids3 := alter (replaceDependency old new) parent ids2 in
        Ok (withIds ids3 plan)
      else Failed InternalError
  | _, _, _ => Failed InternalError
  end.

(** Modelled from the spec: unlinking one node.  The node must have exactly
    one dependency (a programming error otherwise); every parent of the node
    is rewired to depend directly on that one dependency instead, and the
    dependency names those parents as its own in place of the node.  The
    lists of the unlinked node itself are left as they are. *)
Definition unlinkNode (plan : ExecutionPlan) (n : nat) : Result ExecutionPlan :=
  match getNodeById plan n with
  | Some N =>
      match _dependencies N with
      | [d] =>
          let ids1 :=
            foldr (λ p m, alter (replaceDependency n d) p m)
                  (_ids plan) (_parents N) in
          let ids2 :=
            alter (λ D, withParents
                          (filter (λ p, p ≠ n) (_parents D) ++ _parents N) D)
                  d ids1 in
          Ok (withIds ids2 plan)
      | _ => Failed InternalError
      end
  | None => Failed InternalError
  end.

(** A loop whose body can fail: the first failure ends it. *)
Fixpoint foldResult {St A} (step : St → A → Result St) (s : St) (l : list A)
  : Result St :=
  match l with
  | [] => Ok s
  | a :: l => s' ← step s a; foldResult step s' l
  end.

(** Modelled from the spec: [ExecutionPlan::unlinkNodes]: the nodes of the
    set are unlinked one after the other, each as [unlinkNode] does (the
    set is a [std::unordered_set] of node pointers, here of node ids, taken
    in the order [elements] lists them); it fails when a node of the set
    does not have exactly one dependency when its turn comes. *)
Definition unlinkNodes (toUnlink : gset nat) (plan : ExecutionPlan)
  : Result ExecutionPlan :=
  foldResult unlinkNode plan (elements toUnlink).

(** Modelled from the spec: [ExecutionPlan::findNodesOfType(type,
    recursive)]: a preorder traversal from the root along the dependencies;
    [recursive] tells whether it descends past a node of the wanted type.
    The depth of the traversal is bounded by the number of registered
    nodes, which an acyclic plan never exceeds. *)
Fixpoint findNodes (fuel : nat) (plan : ExecutionPlan) (t : NodeType)
    (recursive : bool) (id : nat) : list nat :=
  match fuel with
  | 0 => []
  | S fuel =>
      match getNodeById plan id with
      | None => []
      | Some n =>
          let below := flat_map (findNodes fuel plan t recursive) (_dependencies n) in
          if bool_decide (getType n = t)
          then id :: (if recursive then below else [])
          else below
      end
  end.

(** Modelled from the spec: [findNodesOfType], the traversal from the
    root. *)
Definition findNodesOfType (plan : ExecutionPlan) (t : NodeType)
    (recursive : bool) : list nat :=
  findNodes (size (_ids plan)) plan t recursive (_root plan).

(** The ids of the registered nodes never exceed the id counter (ids are
    handed out by [nextId] in increasing order). *)
Definition idsBounded (plan : ExecutionPlan) : Prop :=
  map_Forall (λ i _, i ≤ _nextId plan) (_ids plan).

(** The node [m] is registered and has exactly one dependency. *)
Definition singleDependency (plan : ExecutionPlan) (m : nat) : Prop :=
  ∃ M d, getNodeById plan m = Some M ∧ _dependencies M = [d].

(** The node [p] is registered and lists [d] among its dependencies. *)
Definition dependsOn (p d : nat) (plan : ExecutionPlan) : Prop :=
  ∃ P, getNodeById plan p = Some P ∧ d ∈ _dependencies P.

(** [n] has the single dependency [d] and names [p] as a parent, and [p]
    depends on [n]. *)
Definition linkedThrough (n d p : nat) (plan : ExecutionPlan) : Prop :=
  (∃ N, getNodeById plan n = Some N ∧ _dependencies N = [d] ∧ p ∈ _parents N)
  ∧ dependsOn p n plan.

(** The plan a rule leaves behind, and the dependencies and parents of one
    of its nodes. *)
Definition planOf {A B} (r : Result (ExecutionPlan * A * B)) : option ExecutionPlan :=
  match r with
  | Ok (plan, _, _) => Some plan
  | Failed _ => None
  end.

Definition dependenciesOf (plan : option ExecutionPlan) (id : nat) : option (list nat) :=
  plan ≫= λ p, _dependencies <$> getNodeById p id.

(** ** The rules that modify the plan in place *)

(** [Optimizer::PlanList]: plans are held by pointer, here by address. *)
Abbreviation PlanList := (list nat).

Section Rules.
(** The capabilities of [AstNode] and [Expression] the rules consume
    (Aql/AstNode and Aql/Expression are not part of the sources at
    hand). *)
Context (isConstant : AstNode → bool).
Context (toBoolean : AstNode → bool).
Context (canThrow : Expression → bool).

(** [new NoResultsNode(id)] *)
Definition new_NoResultsNode (id : nat) : ExecutionNode :=
  mkNode id NoResultsNode [] [] ∅.

(** The body of the loop of [removeUnnecessaryFiltersRule] for the filter
    node [n], on the plan and the [toUnlink] set as they stand. *)
Definition removeUnnecessaryFilters_body (st : ExecutionPlan * gset nat)
    (n : nat) : Result (ExecutionPlan * gset nat) :=
  let '(plan, toUnlink) := st in
  match getNodeById plan n with
  | None => Failed InternalError
  | Some N =>
      (* filter nodes always have one input variable *)
      let varsUsedHere := getVariablesUsedHere N in
      _ ← TRI_ASSERT (bool_decide (length varsUsedHere = 1));
      match varsUsedHere with
      | [] => Failed AssertionFailed
      | variable :: _ =>
          (* now check who introduced our variable *)
          match getVarSetBy plan (var_id variable) with
          | None => Ok (plan, toUnlink)
          | Some setter =>
              match data setter with
              | CalculationNode expression _ =>
                  let root := node expression in
                  if negb (isConstant root) then Ok (plan, toUnlink)
                  else
                    _ ← TRI_ASSERT (negb (canThrow expression));
                    if toBoolean root then
                      (* filter is always true *)
                      Ok (plan, {[n]} ∪ toUnlink)
                    else
                      (* filter is always false *)
                      let parents := _parents N in
                      _ ← TRI_ASSERT (bool_decide (length parents = 1));
                      match parents with
                      | [] => Failed AssertionFailed
                      | parent0 :: _ =>
                          let '(id, plan) := nextId plan in
                          let noResults := new_NoResultsNode id in
                          let plan := registerNode noResults plan in
                          plan ← replaceNode n (_id noResults) parent0 plan;
                          Ok (plan, toUnlink)
                      end
              | _ => Ok (plan, toUnlink)
              end
          end
      end
  end.

(** What the loop body finds out about the filter node [n]: the
    expression of the Calculation node that sets its input variable, when
    there is such a node and the expression is constant. *)
Definition constantFilterExpression (plan : ExecutionPlan) (n : nat)
  : option Expression :=
  match getNodeById plan n with
  | Some N =>
      match data N with
      | FilterNode v =>
          match getVarSetBy plan (var_id v) with
          | Some setter =>
              match data setter with
              | CalculationNode expression _ =>
                  if isConstant (node expression) then Some expression else None
              | _ => None
              end
          | None => None
          end
      | _ => None
      end
  | None => None
  end.

(** [n] is a filter node whose input variable has no setter, or a setter
    that is not a Calculation node, or one whose expression is not
    constant. *)
Definition undecidedFilter (plan : ExecutionPlan) (n : nat) : bool :=
  match getNodeById plan n with
  | Some N =>
      match data N with
      | FilterNode v =>
          match getVarSetBy plan (var_id v) with
          | Some setter =>
              match data setter with
              | CalculationNode expression _ => negb (isConstant (node expression))
              | _ => true
              end
          | None => true
          end
      | _ => false
      end
  | None => false
  end.

(** The scan of [removeUnnecessaryFiltersRule] over the filter nodes. *)
Definition removeUnnecessaryFilters_scan (plan : ExecutionPlan)
    (nodes : list nat) : Result (ExecutionPlan * gset nat) :=
  foldResult removeUnnecessaryFilters_body (plan, ∅) nodes.

(** [removeUnnecessaryFiltersRule(opt, plan, out, keep)]: the plan is
    modified in place, [out] is not touched; the result is the plan, [out]
    and [keep] as the call leaves them ([TRI_ERROR_NO_ERROR] is the only
    code it returns). *)
Definition removeUnnecessaryFiltersRule (plan : ExecutionPlan) (out : PlanList)
  : Result (ExecutionPlan * PlanList * bool) :=
  let keep := true in
  let nodes := findNodesOfType plan FILTER true in
  '(plan, toUnlink) ← removeUnnecessaryFilters_scan plan nodes;
  plan ← (if bool_decide (toUnlink ≠ ∅)
          then unlinkNodes toUnlink plan else Ok plan);
  Ok (plan, out, keep).

(** The body of the loop of [removeUnnecessaryCalculationsRule]. *)
Definition removeUnnecessaryCalculations_body (plan : ExecutionPlan)
    (toUnlink : gset nat) (n : nat) : Result (gset nat) :=
  match getNodeById plan n with
  | None => Failed InternalError
  | Some N =>
      match data N with
      | CalculationNode expression _ =>
          if canThrow expression then
            (* If this node can throw, we must not optimize it away! *)
            Ok toUnlink
          else
            let outvar := getVariablesSetHere N in
            _ ← TRI_ASSERT (bool_decide (length outvar = 1));
            match outvar with
            | [] => Failed AssertionFailed
            | outvar0 :: _ =>
                let varsUsedLater := getVarsUsedLater N in
                if bool_decide (var_id outvar0 ∉ varsUsedLater)
                then Ok ({[n]} ∪ toUnlink)
                else Ok toUnlink
            end
      | _ => Failed BadCast
      end
  end.

(** [n] is a Calculation node whose expression cannot throw and whose
    output variable is not among the variables used later. *)
Definition deadCalculation (plan : ExecutionPlan) (n : nat) : bool :=
  match getNodeById plan n with
  | Some N =>
      match data N with
      | CalculationNode expression outVariable =>
          negb (canThrow expression)
          && bool_decide (var_id outVariable ∉ getVarsUsedLater N)
      | _ => false
      end
  | None => false
  end.

Definition removeUnnecessaryCalculations_scan (plan : ExecutionPlan)
    (nodes : list nat) : Result (gset nat) :=
  foldResult (removeUnnecessaryCalculations_body plan) ∅ nodes.

(** [removeUnnecessaryCalculationsRule(opt, plan, out, keep)] *)
Definition removeUnnecessaryCalculationsRule (plan : ExecutionPlan)
    (out : PlanList) : Result (ExecutionPlan * PlanList * bool) :=
  let keep := true in
  let nodes := findNodesOfType plan CALCULATION true in
  toUnlink ← removeUnnecessaryCalculations_scan plan nodes;
  plan ← (if bool_decide (toUnlink ≠ ∅)
          then unlinkNodes toUnlink plan else Ok plan);
  Ok (plan, out, keep).

End Rules.

(** ** Plans on the heap *)

(** [useIndexRange] creates plans ([clone]) and nodes ([new]) and hands
    plans around by pointer.  The memory keeps the live plan objects and the
    live nodes that no plan owns (yet), both by address, and an oracle that
    tells for each operation that may throw whether it does: one flag is
    consumed per such operation, [true] meaning that it throws; when the
    flags are used up nothing throws any more. *)
Inductive Exception : Type :=
| bad_alloc
| internal_error.

Record Memory := mkMemory {
  plans : gmap nat ExecutionPlan;
  looseNodes : gmap nat ExecutionNode;
  nextAddress : nat;
  faults : list bool
}.

Inductive Outcome (A : Type) : Type :=
| Returned (a : A)
| Thrown (e : Exception)
| Aborted (f : Failure).
Arguments Returned {A} a.
Arguments Thrown {A} e.
Arguments Aborted {A} f.

(** A computation on a state that returns, throws or aborts. *)
Record Prog (St A : Type) : Type := mkProg { run : St → Outcome A * St }.
Arguments mkProg {St A} run.
Arguments run {St A} p s.

#[global] Instance Prog_ret {St} : MRet (Prog St) := λ A a,
  mkProg (λ s, (Returned a, s)).
#[global] Instance Prog_bind {St} : MBind (Prog St) := λ A B k c,
  mkProg (λ s,
    match run c s with
    | (Returned a, s') => run (k a) s'
    | (Thrown e, s') => (Thrown e, s')
    | (Aborted f, s') => (Aborted f, s')
    end).

Definition throw {St A} (e : Exception) : Prog St A := mkProg (λ s, (Thrown e, s)).
Definition abort {St A} (f : Failure) : Prog St A := mkProg (λ s, (Aborted f, s)).

(** [try { body } catch (...) { handler }] *)
Definition tryCatch {St A} (body : Prog St A) (handler : Exception → Prog St A)
  : Prog St A :=
  mkProg (λ s,
    match run body s with
    | (Thrown e, s') => run (handler e) s'
    | r => r
    end).

(** A loop over a list in a [Prog]. *)
Fixpoint forEach {St A} (body : A → Prog St unit) (l : list A) : Prog St unit :=
  match l with
  | [] => mret tt
  | a :: l => _ ← body a; forEach body l
  end.

(** An operation that may throw: consumes one flag of the oracle. *)
Definition mayThrow : Prog Memory unit := mkProg (λ m,
  match faults m with
  | true :: rest =>
      (Thrown bad_alloc, mkMemory (plans m) (looseNodes m) (nextAddress m) rest)
  | false :: rest =>
      (Returned tt, mkMemory (plans m) (looseNodes m) (nextAddress m) rest)
  | [] => (Returned tt, m)
  end).

(** A fresh address. *)
Definition freshAddress : Prog Memory nat := mkProg (λ m,
  (Returned (nextAddress m),
   mkMemory (plans m) (looseNodes m) (S (nextAddress m)) (faults m))).

Definition loadPlan (a : nat) : Prog Memory ExecutionPlan := mkProg (λ m,
  match plans m !! a with
  | Some p => (Returned p, m)
  | None => (Aborted InternalError, m)
  end).

Definition storePlan (a : nat) (p : ExecutionPlan) : Prog Memory unit := mkProg (λ m,
  (Returned tt, mkMemory (<[a := p]> (plans m)) (looseNodes m) (nextAddress m) (faults m))).

(** [delete plan] *)
Definition deletePlan (a : nat) : Prog Memory unit := mkProg (λ m,
  (Returned tt, mkMemory (delete a (plans m)) (looseNodes m) (nextAddress m) (faults m))).

(** [new SomeNode(...)]: the node lives at a fresh address and belongs to
    no plan. *)
Definition newNode (n : ExecutionNode) : Prog Memory nat :=
  _ ← mayThrow;
  a ← freshAddress;
  mkProg (λ m,
    (Returned a,
     mkMemory (plans m) (<[a := n]> (looseNodes m)) (nextAddress m) (faults m))).

(** [delete node] *)
Definition deleteNode (a : nat) : Prog Memory unit := mkProg (λ m,
  (Returned tt, mkMemory (plans m) (delete a (looseNodes m)) (nextAddress m) (faults m))).

(** No object lives at an address that has not been handed out yet. *)
Definition heapFresh (m : Memory) : Prop :=
  ∀ a, nextAddress m ≤ a → plans m !! a = None ∧ looseNodes m !! a = None.

(** The oracle lets the clone go through and then makes either the
    construction of the node or its registration throw. *)
Definition throwsInNodeSetup (m : Memory) : Prop :=
  ∃ rest, faults m = false :: true :: rest
          ∨ faults m = false :: false :: true :: rest.

(** ** [CalculationNodeFinder] and [useIndexRange] *)

(** The members of [CalculationNodeFinder].  [_plan] is a pointer, [_out] is
    a member of type [Optimizer::PlanList] (a list of plan pointers held by
    value), [_prev] a node of the plan or null. *)
Record CalculationNodeFinder := mkFinder {
  _ranges : RangesInfo;
  _plan : nat;
  _var : AqlVariable;
  _out : PlanList;
  _prev : option nat
}.

(** The constructor: [_plan(plan), _var(var), _out(out), _prev(nullptr)] and
    a new, empty [RangesInfo]; the member [_out] is initialised from the
    argument [out], that is, with a copy of the caller's list. *)
Definition CalculationNodeFinder_new (plan : nat) (var : AqlVariable)
    (out : PlanList) : CalculationNodeFinder :=
  mkFinder ∅ plan var out None.

Definition setRanges (r : RangesInfo) (f : CalculationNodeFinder) :=
  mkFinder r (_plan f) (_var f) (_out f) (_prev f).
Definition setPrev (en : nat) (f : CalculationNodeFinder) :=
  mkFinder (_ranges f) (_plan f) (_var f) (_out f) (Some en).
Definition pushOut (plan : nat) (f : CalculationNodeFinder) :=
  mkFinder (_ranges f) (_plan f) (_var f) (_out f ++ [plan]) (_prev f).

(** The methods of the finder run on the finder object and the memory. *)
Abbreviation FinderProg := (Prog (CalculationNodeFinder * Memory)).

Definition onMemory {A} (c : Prog Memory A) : FinderProg A := mkProg (λ '(f, m),
  match run c m with
  | (o, m') => (o, (f, m'))
  end).

Definition getFinder : FinderProg CalculationNodeFinder :=
  mkProg (λ '(f, m), (Returned f, (f, m))).

Definition modifyFinder (g : CalculationNodeFinder → CalculationNodeFinder)
  : FinderProg unit := mkProg (λ '(f, m), (Returned tt, (g f, m))).

Section UseIndexRange.
(** The index catalog: the indexes of a collection that fit a list of
    attributes ([EnumerateCollectionNode::getIndexes]), and
    [ExecutionPlan::clone]; neither is part of the sources at hand.  The
    clone is looked up with the node ids of the plan it was made from
    ([newPlan->getNodeById(node->id())]). *)
Context (getIndexes : string → list string → list Index).
Context (clone : ExecutionPlan → ExecutionPlan).

(** [_plan->clone()]: a new plan object. *)
Definition ExecutionPlan_clone (plan : nat) : Prog Memory nat :=
  p ← loadPlan plan;
  _ ← mayThrow;
  a ← freshAddress;
  _ ← storePlan a (clone p);
  mret a.

(** [newPlan->nextId()] on a plan of the heap. *)
Definition heap_nextId (plan : nat) : Prog Memory nat :=
  p ← loadPlan plan;
  let '(id, p) := nextId p in
  _ ← storePlan plan p;
  mret id.

(** [newPlan->registerNode(newNode)]: may throw, and then leaves the plan
    and the node as they were; when it goes through the plan owns the
    node. *)
Definition heap_registerNode (plan node : nat) : Prog Memory unit :=
  _ ← mayThrow;
  p ← loadPlan plan;
  mkProg (λ m,
    match looseNodes m !! node with
    | Some n =>
        (Returned tt,
         mkMemory (<[plan := registerNode n p]> (plans m))
                  (delete node (looseNodes m)) (nextAddress m) (faults m))
    | None => (Aborted InternalError, m)
    end).

(** [newPlan->replaceNode(newPlan->getNodeById(old), newNode,
    newPlan->getNodeById(parent))]; a node that is not found or a parent
    that does not list the old node is an exception. *)
Definition heap_replaceNode (plan old new parent : nat) : Prog Memory unit :=
  p ← loadPlan plan;
  match replaceNode old new parent p with
  | Ok p' => storePlan plan p'
  | Failed _ => throw internal_error
  end.

(** The body of the loop over the indexes in [before], for the
    EnumerateCollection node [node] and the index [idx].  The [try] block
    of the source is split in two at the assignment of [newNode], so that
    each handler knows whether [newNode] is still null. *)
Definition substituteIndex (node : ExecutionNode) (vocbase collection : string)
    (outVariable : AqlVariable) (rangeInfo : list RangeInfo) (idx : Index)
  : FinderProg unit :=
  f ← getFinder;
  newPlan ← onMemory (ExecutionPlan_clone (_plan f));
  '(id, newNodeAt) ← onMemory
    (tryCatch
       (id ← heap_nextId newPlan;
        a ← newNode (mkNode id (IndexRangeNode vocbase collection outVariable
                                  idx rangeInfo) [] [] ∅);
        mret (id, a))
       (λ e, (* newNode == nullptr *)
             _ ← deletePlan newPlan; throw e));
  _ ← onMemory
    (tryCatch
       (heap_registerNode newPlan newNodeAt)
       (λ e, (* newNode != nullptr *)
             _ ← deleteNode newNodeAt; _ ← deletePlan newPlan; throw e));
  match _prev f with
  | None => abort InternalError
  | Some prev =>
      _ ← onMemory (heap_replaceNode newPlan (_id node) id prev);
      modifyFinder (pushOut newPlan)
  end.

(** [CalculationNodeFinder::before(en)] *)
Definition before (en : nat) : FinderProg unit :=
  f ← getFinder;
  plan ← onMemory (loadPlan (_plan f));
  match getNodeById plan en with
  | None => abort InternalError
  | Some EN =>
      _ ← match data EN with
          | CalculationNode expression outVariable =>
              (* outvar = en->getVariablesSetHere(), of size 1 *)
              if bool_decide (var_id outVariable = var_id (_var f)) then
                let '(_, _, r) :=
                  buildRangeInfo plan (node expression) "" "" (_ranges f) in
                modifyFinder (setRanges r)
              else mret tt
          | EnumerateCollectionNode vocbase collection var =>
              match RangesInfo_find (var_name var) (_ranges f) with
              | Some map =>
                  let attrs := (map_to_list map).*1 in
                  let rangeInfo := (map_to_list map).*2 in
                  let idxs := getIndexes collection attrs in
                  forEach (substituteIndex EN vocbase collection var rangeInfo)
                          idxs
              | None => mret tt
              end
          | _ => mret tt
          end;
      modifyFinder (setPrev en)
  end.

(** Modelled from the spec: [ExecutionNode::walk] with the finder as
    worker (Aql/ExecutionNode is not part of the sources at hand): a single
    walk up the chain of dependencies, with the worker's [before] called on
    every node it comes to; a node with no or more than one dependency ends
    the walk.  [useIndexRange] starts it on the filter node itself
    ([nn->walk(&finder)]), whose visit only sets [_prev].  The number of
    steps is bounded by [fuel], for which the caller gives the number of
    nodes of the plan. *)
Fixpoint walk (fuel : nat) (en : nat) : FinderProg unit :=
  match fuel with
  | 0 => mret tt
  | S fuel =>
      _ ← before en;
      f ← getFinder;
      plan ← onMemory (loadPlan (_plan f));
      match _dependencies <$> getNodeById plan en with
      | Some [d] => walk fuel d
      | _ => mret tt
      end
  end.

(** One turn of the loop of [useIndexRange]: the finder is constructed,
    walks upwards from the filter node and is what it is when the walk
    ends (the turn then drops it). *)
Definition useIndexRange_walk (plan : nat) (out : PlanList) (n : nat)
  : Prog Memory CalculationNodeFinder :=
  p ← loadPlan plan;
  match getNodeById p n with
  | None => abort InternalError
  | Some N =>
      let invars := getVariablesUsedHere N in
      match invars with
      | [var] =>
          mkProg (λ m,
            match run (walk (size (_ids p)) n)
                      (CalculationNodeFinder_new plan var out, m) with
            | (Returned _, (finder, m')) => (Returned finder, m')
            | (Thrown e, (_, m')) => (Thrown e, m')
            | (Aborted f, (_, m')) => (Aborted f, m')
            end)
      | _ => abort AssertionFailed
      end
  end.

(** [useIndexRange(opt, plan, out, keep)]: returns [out] and [keep] as the
    call leaves them. *)
Definition useIndexRange (plan : nat) (out : PlanList)
  : Prog Memory (PlanList * bool) :=
  let keep := true in
  p ← loadPlan plan;
  let nodes := findNodesOfType p FILTER true in
  _ ← forEach (λ n, _ ← useIndexRange_walk plan out n; mret tt) nodes;
  mret (out, keep).

End UseIndexRange.

(** Modelled from the spec: what the optimizer's loop (Aql/Optimizer is not
    part of the sources at hand) keeps after a rule has run on a plan: the
    plan itself when the rule set [keep], and every plan the rule put into
    [out]. *)
Definition candidatesAfter (plan : nat) (result : PlanList * bool) : PlanList :=
  (if result.2 then [plan] else []) ++ result.1.

(** ** Example plans *)

(** [FOR p IN coll FILTER p.a == 5 RETURN p], as the spec draws it:
    Singleton(1) → EnumerateCollection(2) → Calculation(3) → Filter(4) →
    Return(5); the Return node is the root the traversals start from. *)
Definition var_p : AqlVariable := mkVariable 0 "p".
Definition var_t : AqlVariable := mkVariable 1 "t".

Definition five : AstNode := AstValue (JNumber 5).

Definition example_condition : AstNode :=
  AstBinary BINARY_EQ (attributeAccess var_p ["a"]) five.

Definition example_nodes (condition : AstNode) : gmap nat ExecutionNode :=
  list_to_map
    [ (1, mkNode 1 SingletonNode [] [2] ∅);
      (2, mkNode 2 (EnumerateCollectionNode "_system" "coll" var_p) [1] [3] ∅);
      (3, mkNode 3 (CalculationNode (mkExpression condition) var_t) [2] [4] ∅);
      (4, mkNode 4 (FilterNode var_t) [3] [5] ∅);
      (5, mkNode 5 (ReturnNode var_p) [4] [] ∅) ].

Definition example_plan_with (condition : AstNode) : ExecutionPlan :=
  mkPlan (example_nodes condition) 5 5 (list_to_map [(0, 2); (1, 3)]).

Definition example_plan : ExecutionPlan := example_plan_with example_condition.

(** [LET x = ... FILTER x.a < 5 RETURN x]: the variable of the attribute
    access is set by a Calculation node, not by an EnumerateCollection
    node. *)
Definition var_x : AqlVariable := mkVariable 0 "x".

Definition let_plan : ExecutionPlan :=
  mkPlan
    (list_to_map
       [ (1, mkNode 1 SingletonNode [] [2] ∅);
         (2, mkNode 2 (CalculationNode
                         (mkExpression (AstFcall "DOCUMENT" [AstValue (JString "c/1")]))
                         var_x) [1] [3] ∅);
         (3, mkNode 3 (CalculationNode
                         (mkExpression
                            (AstBinary BINARY_LT (attributeAccess var_x ["a"]) five))
                         var_t) [2] [4] ∅);
         (4, mkNode 4 (FilterNode var_t) [3] [5] ∅);
         (5, mkNode 5 (ReturnNode var_x) [4] [] ∅) ])
    5 5 (list_to_map [(0, 2); (1, 3)]).

(** A plain instance of the capabilities the rules consume: only value
    nodes are constant, a constant's truth value is JavaScript-like, and
    only constant expressions are known not to throw. *)
Definition valueIsConstant (a : AstNode) : bool :=
  match a with
  | AstValue _ => true
  | _ => false
  end.

Definition valueToBoolean (a : AstNode) : bool :=
  match a with
  | AstValue (JBool b) => b
  | AstValue (JNumber n) => negb (n =? 0)%Z
  | AstValue (JString s) => negb (string_empty s)
  | AstValue JNull => false
  | AstValue _ => true
  | _ => false
  end.

Definition throwsUnlessConstant (e : Expression) : bool :=
  negb (valueIsConstant (node e)).

(** [FILTER false] and [FILTER true] in the place of the condition. *)
Definition false_plan : ExecutionPlan := example_plan_with (AstValue (JBool false)).
Definition true_plan : ExecutionPlan := example_plan_with (AstValue (JBool true)).

(** [LET t = true FILTER t FILTER t RETURN t]: Singleton(1) →
    Calculation(2) → Filter(3) → Filter(4) → Return(5), both filters on the
    variable the calculation sets. *)
Definition adjacent_plan : ExecutionPlan :=
  mkPlan
    (list_to_map
       [ (1, mkNode 1 SingletonNode [] [2] ∅);
         (2, mkNode 2 (CalculationNode (mkExpression (AstValue (JBool true))) var_t)
               [1] [3] ∅);
         (3, mkNode 3 (FilterNode var_t) [2] [4] ∅);
         (4, mkNode 4 (FilterNode var_t) [3] [5] ∅);
         (5, mkNode 5 (ReturnNode var_t) [4] [] ∅) ])
    5 5 (list_to_map [(1, 2)]).

(** [FOR p IN coll LET u = p.a LET w = FAIL() RETURN p]: neither [u] (node
    3) nor [w] (node 4) is used later; the second calculation can throw. *)
Definition var_u : AqlVariable := mkVariable 2 "u".
Definition var_w : AqlVariable := mkVariable 3 "w".

Definition unused_plan : ExecutionPlan :=
  mkPlan
    (list_to_map
       [ (1, mkNode 1 SingletonNode [] [2] {[0]});
         (2, mkNode 2 (EnumerateCollectionNode "_system" "coll" var_p) [1] [3] {[0]});
         (3, mkNode 3 (CalculationNode
                         (mkExpression (attributeAccess var_p ["a"])) var_u)
               [2] [4] {[0]});
         (4, mkNode 4 (CalculationNode
                         (mkExpression (AstFcall "FAIL" [])) var_w)
               [3] [5] {[0]});
         (5, mkNode 5 (ReturnNode var_p) [4] [] ∅) ])
    5 5 (list_to_map [(0, 2); (2, 3); (3, 4)]).

(** Only function calls can throw. *)
Definition callsCanThrow (e : Expression) : bool :=
  match node e with
  | AstFcall _ _ => true
  | _ => false
  end.

(** The catalog of the example: the collection [coll] has one index, on
    the attribute [a]. *)
Definition index_a : Index := mkIndex 7 ["a"].

Definition example_getIndexes (collection : string) (attrs : list string)
  : list Index :=
  if bool_decide (collection = "coll") && bool_decide ("a" ∈ attrs)
  then [index_a] else [].

(** A clone that keeps the node ids, as the lookups in [before] need it. *)
Definition cloneKeepingIds (plan : ExecutionPlan) : ExecutionPlan := plan.

(** The example plan at address 0; nothing throws. *)
Definition example_memory : Memory :=
  mkMemory {[0 := example_plan]} ∅ 1 [].

(** The same heap with an oracle that lets the clone go through and makes
    the construction of the IndexRange node throw, and a finder that has
    reached the EnumerateCollection node (2) of the example coming from the
    Calculation node (3). *)
Definition throwing_memory : Memory :=
  mkMemory {[0 := example_plan]} ∅ 1 [false; true].

Definition example_finder : CalculationNodeFinder :=
  mkFinder (RangesInfo_insert "p" "a" (Some (mkBound five true))
              (Some (mkBound five true)) ∅)
           0 var_t [] (Some 3).

Definition example_enumerate : ExecutionNode :=
  mkNode 2 (EnumerateCollectionNode "_system" "coll" var_p) [1] [3] ∅.

(** [FOR p IN coll LET y = ... FILTER p.a > 1 AND y.b < 10 RETURN p]: [p]
    is set by the EnumerateCollection node, [y] by a Calculation node. *)
Definition var_y : AqlVariable := mkVariable 4 "y".
Definition var_c : AqlVariable := mkVariable 5 "c".

Definition mixed_condition : AstNode :=
  AstBinary BINARY_AND
    (AstBinary BINARY_GT (attributeAccess var_p ["a"]) (AstValue (JNumber 1)))
    (AstBinary BINARY_LT (attributeAccess var_y ["b"]) (AstValue (JNumber 10))).

Definition mixed_plan : ExecutionPlan :=
  mkPlan
    (list_to_map
       [ (1, mkNode 1 SingletonNode [] [2] ∅);
         (2, mkNode 2 (EnumerateCollectionNode "_system" "coll" var_p) [1] [3] ∅);
         (3, mkNode 3 (CalculationNode
                         (mkExpression (AstFcall "DOCUMENT" [AstValue (JString "c/1")]))
                         var_y) [2] [4] ∅);
         (4, mkNode 4 (CalculationNode (mkExpression mixed_condition) var_c)
               [3] [5] ∅);
         (5, mkNode 5 (FilterNode var_c) [4] [6] ∅);
         (6, mkNode 6 (ReturnNode var_p) [5] [] ∅) ])
    6 6 (list_to_map [(0, 2); (4, 3); (5, 4)]).

(** ** Shapes of conditions *)

(** The operator of a comparison read from the other side: [c < a] says
    [a > c]. *)
Definition mirrored (op : BinaryOperator) : BinaryOperator :=
  match op with
  | BINARY_LT => BINARY_GT
  | BINARY_GT => BINARY_LT
  | BINARY_LE => BINARY_GE
  | BINARY_GE => BINARY_LE
  | op => op
  end.

(** The operators the two comparison cases of [buildRangeInfo] are about. *)
Definition isComparisonOperator (op : BinaryOperator) : bool :=
  match op with
  | BINARY_EQ | BINARY_LT | BINARY_LE | BINARY_GT | BINARY_GE => true
  | _ => false
  end.

(** The two bounds a comparison of an attribute with the constant [c]
    stands for: both sides for an equality, one side for an ordering. *)
Definition comparisonLow (op : BinaryOperator) (attrOnLeft : bool) (c : AstNode)
  : option RangeInfoBound :=
  match op with
  | BINARY_EQ => Some (mkBound c true)
  | _ => orderingLow op attrOnLeft c
  end.

Definition comparisonHigh (op : BinaryOperator) (attrOnLeft : bool) (c : AstNode)
  : option RangeInfoBound :=
  match op with
  | BINARY_EQ => Some (mkBound c true)
  | _ => orderingHigh op attrOnLeft c
  end.

(** The variables a condition refers to. *)
Fixpoint references (node : AstNode) : list AqlVariable :=
  match node with
  | AstReference x => [x]
  | AstAttributeAccess _ member0 => references member0
  | AstValue _ => []
  | AstBinary _ lhs rhs => references lhs ++ references rhs
  | AstFcall _ args => flat_map references args
  end.

(** The nodes one of the cases of [buildRangeInfo] applies to: a reference,
    an attribute access, a conjunction, and an equality or ordering
    comparison that has an attribute access on one side and a value node on
    the other. *)
Definition hasRangeCase (node : AstNode) : bool :=
  match node with
  | AstReference _ | AstAttributeAccess _ _ => true
  | AstBinary BINARY_AND _ _ => true
  | AstBinary op lhs rhs =>
      isComparisonOperator op
      && (bool_decide (type rhs = NODE_TYPE_ATTRIBUTE_ACCESS)
          && bool_decide (type lhs = NODE_TYPE_VALUE)
          || bool_decide (type lhs = NODE_TYPE_ATTRIBUTE_ACCESS)
             && bool_decide (type rhs = NODE_TYPE_VALUE))
  | AstValue _ | AstFcall _ _ => false
  end.

(** The variable names the accumulator has ranges for. *)
Definition rangeNames (r : RangesInfo) : gset string := dom r.

(** The expressions of the Calculation nodes of a plan that set the
    variable [var]: the ones [before] hands to [buildRangeInfo] when the
    finder looks for [var]. *)
Definition calculationsOf (plan : ExecutionPlan) (var : AqlVariable)
  : list Expression :=
  omap (λ kv : nat * ExecutionNode,
          match data kv.2 with
          | CalculationNode expression outVariable =>
              if bool_decide (var_id outVariable = var_id var)
              then Some expression else None
          | _ => None
          end)
       (map_to_list (_ids plan)).

(** No variable the expression refers to is set by an EnumerateCollection
    node. *)
Definition mentionsNoCollectionVariable (plan : ExecutionPlan) (e : Expression)
  : Prop :=
  Forall (λ x, setByEnumerateCollection plan x = false) (references (node e)).

(** [n] is a filter node whose input variable is set by a Calculation node
    with a constant expression that evaluates to true. *)
Definition alwaysTrueFilter (isConstant toBoolean : AstNode → bool)
    (plan : ExecutionPlan) (n : nat) : bool :=
  match constantFilterExpression isConstant plan n with
  | Some expression => toBoolean (node expression)
  | None => false
  end.

(** The plan [plan'] has the nodes of [plan], each of the kind and with the
    payload it has in [plan], and besides them only NoResults nodes; the
    setter index is the same. *)
Definition sameNodes (plan plan' : ExecutionPlan) : Prop :=
  _varSetBy plan' = _varSetBy plan
  ∧ ∀ id,
      match getNodeById plan id with
      | Some N => data <$> getNodeById plan' id = Some (data N)
      | None => ∀ N', getNodeById plan' id = Some N' → data N' = NoResultsNode
      end.

(** A pessimistic [canThrow]: every expression may throw. *)
Definition alwaysThrows (e : Expression) : bool := true.

(** The plan [FILTER false] becomes when the NoResults node (6) has taken
    the place of the filter (4) between the Calculation node (3) and the
    Return node (5); the filter is still registered, with the lists it
    had. *)
Definition noResults_plan : ExecutionPlan :=
  mkPlan
    (list_to_map
       [ (1, mkNode 1 SingletonNode [] [2] ∅);
         (2, mkNode 2 (EnumerateCollectionNode "_system" "coll" var_p) [1] [3] ∅);
         (3, mkNode 3 (CalculationNode (mkExpression (AstValue (JBool false))) var_t)
               [2] [6] ∅);
         (4, mkNode 4 (FilterNode var_t) [3] [5] ∅);
         (5, mkNode 5 (ReturnNode var_p) [6] [] ∅);
         (6, mkNode 6 NoResultsNode [3] [5] ∅) ])
    5 6 (list_to_map [(0, 2); (1, 3)]).

(** ** Heaps that grow *)

(** The heap [m'] is a later state of the heap [m]: it is fresh again, has
    handed out at least the addresses [m] had, and every address [m] had
    handed out holds the plan it held in [m] (or still none). *)
Definition preserves (m m' : Memory) : Prop :=
  heapFresh m'
  ∧ nextAddress m ≤ nextAddress m'
  ∧ ∀ a, a < nextAddress m → plans m' !! a = plans m !! a.

(** Nothing throws: the oracle holds no fault. *)
Definition calm (m : Memory) : Prop := Forall (λ b, b = false) (faults m).

End Aql.

Module Cursor.

(** ** JavaScript values of the cursor actions *)

(** A value read from a parsed JSON body: [None] is [undefined]. *)
Abbreviation JsValue := (option Json).

(** [o.key] on a value that came out of [JSON.parse]: an own property of an
    object, [undefined] otherwise (none of the names the actions read is a
    property of an array or of a primitive). *)
Fixpoint lookupProperty (props : list (string * Json)) (key : string) : JsValue :=
  match props with
  | [] => None
  | (k, v) :: props => if bool_decide (k = key) then Some v else lookupProperty props key
  end.

Definition getProperty (o : Json) (key : string) : JsValue :=
  match o with
  | JObject props => lookupProperty props key
  | _ => None
  end.

(** Truthiness. *)
Definition truthy (v : JsValue) : bool :=
  match v with
  | None => false
  | Some JNull => false
  | Some (JBool b) => b
  | Some (JNumber n) => negb (n =? 0)%Z
  | Some (JString s) => negb (bool_decide (s = ""))
  | Some (JArray _) => true
  | Some (JObject _) => true
  end.

(** [a || b] *)
Definition js_or (a b : JsValue) : JsValue := if truthy a then a else b.

(** The object without its property [key]. *)
Definition removeProperty (key : string) (o : Json) : Json :=
  match o with
  | JObject props => JObject (filter (λ kv, kv.1 ≠ key) props)
  | _ => o
  end.

(** A statement either completes or throws. *)
Inductive Completion (A : Type) : Type :=
| Normal (a : A)
| Throw (error : string).
Arguments Normal {A} a.
Arguments Throw {A} error.

#[global] Instance Completion_ret : MRet Completion := λ A a, Normal a.
#[global] Instance Completion_bind : MBind Completion := λ A B k c,
  match c with
  | Normal a => k a
  | Throw e => Throw e
  end.

(** ** Requests and responses *)

Inductive RequestType : Type := GET | POST | PUT | DELETE | PATCH | HEAD.

(** A request: its type, the URL suffixes after [_api/cursor], and what
    [actions.getJsonBody] makes of its body ([undefined] when the body is
    not JSON; [getJsonBody] is not part of the sources at hand). *)
Record Request := mkRequest {
  requestType : RequestType;
  suffix : list string;
  jsonBody : JsValue
}.

Inductive ErrorCode : Type :=
| ERROR_CURSOR_NOT_FOUND
| ERROR_QUERY_EMPTY
| ERROR_HTTP_BAD_PARAMETER.

Definition HTTP_OK : nat := 200.
Definition HTTP_CREATED : nat := 201.
Definition HTTP_ACCEPTED : nat := 202.
Definition HTTP_BAD : nat := 400.
Definition HTTP_NOT_FOUND : nat := 404.
Definition HTTP_METHOD_NOT_ALLOWED : nat := 405.

(** A cursor object ([arangodb.ArangoCursor]), by its id. *)
Record ArangoCursor := mkCursor { cursor_id : string }.

(** What an action leaves in [res], told by the helper of
    [org/arangodb/actions] that wrote it. *)
Inductive Response : Type :=
| resultBad (code : ErrorCode)
| resultNotFound (code : ErrorCode)
| resultUnsupported
| resultException (error : string)
| resultCursor (cursor : ArangoCursor) (httpCode : nat) (countRequested : option bool)
| resultOk (httpCode : nat) (id : string)
| noResult.

(** Modelled from the spec: the helpers of [org/arangodb/actions], which is
    not part of the sources at hand: [resultBad] answers 400 (it is what
    answers a missing id suffix), [resultNotFound] answers 404 (it is what
    answers DELETE for an unknown cursor), [resultUnsupported] answers 405,
    [resultCursor] and [resultOk] answer with the code they are given; the
    code [resultException] answers with depends on the error and is left
    open, like that of a response nobody wrote. *)
Definition responseCode (r : Response) : option nat :=
  match r with
  | resultBad _ => Some HTTP_BAD
  | resultNotFound _ => Some HTTP_NOT_FOUND
  | resultUnsupported => Some HTTP_METHOD_NOT_ALLOWED
  | resultCursor _ httpCode _ => Some httpCode
  | resultOk httpCode _ => Some httpCode
  | resultException _ => None
  | noResult => None
  end.

(** What [CURSOR(id)] evaluates to. *)
Inductive CursorLookup : Type :=
| IsCursor (c : ArangoCursor)
| NotACursor
| CursorThrows (error : string).

(** What [AQL_EXECUTE(query, bindVars, options)] evaluates to. *)
Inductive Executed : Type :=
| ExecutedCursor (c : ArangoCursor)
| ExecutedError (error : string).

(** ** The actions *)

(** [for (var i in o) { if (o.hasOwnProperty(i)) { options[i] = o[i]; } }]
    for a parsed JSON value [o] that is an object or an array.  An own
    property [hasOwnProperty] of [o] is a JSON value, and calling it throws
    a TypeError; the key [__proto__] assigns the prototype and adds no own
    property. *)
Definition copyOwnProperties (o : Json) (options : gmap string JsValue)
  : Completion (gmap string JsValue) :=
  match o with
  | JObject props =>
      if bool_decide (is_Some (lookupProperty props "hasOwnProperty"))
      then Throw "TypeError"
      else Normal (foldl (λ opts kv,
                            if bool_decide (kv.1 = "__proto__") then opts
                            else <[kv.1 := lookupProperty props kv.1]> opts)
                         options props)
  | JArray items =>
      Normal (foldl (λ opts i, <[pretty i := items !! i]> opts)
                    options (seq 0 (length items)))
  | _ => Normal options
  end.

(** The [options] object [post_api_cursor] builds from the body:
    [{count: json.count || false, batchSize: json.batchSize || 1000,
    ttl: json.ttl}], then every own property of [json.options] when that is
    an object. *)
Definition cursorOptions (json : Json) : Completion (gmap string JsValue) :=
  let options : gmap string JsValue :=
    <["ttl" := getProperty json "ttl"]>
      (<["batchSize" := js_or (getProperty json "batchSize") (Some (JNumber 1000))]>
         (<["count" := js_or (getProperty json "count") (Some (JBool false))]> ∅)) in
  match getProperty json "options" with
  | Some (JObject props) => copyOwnProperties (JObject props) options
  | Some (JArray items) => copyOwnProperties (JArray items) options
  | _ => Normal options
  end.

(** The value the options object holds for [key], when it was built. *)
Definition requestedOption (key : string) (c : Completion (gmap string JsValue))
  : option JsValue :=
  match c with
  | Normal options => options !! key
  | Throw _ => None
  end.

(** [json.options] is an object (or an array) with an own property [key]. *)
Definition optionsOverride (key : string) (json : Json) : bool :=
  match getProperty json "options" with
  | Some (JObject props) => bool_decide (key ∈ props.*1)
  | Some (JArray items) => bool_decide (key ∈ pretty <$> seq 0 (length items))
  | _ => false
  end.

Section Actions.
(** The globals [CURSOR], [DELETE_CURSOR], [AQL_EXECUTE] and
    [decodeURIComponent] ([None]: it throws a URIError), and what
    [actions.resultCursor] makes of a cursor (it might dispose or persist
    it, and it might throw). *)
Context (CURSOR : string → CursorLookup).
Context (DELETE_CURSOR : string → bool).
Context (AQL_EXECUTE : JsValue → JsValue → gmap string JsValue → Executed).
Context (decodeURIComponent : string → option string).
Context (sendCursor : ArangoCursor → nat → option bool → Completion Response).

Definition post_api_cursor (req : Request) : Completion Response :=
  if negb (bool_decide (length (suffix req) = 0)) then
    Normal (resultNotFound ERROR_CURSOR_NOT_FOUND)
  else
    match jsonBody req with
    | None => Normal (resultBad ERROR_QUERY_EMPTY)
    | Some json =>
        options ← cursorOptions json;
        match getProperty json "query" with
        | Some query =>
            match AQL_EXECUTE (Some query) (getProperty json "bindVars") options with
            | ExecutedError error =>
                (* cursor instanceof Error *)
                Normal (resultException error)
            | ExecutedCursor cursor =>
                sendCursor cursor HTTP_CREATED
                  (Some (if truthy (getProperty json "count") then true else false))
            end
        | None => Normal (resultBad ERROR_QUERY_EMPTY)
        end
    end.

Definition put_api_cursor (req : Request) : Completion Response :=
  if negb (bool_decide (length (suffix req) = 1)) then
    Normal (resultBad ERROR_HTTP_BAD_PARAMETER)
  else
    match suffix req with
    | [] => Normal (resultBad ERROR_HTTP_BAD_PARAMETER)
    | suffix0 :: _ =>
        match decodeURIComponent suffix0 with
        | None => Throw "URIError"
        | Some cursorId =>
            match CURSOR cursorId with
            | CursorThrows error => Throw error
            | NotACursor =>
                (* ! (cursor instanceof arangodb.ArangoCursor) *)
                Normal (resultBad ERROR_CURSOR_NOT_FOUND)
            | IsCursor cursor =>
                match sendCursor cursor HTTP_OK None with
                | Normal r => Normal r
                | Throw _ => (* catch (e) { } *) Normal noResult
                end
            end
        end
    end.

Definition delete_api_cursor (req : Request) : Completion Response :=
  if negb (bool_decide (length (suffix req) = 1)) then
    Normal (resultBad ERROR_HTTP_BAD_PARAMETER)
  else
    match suffix req with
    | [] => Normal (resultBad ERROR_HTTP_BAD_PARAMETER)
    | suffix0 :: _ =>
        match decodeURIComponent suffix0 with
        | None => Throw "URIError"
        | Some cursorId =>
            if negb (DELETE_CURSOR cursorId)
            then Normal (resultNotFound ERROR_CURSOR_NOT_FOUND)
            else Normal (resultOk HTTP_ACCEPTED cursorId)
        end
    end.

(** The gateway [callback] of [actions.defineHttp]. *)
Definition callback (req : Request) : Response :=
  let handled :=
    match requestType req with
    | POST => post_api_cursor req
    | PUT => put_api_cursor req
    | DELETE => delete_api_cursor req
    | _ => Normal resultUnsupported
    end in
  match handled with
  | Normal r => r
  | Throw err => resultException err
  end.

End Actions.

(** A [CURSOR] that gives no cursor object, and a body that asks for a
    batch size of zero both directly and through [options]. *)
Definition noCursor (id : string) : CursorLookup := NotACursor.
Definition decodePlain (s : string) : option string := Some s.

(** An [AQL_EXECUTE] that reports the batch size it is asked for. *)
Definition reportBatchSize (query bindVars : JsValue) (options : gmap string JsValue)
  : Executed :=
  match options !! "batchSize" with
  | Some (Some (JNumber n)) =>
      if (n =? 0)%Z then ExecutedError "batchSize is 0"
      else ExecutedError "batchSize is not 0"
  | _ => ExecutedError "batchSize is not a number"
  end.

Definition sendPlainly (c : ArangoCursor) (httpCode : nat) (countRequested : option bool)
  : Completion Response :=
  Normal (resultCursor c httpCode countRequested).

Definition zeroBatchBody : Json :=
  JObject [ ("query", JString "FOR p IN products RETURN p");
            ("batchSize", JNumber 0);
            ("options", JObject [("batchSize", JNumber 0)]) ].

(** ** The cursor registry *)





(** More servers for the examples: one that knows every cursor id, one whose
    queries always give the cursor [1], a [resultCursor] that throws, and a
    [decodeURIComponent] that rejects its argument. *)
Definition everyCursor (id : string) : CursorLookup := IsCursor (mkCursor id).

Definition executeToCursor (query bindVars : JsValue)
    (options : gmap string JsValue) : Executed :=
  ExecutedCursor (mkCursor "1").

Definition sendFails (c : ArangoCursor) (httpCode : nat)
    (countRequested : option bool) : Completion Response :=
  Throw "cursor is gone".

Definition decodeFails (s : string) : option string := None.

(** A body that asks for the count through [options] only. *)
Definition countThroughOptionsBody : Json :=
  JObject [ ("query", JString "FOR p IN products RETURN p");
            ("options", JObject [("count", JBool true)]) ].

End Cursor.
Module AqlTheory.
Import Aql.

(** ** Strings *)

Lemma string_empty_false (s : string) : s ≠ "" → string_empty s = false.
Proof. intros H. unfold string_empty. by apply bool_decide_eq_false. Qed.

Lemma string_empty_true : string_empty "" = true.
Proof. reflexivity. Qed.

Lemma append_cons c (s t : string) : String c s +:+ t = String c (s +:+ t).
Proof. reflexivity. Qed.

Lemma append_empty_r (s : string) : s +:+ "" = s.
Proof. induction s as [|c s IH]; [done | by rewrite !append_cons, ?IH]. Qed.

Lemma append_assoc (s t u : string) : (s +:+ t) +:+ u = s +:+ (t +:+ u).
Proof. induction s as [|c s IH]; [done | by rewrite !append_cons, ?IH]. Qed.

Lemma length_append (s t : string) :
  String.length (s +:+ t) = String.length s + String.length t.
Proof.
  induction s as [|c s IH]; [done|]. rewrite append_cons. simpl. by rewrite IH.
Qed.

Lemma substring_prefix (s t : string) :
  String.substring 0 (String.length s) (s +:+ t) = s.
Proof.
  induction s as [|c s IH].
  - by destruct t.
  - rewrite append_cons. simpl. by rewrite IH.
Qed.

Lemma dropLastChar_dot (s : string) : dropLastChar (s +:+ ".") = s.
Proof.
  unfold dropLastChar. rewrite length_append. simpl.
  replace (String.length s + 1 - 1) with (String.length s) by lia.
  apply substring_prefix.
Qed.

Lemma appendPath_snoc (attr : string) (path : list string) (a : string) :
  appendPath attr (path ++ [a]) = (appendPath attr path +:+ a) +:+ ".".
Proof. unfold appendPath. by rewrite foldl_app. Qed.

Lemma concat_snoc (path : list string) (a : string) :
  path ≠ [] →
  String.concat "." (path ++ [a]) = (String.concat "." path +:+ ".") +:+ a.
Proof.
  induction path as [|b path IH]; [done|]. intros _.
  destruct path as [|b' path].
  - simpl. by rewrite append_assoc.
  - change (String.concat "." ((b :: b' :: path) ++ [a]))
      with (b +:+ "." +:+ String.concat "." ((b' :: path) ++ [a])).
    rewrite IH by done.
    change (String.concat "." (b :: b' :: path))
      with (b +:+ "." +:+ String.concat "." (b' :: path)).
    by rewrite !append_assoc.
Qed.

Lemma appendPath_concat (path : list string) :
  path ≠ [] → appendPath "" path = String.concat "." path +:+ ".".
Proof.
  induction path as [|a path IH] using rev_ind; [done|]. intros _.
  rewrite appendPath_snoc. destruct path as [|b path].
  - reflexivity.
  - rewrite IH by done. by rewrite concat_snoc.
Qed.

Lemma dropLastChar_appendPath (path : list string) :
  path ≠ [] → dropLastChar (appendPath "" path) = String.concat "." path.
Proof. intros H. rewrite appendPath_concat by done. apply dropLastChar_dot. Qed.

(** ** The accumulator *)

Lemma rangeOf_insert name attr low high (r : RangesInfo) :
  rangeOf name attr (RangesInfo_insert name attr low high r)
  = Some (RangeInfo_overwrite (rangeOf name attr r) low high).
Proof.
  unfold rangeOf, RangesInfo_find, RangesInfo_insert.
  rewrite lookup_insert_eq. simpl. rewrite lookup_insert_eq.
  destruct (r !! name); simpl; [done | by rewrite lookup_empty].
Qed.

Lemma RangesInfo_insert_nonempty name attr low high (r : RangesInfo) :
  RangesInfo_insert name attr low high r ≠ ∅.
Proof. unfold RangesInfo_insert. apply insert_non_empty. Qed.

(** ** Walking an attribute access *)

Lemma buildRangeInfo_attributeAccess plan x path enumCollVar attr (r : RangesInfo) :
  setByEnumerateCollection plan x = true →
  var_name x ≠ "" →
  buildRangeInfo plan (attributeAccess x path) enumCollVar attr r
  = (var_name x, appendPath attr path, r).
Proof.
  intros Hset Hname. induction path as [|a path IH] using rev_ind.
  - simpl. unfold setByEnumerateCollection in Hset.
    destruct (getVarSetBy plan (var_id x)); [|done]. by rewrite Hset.
  - unfold attributeAccess. rewrite foldl_app. simpl.
    fold (attributeAccess x path). rewrite IH.
    rewrite string_empty_false by done. simpl.
    by rewrite appendPath_snoc.
Qed.

Lemma type_attributeAccess x path :
  path ≠ [] → type (attributeAccess x path) = NODE_TYPE_ATTRIBUTE_ACCESS.
Proof.
  destruct path as [|a path] using rev_ind; [done|]. intros _.
  unfold attributeAccess. by rewrite foldl_app.
Qed.

(** A reference to a variable that no EnumerateCollection node sets leaves
    the three values as they are. *)
Lemma buildRangeInfo_uncorrelated plan x path enumCollVar attr (r : RangesInfo) :
  setByEnumerateCollection plan x = false →
  enumCollVar = "" →
  buildRangeInfo plan (attributeAccess x path) enumCollVar attr r
  = ("", attr, r).
Proof.
  intros Hset ->. induction path as [|a path IH] using rev_ind.
  - simpl. unfold setByEnumerateCollection in Hset.
    destruct (getVarSetBy plan (var_id x)); [|done]. by rewrite Hset.
  - unfold attributeAccess. rewrite foldl_app. simpl.
    fold (attributeAccess x path). by rewrite IH.
Qed.

(** ** Comparisons between an attribute access and a constant *)

Lemma buildRangeInfo_comparison plan op attrOnLeft x path v enumCollVar
    (r : RangesInfo) :
  setByEnumerateCollection plan x = true →
  var_name x ≠ "" →
  path ≠ [] →
  buildRangeInfo plan
    (comparison op attrOnLeft (attributeAccess x path) (AstValue v))
    enumCollVar "" r
  = match op with
    | BINARY_EQ =>
        (var_name x, appendPath "" path,
         RangesInfo_insert (var_name x) (String.concat "." path)
           (Some (mkBound (AstValue v) true)) (Some (mkBound (AstValue v) true)) r)
    | BINARY_LT | BINARY_LE | BINARY_GT | BINARY_GE =>
        (var_name x, appendPath "" path,
         RangesInfo_insert (var_name x) (String.concat "." path)
           (orderingLow op attrOnLeft (AstValue v))
           (orderingHigh op attrOnLeft (AstValue v)) r)
    | BINARY_AND =>
        buildRangeInfo plan
          (comparison op attrOnLeft (attributeAccess x path) (AstValue v))
          enumCollVar "" r
    | _ => (enumCollVar, "", r)
    end.
Proof.
  intros Hset Hname Hpath.
  pose proof (type_attributeAccess x path Hpath) as Hty.
  pose proof (buildRangeInfo_attributeAccess plan x path enumCollVar "" r
                Hset Hname) as Hacc.
  destruct op, attrOnLeft; try reflexivity;
    unfold comparison; cbn [buildRangeInfo binary_type type isOrdering];
    rewrite ?Hty; cbn [bool_decide decide_rel andb orb]; simpl;
    rewrite ?Hacc; unfold insertIfCorrelated;
    rewrite ?string_empty_false by done; cbn [negb];
    rewrite ?dropLastChar_appendPath by done; reflexivity.
Qed.




Lemma buildRangeInfo_and plan lhs rhs enumCollVar attr (r : RangesInfo) :
  buildRangeInfo plan (AstBinary BINARY_AND lhs rhs) enumCollVar attr r
  = let '(enumCollVar, _, r) := buildRangeInfo plan lhs enumCollVar "" r in
    buildRangeInfo plan rhs enumCollVar "" r.
Proof. reflexivity. Qed.

Lemma buildRangeInfo_between plan x a lo hi enumCollVar attr (r : RangesInfo) :
  setByEnumerateCollection plan x = true →
  var_name x ≠ "" →
  (buildRangeInfo plan (betweenExclusive x a lo hi) enumCollVar attr r).2
  = RangesInfo_insert (var_name x) a None
      (Some (mkBound (AstValue (JNumber hi)) false))
      (RangesInfo_insert (var_name x) a
         (Some (mkBound (AstValue (JNumber lo)) false)) None r).
Proof.
  intros Hset Hname. unfold betweenExclusive.
  rewrite buildRangeInfo_and.
  change (AstBinary BINARY_GT (attributeAccess x [a]) (AstValue (JNumber lo)))
    with (comparison BINARY_GT true (attributeAccess x [a]) (AstValue (JNumber lo))).
  change (AstBinary BINARY_LT (attributeAccess x [a]) (AstValue (JNumber hi)))
    with (comparison BINARY_LT true (attributeAccess x [a]) (AstValue (JNumber hi))).
  rewrite (buildRangeInfo_comparison plan BINARY_GT) by done.
  rewrite (buildRangeInfo_comparison plan BINARY_LT) by done.
  reflexivity.
Qed.

(** C5, as the code has it: an ordering comparison between an attribute
    access [x.a1...an] whose variable [x] is introduced by an
    EnumerateCollection node and a constant, in either operand order, makes
    [buildRangeInfo] insert exactly one single-sided bound under ([x]'s
    name, [a1...an]): the low bound when the comparison constrains the
    attribute from below, the high bound when from above, inclusive iff the
    operator is [<=] or [>=]; and [x.a > 1 AND x.a < 10] leaves low = 1
    exclusive and high = 10 exclusive for [a]. *)
Theorem buildRangeInfo_ordering_inserts_one_bound
    plan x path v op attrOnLeft enumCollVar (r : RangesInfo) :
  setByEnumerateCollection plan x = true →
  var_name x ≠ "" →
  path ≠ [] →
  isOrderingOperator op = true →
  let c := AstValue v in
  let cmp := comparison op attrOnLeft (attributeAccess x path) c in
  let b := mkBound c (includesEquality op) in
  (∃ low high,
     (buildRangeInfo plan cmp enumCollVar "" r).2
       = RangesInfo_insert (var_name x) (String.concat "." path) low high r
     ∧ (if constrainsFromBelow op attrOnLeft
        then low = Some b ∧ high = None
        else low = None ∧ high = Some b))
  ∧ (∀ a attr,
       rangeOf (var_name x) a
         (buildRangeInfo plan (betweenExclusive x a 1 10) enumCollVar attr r).2
       = Some (mkRange (Some (mkBound (AstValue (JNumber 1)) false))
                       (Some (mkBound (AstValue (JNumber 10)) false)))).
Proof.
  intros Hset Hname Hpath Hop c cmp b. split.
  - exists (orderingLow op attrOnLeft c), (orderingHigh op attrOnLeft c).
    subst cmp c. rewrite (buildRangeInfo_comparison plan op) by done.
    unfold orderingLow, orderingHigh.
    destruct op; try discriminate Hop;
      (split; [reflexivity|]); by destruct (constrainsFromBelow _ _).
  - intros a attr. rewrite buildRangeInfo_between by done.
    rewrite !rangeOf_insert. by destruct (rangeOf (var_name x) a r).
Qed.

Lemma buildRangeInfo_ordering_witness :
  (∃ low high,
     (buildRangeInfo example_plan
        (AstBinary BINARY_GE five (attributeAccess var_p ["a"; "b"])) "" "" ∅).2
       = RangesInfo_insert "p" "a.b" low high (∅ : RangesInfo)
     ∧ low = None ∧ high = Some (mkBound five true))
  ∧ (∀ a attr,
       rangeOf "p" a
         (buildRangeInfo example_plan (betweenExclusive var_p a 1 10) "" attr ∅).2
       = Some (mkRange (Some (mkBound (AstValue (JNumber 1)) false))
                       (Some (mkBound (AstValue (JNumber 10)) false)))).
Proof.
  apply (buildRangeInfo_ordering_inserts_one_bound
           example_plan var_p ["a"; "b"] (JNumber 5) BINARY_GE false "" ∅);
    [reflexivity | discriminate | discriminate | reflexivity].
Defined.

(** C5 does not hold for every attribute access: in
    [LET x = ... FILTER x.a < 5] the variable is not introduced by an
    EnumerateCollection node, [enumCollVar] stays empty and the comparison
    contributes no bound at all (no insertion leaves the accumulator
    empty). *)
Lemma buildRangeInfo_ordering_uncorrelated_no_bound :
  buildRangeInfo let_plan
    (AstBinary BINARY_LT (attributeAccess var_x ["a"]) five) "" "" ∅
  = ("", "", ∅)
  ∧ (∀ name attr low high,
       RangesInfo_insert name attr low high ∅ ≠ (∅ : RangesInfo)).
Proof.
  split; [reflexivity|]. intros. apply RangesInfo_insert_nonempty.
Qed.

(** [enumCollVar] is not reset between the operands of a conjunction: in
    [p.a > 1 AND y.b < 10], where only [p] is set by an EnumerateCollection
    node, the second comparison finds the name of [p] still in place and
    files its bound under [p], attribute [b]. *)
Example buildRangeInfo_keeps_enumCollVar_across_operands :
  rangeOf "p" "b" (buildRangeInfo mixed_plan mixed_condition "" "" ∅).2
  = Some (mkRange None (Some (mkBound (AstValue (JNumber 10)) false)))
  ∧ rangeOf "y" "b" (buildRangeInfo mixed_plan mixed_condition "" "" ∅).2 = None.
Proof. split; by vm_compute. Qed.

(** ** Loops that can fail *)

Lemma Result_bind_Ok {A B} (a : A) (k : A → Result B) : (Ok a ≫= k) = k a.
Proof. reflexivity. Qed.

Lemma foldResult_cons {St A} (step : St → A → Result St) s a (l : list A) :
  foldResult step s (a :: l) = (s' ← step s a; foldResult step s' l).
Proof. reflexivity. Qed.

Lemma foldResult_app {St A} (step : St → A → Result St) s (l1 l2 : list A) :
  foldResult step s (l1 ++ l2)
  = (s' ← foldResult step s l1; foldResult step s' l2).
Proof.
  revert s. induction l1 as [|a l1 IH]; intros s; simpl; [done|].
  destruct (step s a) as [s'|f]; simpl; [apply IH | done].
Qed.

Lemma foldResult_snoc {St A} (step : St → A → Result St) s (l : list A) a s' :
  foldResult step s l = Ok s' →
  foldResult step s (l ++ [a]) = step s' a.
Proof.
  intros H. rewrite foldResult_app, H. simpl. by destruct (step s' a).
Qed.

(** ** Filters the rule cannot decide *)

Section FilterRule.
Context (isConstant toBoolean : AstNode → bool) (canThrow : Expression → bool).

Local Abbreviation body := (removeUnnecessaryFilters_body isConstant toBoolean canThrow).
Local Abbreviation scan := (removeUnnecessaryFilters_scan isConstant toBoolean canThrow).
Local Abbreviation rule := (removeUnnecessaryFiltersRule isConstant toBoolean canThrow).

Lemma body_undecided plan toUnlink n :
  undecidedFilter isConstant plan n = true →
  body (plan, toUnlink) n = Ok (plan, toUnlink).
Proof.
  unfold undecidedFilter, removeUnnecessaryFilters_body.
  destruct (getNodeById plan n) as [N|]; [|done].
  unfold getVariablesUsedHere.
  destruct (data N) as [| | |v| | | |]; try done. simpl.
  destruct (getVarSetBy plan (var_id v)) as [setter|]; [|done].
  destruct (data setter); try done.
  intros ->. done.
Qed.

Lemma scan_all_undecided plan toUnlink nodes :
  Forall (λ n, undecidedFilter isConstant plan n = true) nodes →
  foldResult body (plan, toUnlink) nodes = Ok (plan, toUnlink).
Proof.
  induction 1 as [|n nodes Hn _ IH]; [done|].
  rewrite foldResult_cons, body_undecided by done. apply IH.
Qed.

End FilterRule.

(** C8: a filter node whose input variable has no setter, or a setter that
    is not a Calculation node, or a setter whose expression is not constant,
    is passed over by the loop of [removeUnnecessaryFiltersRule]: the
    iteration leaves the plan and the set of nodes to unlink as they are (no
    node is registered, replaced or marked), so the scan runs as if the
    node were not in the list; and a plan all of whose filters are of this
    kind comes back from the rule unchanged, with [keep = true]. *)
Theorem removeUnnecessaryFilters_leaves_undecided_filter
    isConstant toBoolean canThrow plan toUnlink n :
  undecidedFilter isConstant plan n = true →
  removeUnnecessaryFilters_body isConstant toBoolean canThrow (plan, toUnlink) n
    = Ok (plan, toUnlink)
  ∧ (∀ start before after,
       foldResult (removeUnnecessaryFilters_body isConstant toBoolean canThrow)
         start before = Ok (plan, toUnlink) →
       foldResult (removeUnnecessaryFilters_body isConstant toBoolean canThrow)
         start (before ++ n :: after)
       = foldResult (removeUnnecessaryFilters_body isConstant toBoolean canThrow)
           start (before ++ after))
  ∧ (∀ out,
       Forall (λ m, undecidedFilter isConstant plan m = true)
         (findNodesOfType plan FILTER true) →
       removeUnnecessaryFiltersRule isConstant toBoolean canThrow plan out
       = Ok (plan, out, true)).
Proof.
  intros Hn. split; [by apply body_undecided|]. split.
  - intros start before after Hbefore.
    rewrite !foldResult_app, Hbefore, !Result_bind_Ok, foldResult_cons.
    by rewrite body_undecided.
  - intros out Hall. unfold removeUnnecessaryFiltersRule,
      removeUnnecessaryFilters_scan.
    rewrite scan_all_undecided by done. rewrite Result_bind_Ok.
    by rewrite bool_decide_eq_false_2 by (intros H; by apply H).
Qed.

Lemma removeUnnecessaryFilters_undecided_witness :
  removeUnnecessaryFilters_body valueIsConstant valueToBoolean throwsUnlessConstant
    (example_plan, ∅) 4 = Ok (example_plan, ∅)
  ∧ removeUnnecessaryFiltersRule valueIsConstant valueToBoolean throwsUnlessConstant
      example_plan [] = Ok (example_plan, [], true).
Proof.
  pose proof (removeUnnecessaryFilters_leaves_undecided_filter
                valueIsConstant valueToBoolean throwsUnlessConstant
                example_plan ∅ 4 eq_refl) as (Hbody & _ & Hrule).
  split; [exact Hbody|]. apply Hrule.
  change (findNodesOfType example_plan FILTER true) with [4].
  by constructor.
Defined.

(** ** Lookups after a series of [alter]s *)

Lemma foldr_alter_lookup (f : ExecutionNode → ExecutionNode) (ps : list nat)
    (ids : gmap nat ExecutionNode) (k : nat) :
  foldr (λ p m, alter f p m) ids ps !! k
  = Nat.iter (length (filter (λ p, p = k) ps)) f <$> ids !! k.
Proof.
  induction ps as [|p ps IH]; simpl.
  - by destruct (ids !! k).
  - rewrite lookup_alter. rewrite filter_cons. case_decide as Hp.
    + subst p. rewrite IH. simpl. by destruct (ids !! k).
    + by rewrite IH.
Qed.

Lemma iter_preserves {A B} (proj : A → B) (f : A → A) j a :
  (∀ a, proj (f a) = proj a) → proj (Nat.iter j f a) = proj a.
Proof. intros Hf. induction j as [|j IH]; simpl; [done | by rewrite Hf]. Qed.

(** ** Filters with a constant condition *)

Section ConstantFilter.
Context (isConstant toBoolean : AstNode → bool) (canThrow : Expression → bool).

Local Abbreviation body := (removeUnnecessaryFilters_body isConstant toBoolean canThrow).

Lemma body_constant plan toUnlink n N expression :
  getNodeById plan n = Some N →
  constantFilterExpression isConstant plan n = Some expression →
  body (plan, toUnlink) n
  = (_ ← TRI_ASSERT (negb (canThrow expression));
     if toBoolean (node expression) then Ok (plan, {[n]} ∪ toUnlink)
     else
       _ ← TRI_ASSERT (bool_decide (length (_parents N) = 1));
       match _parents N with
       | [] => Failed AssertionFailed
       | parent0 :: _ =>
           plan' ← replaceNode n (S (_nextId plan)) parent0
                     (registerNode (new_NoResultsNode (S (_nextId plan)))
                        (nextId plan).2);
           Ok (plan', toUnlink)
       end).
Proof.
  intros HN. unfold constantFilterExpression, removeUnnecessaryFilters_body.
  rewrite HN. unfold getVariablesUsedHere.
  destruct (data N) as [| | |v| | | |]; try done.
  cbn [length]. rewrite (bool_decide_eq_true_2 (1 = 1)) by done.
  cbn [TRI_ASSERT]. rewrite Result_bind_Ok.
  destruct (getVarSetBy plan (var_id v)) as [setter|]; [|done].
  destruct (data setter) as [| | | |e ov| | |]; try done.
  destruct (isConstant (node e)) eqn:Hc; [|done].
  intros [= ->]. reflexivity.
Qed.

End ConstantFilter.

Lemma idsBounded_fresh plan i :
  idsBounded plan → _nextId plan < i → getNodeById plan i = None.
Proof.
  intros Hb Hlt. unfold getNodeById.
  destruct (_ids plan !! i) as [N|] eqn:HN; [|done].
  apply Hb in HN. simpl in HN. lia.
Qed.

Lemma idsBounded_registered plan i N :
  idsBounded plan → getNodeById plan i = Some N → i ≠ S (_nextId plan).
Proof. intros Hb HN. apply Hb in HN. simpl in HN. lia. Qed.

(** What [replaceNode] does when it goes through. *)
Lemma replaceNode_spec plan old new parent Old New Par :
  getNodeById plan old = Some Old →
  getNodeById plan new = Some New →
  getNodeById plan parent = Some Par →
  old ∈ _dependencies Par →
  new ≠ parent →
  ∃ plan',
    replaceNode old new parent plan = Ok plan'
    ∧ _nextId plan' = _nextId plan
    ∧ (∃ New', getNodeById plan' new = Some New'
               ∧ data New' = data New ∧ _id New' = _id New)
    ∧ (∃ Par', getNodeById plan' parent = Some Par'
               ∧ data Par' = data Par
               ∧ _dependencies Par' = replaceId old new (_dependencies Par)).
Proof.
  intros HO HN HP Hin Hne. unfold replaceNode. rewrite HO, HN, HP.
  rewrite bool_decide_eq_true_2 by done.
  eexists. split; [reflexivity|]. split; [reflexivity|].
  unfold getNodeById in *. cbn [_ids withIds]. split.
  - rewrite lookup_alter_ne by done.
    rewrite foldr_alter_lookup, lookup_alter_eq, HN. simpl.
    eexists. split; [reflexivity|].
    split; by rewrite iter_preserves by done.
  - rewrite lookup_alter_eq, foldr_alter_lookup, lookup_alter_ne, HP by done.
    simpl. eexists. split; [reflexivity|].
    unfold replaceDependency. cbn [data _dependencies withDependencies].
    split; by rewrite iter_preserves by done.
Qed.

(** What the loop body does with a filter that is always false. *)
Lemma body_replaces_false_filter
    isConstant toBoolean canThrow plan toUnlink n N expression :
  getNodeById plan n = Some N →
  constantFilterExpression isConstant plan n = Some expression →
  canThrow expression = false →
  toBoolean (node expression) = false →
  let body := removeUnnecessaryFilters_body isConstant toBoolean canThrow in
  let newId := (nextId plan).1 in
  let registered := registerNode (new_NoResultsNode newId) (nextId plan).2 in
  (length (_parents N) ≠ 1 → body (plan, toUnlink) n = Failed AssertionFailed)
  ∧ (∀ parent, _parents N = [parent] →
       body (plan, toUnlink) n
       = (plan' ← replaceNode n newId parent registered; Ok (plan', toUnlink))
       ∧ (∀ Par,
            idsBounded plan →
            getNodeById plan parent = Some Par →
            n ∈ _dependencies Par →
            ∃ plan',
              body (plan, toUnlink) n = Ok (plan', toUnlink)
              ∧ getNodeById plan newId = None
              ∧ (∃ NoResults,
                   getNodeById plan' newId = Some NoResults
                   ∧ data NoResults = NoResultsNode
                   ∧ _id NoResults = newId)
              ∧ (∃ Par',
                   getNodeById plan' parent = Some Par'
                   ∧ _dependencies Par'
                     = replaceId n newId (_dependencies Par)))).
Proof.
  intros HN He Hthrow Hfalse body newId registered.
  subst body registered newId. cbn [nextId fst snd].
  pose proof (body_constant isConstant toBoolean canThrow plan toUnlink n N
                expression HN He) as Hbody.
  rewrite Hthrow, Hfalse in Hbody. cbn [negb TRI_ASSERT] in Hbody.
  rewrite Result_bind_Ok in Hbody. cbn [nextId snd] in Hbody. split.
  - intros Hlen. rewrite Hbody.
    by rewrite bool_decide_eq_false_2 by done.
  - intros parent Hparents. rewrite Hparents in Hbody.
    cbn [length] in Hbody.
    rewrite (bool_decide_eq_true_2 (1 = 1)) in Hbody by done.
    cbn [TRI_ASSERT] in Hbody.
    rewrite Result_bind_Ok in Hbody. split; [exact Hbody|].
    intros Par Hb HP Hdep.
    assert (n ≠ S (_nextId plan)) as Hn by (by eapply idsBounded_registered).
    assert (parent ≠ S (_nextId plan)) as Hp by (by eapply idsBounded_registered).
    set (registered := registerNode (new_NoResultsNode (S (_nextId plan)))
                         (mkPlan (_ids plan) (_root plan) (S (_nextId plan))
                                 (_varSetBy plan))) in *.
    destruct (replaceNode_spec registered n (S (_nextId plan)) parent N
                (new_NoResultsNode (S (_nextId plan))) Par)
      as (plan' & Hrep & _ & HNR & HPar).
    + unfold getNodeById, registered. cbn [registerNode withIds _ids _id new_NoResultsNode].
      by rewrite lookup_insert_ne.
    + unfold getNodeById, registered. cbn [registerNode withIds _ids _id new_NoResultsNode].
      by rewrite lookup_insert_eq.
    + unfold getNodeById, registered. cbn [registerNode withIds _ids _id new_NoResultsNode].
      by rewrite lookup_insert_ne.
    + done.
    + done.
    + exists plan'. rewrite Hbody, Hrep.
      split; [done|]. split.
      { apply idsBounded_fresh; [done|]. lia. }
      split.
      { destruct HNR as (NR & ? & ? & ?). by exists NR. }
      { destruct HPar as (Par' & ? & _ & ?). by exists Par'. }
Qed.


Lemma idsBounded_false_plan : idsBounded false_plan.
Proof. unfold idsBounded. apply (bool_decide_unpack _). by vm_compute. Qed.


(** ** Unlinking *)

Lemma replaceId_idemp old new l :
  replaceId old new (replaceId old new l) = replaceId old new l.
Proof.
  unfold replaceId. rewrite <- list_fmap_compose. apply list_fmap_ext.
  intros _ i _. simpl. repeat case_decide; congruence.
Qed.

Lemma iter_replaceId old new j l :
  Nat.iter j (replaceId old new) l
  = if decide (j = 0) then l else replaceId old new l.
Proof.
  induction j as [|j IHj]; [done|]. simpl. rewrite IHj.
  case_decide; [done|]. apply replaceId_idemp.
Qed.

Lemma replaceId_length old new l : length (replaceId old new l) = length l.
Proof. unfold replaceId. apply length_fmap. Qed.

Lemma elem_of_replaceId_ne old new l i :
  i ≠ old → i ∈ l → i ∈ replaceId old new l.
Proof.
  intros Hne Hin. unfold replaceId. apply list_elem_of_fmap.
  exists i. split; [|done]. by rewrite decide_False.
Qed.

Lemma elem_of_replaceId_new old new l :
  old ∈ l → new ∈ replaceId old new l.
Proof.
  intros Hin. unfold replaceId. apply list_elem_of_fmap.
  exists old. split; [|done]. by rewrite decide_True.
Qed.

Lemma replaceId_singleton_ne old new d :
  d ≠ old → replaceId old new [d] = [d].
Proof. intros H. unfold replaceId. simpl. by rewrite decide_False. Qed.

Lemma filter_length_zero_iff (ps : list nat) (k : nat) :
  length (filter (λ p, p = k) ps) = 0 ↔ k ∉ ps.
Proof.
  induction ps as [|p ps IH]; simpl.
  - split; [intros _; apply not_elem_of_nil | done].
  - rewrite filter_cons. case_decide as Hp.
    + subst. simpl. split; [done|]. intros H. exfalso. apply H. left.
    + rewrite IH. rewrite not_elem_of_cons. naive_solver.
Qed.

(** What unlinking one node does to the other nodes of the plan. *)
Lemma unlinkNode_lookup plan n N d :
  getNodeById plan n = Some N →
  _dependencies N = [d] →
  ∃ plan',
    unlinkNode plan n = Ok plan'
    ∧ ∀ k K, getNodeById plan k = Some K →
        ∃ K', getNodeById plan' k = Some K'
          ∧ data K' = data K
          ∧ _dependencies K'
            = (if decide (k ∈ _parents N)
               then replaceId n d (_dependencies K) else _dependencies K)
          ∧ _parents K'
            = (if decide (k = d)
               then filter (λ p, p ≠ n) (_parents K) ++ _parents N
               else _parents K).
Proof.
  intros HN Hd. unfold unlinkNode. rewrite HN, Hd.
  eexists. split; [reflexivity|]. intros k K HK.
  unfold getNodeById in *. cbn [_ids withIds].
  set (j := length (filter (λ p, p = k) (_parents N))).
  assert (_dependencies (Nat.iter j (replaceDependency n d) K)
          = if decide (k ∈ _parents N)
            then replaceId n d (_dependencies K) else _dependencies K) as Hdeps.
  { assert (∀ i X, _dependencies (Nat.iter i (replaceDependency n d) X)
                   = Nat.iter i (replaceId n d) (_dependencies X)) as Hiter.
    { induction i as [|i IHi]; intros X; [done|]. simpl. by rewrite IHi. }
    rewrite Hiter, iter_replaceId.
    pose proof (filter_length_zero_iff (_parents N) k) as Hz. fold j in Hz.
    repeat case_decide; naive_solver. }
  assert (_parents (Nat.iter j (replaceDependency n d) K) = _parents K) as Hpar
    by (by apply iter_preserves).
  assert (data (Nat.iter j (replaceDependency n d) K) = data K) as Hdata
    by (by apply iter_preserves).
  destruct (decide (k = d)) as [->|Hne].
  - rewrite lookup_alter_eq, foldr_alter_lookup, HK. fold j. simpl.
    eexists. split; [reflexivity|].
    cbn [data _dependencies _parents withParents]. by rewrite Hpar.
  - rewrite lookup_alter_ne, foldr_alter_lookup, HK by done. fold j. simpl.
    eexists. split; [reflexivity|]. done.
Qed.

Lemma unlinkNode_singleDependency plan plan' n m :
  unlinkNode plan n = Ok plan' →
  singleDependency plan n →
  singleDependency plan m → singleDependency plan' m.
Proof.
  intros Hun (N & d & HN & Hd) (M & dm & HM & Hdm).
  destruct (unlinkNode_lookup plan n N d HN Hd) as (plan'' & Hun' & Hlook).
  rewrite Hun in Hun'. injection Hun' as <-.
  destruct (Hlook m M HM) as (M' & HM' & _ & Hdeps & _).
  rewrite Hdm in Hdeps. exists M'.
  case_decide.
  - unfold replaceId in Hdeps. simpl in Hdeps. eauto.
  - eauto.
Qed.

Section Rewire.
(** The parent [p] of the node [n], whose single dependency is [d]. *)
Context (n d p : nat).

Local Abbreviation beforeUnlink := (linkedThrough n d p).
Local Abbreviation afterUnlink := (dependsOn p d).

Lemma unlinkNodes_after l plan :
  d ∉ l →
  Forall (singleDependency plan) l →
  afterUnlink plan →
  ∃ plan', foldResult unlinkNode plan l = Ok plan' ∧ afterUnlink plan'.
Proof.
  revert plan. induction l as [|m l IH]; intros plan Hd Hsingle Hafter.
  { exists plan. done. }
  apply not_elem_of_cons in Hd as [Hdm Hd].
  apply Forall_cons in Hsingle as [Hm Hsingle].
  pose proof Hm as (M & dm & HM & Hdeps).
  destruct (unlinkNode_lookup plan m M dm HM Hdeps) as (plan1 & Hun & Hlook).
  rewrite foldResult_cons, Hun, Result_bind_Ok. apply IH; [done| |].
  - eapply Forall_impl; [exact Hsingle|]. intros m' Hm'.
    by eapply unlinkNode_singleDependency.
  - destruct Hafter as (P & HP & HdP).
    destruct (Hlook p P HP) as (P' & HP' & _ & HdP' & _).
    exists P'. split; [done|]. rewrite HdP'.
    destruct (decide (p ∈ _parents M)); [|done].
    by apply elem_of_replaceId_ne.
Qed.

Lemma unlinkNodes_rewires l plan :
  NoDup l → n ∈ l → d ∉ l → p ∉ l →
  Forall (singleDependency plan) l →
  beforeUnlink plan →
  ∃ plan', foldResult unlinkNode plan l = Ok plan' ∧ afterUnlink plan'.
Proof.
  revert plan.
  induction l as [|m l IH]; intros plan Hnodup Hn Hd Hp Hsingle Hbefore.
  { by apply elem_of_nil in Hn. }
  apply NoDup_cons in Hnodup as [Hml Hnodup].
  apply not_elem_of_cons in Hd as [Hdm Hd].
  apply not_elem_of_cons in Hp as [Hpm Hp].
  apply Forall_cons in Hsingle as [Hm Hsingle].
  pose proof Hm as (M & dm & HM & Hdeps).
  destruct (unlinkNode_lookup plan m M dm HM Hdeps) as (plan1 & Hun & Hlook).
  rewrite foldResult_cons, Hun, Result_bind_Ok.
  assert (Forall (singleDependency plan1) l) as Hsingle1.
  { eapply Forall_impl; [exact Hsingle|]. intros m' Hm'.
    by eapply unlinkNode_singleDependency. }
  destruct Hbefore as ((N & HN & HNd & HNp) & (P & HP & HPn)).
  destruct (Hlook p P HP) as (P' & HP' & _ & HdP' & _).
  destruct (decide (m = n)) as [->|Hmn].
  - (* the turn of [n] itself *)
    rewrite HN in HM. injection HM as <-.
    rewrite HNd in Hdeps. injection Hdeps as <-.
    apply unlinkNodes_after; [done..|].
    exists P'. split; [done|]. rewrite HdP'.
    rewrite decide_True by done. by apply elem_of_replaceId_new.
  - (* another node of the batch *)
    apply elem_of_cons in Hn as [->|Hn]; [done|].
    apply IH; [done..|].
    destruct (Hlook n N HN) as (N' & HN' & _ & HdN' & HpN').
    split.
    + exists N'. split; [done|]. split.
      * rewrite HdN', HNd. destruct (decide (n ∈ _parents M)); [|done].
        by apply replaceId_singleton_ne.
      * rewrite HpN'. destruct (decide (n = dm)); [|done].
        apply elem_of_app. left. apply list_elem_of_filter. done.
    + exists P'. split; [done|]. rewrite HdP'.
      destruct (decide (p ∈ _parents M)); [|done].
      by apply elem_of_replaceId_ne.
Qed.

End Rewire.

(** ** Filters that are always true *)

Section TrueFilter.
Context (isConstant toBoolean : AstNode → bool) (canThrow : Expression → bool).

Local Abbreviation body := (removeUnnecessaryFilters_body isConstant toBoolean canThrow).

Lemma body_toUnlink_mono plan toUnlink n plan' toUnlink' :
  body (plan, toUnlink) n = Ok (plan', toUnlink') → toUnlink ⊆ toUnlink'.
Proof.
  unfold removeUnnecessaryFilters_body, TRI_ASSERT, mbind, Result_bind.
  intros H. repeat case_match; simplify_eq; set_solver.
Qed.

Lemma scan_toUnlink_mono nodes plan toUnlink plan' toUnlink' :
  foldResult body (plan, toUnlink) nodes = Ok (plan', toUnlink') →
  toUnlink ⊆ toUnlink'.
Proof.
  revert plan toUnlink. induction nodes as [|n nodes IH]; intros plan u.
  - simpl. intros [= <- <-]. done.
  - rewrite foldResult_cons.
    destruct (body (plan, u) n) as [[plan1 u1]|f] eqn:Hbody; [|done].
    rewrite Result_bind_Ok. intros Hrest.
    apply body_toUnlink_mono in Hbody. apply IH in Hrest. set_solver.
Qed.

End TrueFilter.

Lemma unlinkNodes_total l plan :
  Forall (singleDependency plan) l →
  ∃ plan', foldResult unlinkNode plan l = Ok plan'.
Proof.
  revert plan. induction l as [|m l IH]; intros plan Hsingle.
  { by exists plan. }
  apply Forall_cons in Hsingle as [Hm Hsingle].
  pose proof Hm as (M & dm & HM & Hdeps).
  destruct (unlinkNode_lookup plan m M dm HM Hdeps) as (plan1 & Hun & _).
  rewrite foldResult_cons, Hun, Result_bind_Ok. apply IH.
  eapply Forall_impl; [exact Hsingle|]. intros m' Hm'.
  by eapply unlinkNode_singleDependency.
Qed.

Lemma unlinkNodes_rewires_parent toUnlink plan n d p :
  n ∈ toUnlink → d ∉ toUnlink → p ∉ toUnlink →
  (∀ m, m ∈ toUnlink → singleDependency plan m) →
  linkedThrough n d p plan →
  ∃ plan', unlinkNodes toUnlink plan = Ok plan' ∧ dependsOn p d plan'.
Proof.
  intros Hn Hd Hp Hsingle Hlinked. unfold unlinkNodes.
  apply (unlinkNodes_rewires n d p).
  - apply NoDup_elements.
  - by apply elem_of_elements.
  - by rewrite elem_of_elements.
  - by rewrite elem_of_elements.
  - apply Forall_forall. intros m Hm. apply Hsingle. by apply elem_of_elements.
  - done.
Qed.

(** C2, as the code has it: when the scan of [removeUnnecessaryFiltersRule]
    reaches a filter node whose input variable is set by a Calculation node
    with a constant expression that evaluates to true, the iteration marks
    the filter for unlinking and leaves the plan alone; the filter is still
    marked when the scan ends, and the rule then unlinks all marked nodes in
    one [unlinkNodes] call.  Afterwards a former parent of the filter
    depends directly on the filter's single dependency, provided neither
    that parent nor that dependency is itself unlinked in the same batch. *)
Theorem removeUnnecessaryFilters_unlinks_true_filter
    isConstant toBoolean canThrow plan out
    before n after plan1 marked N expression plan2 toUnlink :
  let body := removeUnnecessaryFilters_body isConstant toBoolean canThrow in
  findNodesOfType plan FILTER true = before ++ n :: after →
  foldResult body (plan, ∅) before = Ok (plan1, marked) →
  getNodeById plan1 n = Some N →
  constantFilterExpression isConstant plan1 n = Some expression →
  canThrow expression = false →
  toBoolean (node expression) = true →
  foldResult body (plan1, {[n]} ∪ marked) after = Ok (plan2, toUnlink) →
  (∀ m, m ∈ toUnlink → singleDependency plan2 m) →
  body (plan1, marked) n = Ok (plan1, {[n]} ∪ marked)
  ∧ removeUnnecessaryFilters_scan isConstant toBoolean canThrow plan
      (findNodesOfType plan FILTER true) = Ok (plan2, toUnlink)
  ∧ n ∈ toUnlink
  ∧ ∃ plan',
      unlinkNodes toUnlink plan2 = Ok plan'
      ∧ removeUnnecessaryFiltersRule isConstant toBoolean canThrow plan out
        = Ok (plan', out, true)
      ∧ ∀ d p,
          linkedThrough n d p plan2 → d ∉ toUnlink → p ∉ toUnlink →
          dependsOn p d plan'.
Proof.
  intros body Hnodes Hbefore HN He Hthrow Htrue Hafter Hsingle. subst body.
  assert (removeUnnecessaryFilters_body isConstant toBoolean canThrow
            (plan1, marked) n = Ok (plan1, {[n]} ∪ marked)) as Hbody.
  { rewrite (body_constant _ _ _ _ _ _ N expression) by done.
    by rewrite Hthrow, Htrue. }
  assert (n ∈ toUnlink) as Hn.
  { apply scan_toUnlink_mono in Hafter. set_solver. }
  assert (removeUnnecessaryFilters_scan isConstant toBoolean canThrow plan
            (findNodesOfType plan FILTER true) = Ok (plan2, toUnlink)) as Hscan.
  { unfold removeUnnecessaryFilters_scan.
    rewrite Hnodes, foldResult_app, Hbefore, Result_bind_Ok, foldResult_cons.
    by rewrite Hbody, Result_bind_Ok. }
  do 3 (split; [done|]).
  assert (∃ plan', unlinkNodes toUnlink plan2 = Ok plan') as [plan' Hunlink].
  { apply unlinkNodes_total. apply Forall_forall. intros m Hm.
    apply Hsingle. by apply elem_of_elements. }
  exists plan'. split; [done|]. split.
  - unfold removeUnnecessaryFiltersRule. rewrite Hscan, Result_bind_Ok.
    rewrite bool_decide_eq_true_2 by set_solver.
    by rewrite Hunlink.
  - intros d p Hlinked Hd Hp.
    destruct (unlinkNodes_rewires_parent toUnlink plan2 n d p)
      as (plan'' & Hunlink' & Hdep); [done..|].
    rewrite Hunlink in Hunlink'. by injection Hunlink' as <-.
Qed.

Lemma removeUnnecessaryFilters_true_witness :
  removeUnnecessaryFilters_body valueIsConstant valueToBoolean throwsUnlessConstant
    (true_plan, ∅) 4 = Ok (true_plan, {[4]} ∪ ∅)
  ∧ ∃ plan',
      removeUnnecessaryFiltersRule valueIsConstant valueToBoolean
        throwsUnlessConstant true_plan [] = Ok (plan', [], true)
      ∧ dependsOn 5 3 plan'.
Proof.
  destruct (removeUnnecessaryFilters_unlinks_true_filter
              valueIsConstant valueToBoolean throwsUnlessConstant true_plan []
              [] 4 [] true_plan ∅ (mkNode 4 (FilterNode var_t) [3] [5] ∅)
              (mkExpression (AstValue (JBool true))) true_plan ({[4]} ∪ ∅)
              eq_refl eq_refl eq_refl eq_refl eq_refl eq_refl eq_refl)
    as (Hbody & _ & _ & plan' & _ & Hrule & Hdep).
  - intros m Hm. assert (m = 4) as -> by set_solver.
    by exists (mkNode 4 (FilterNode var_t) [3] [5] ∅), 3.
  - split; [exact Hbody|]. exists plan'. split; [exact Hrule|].
    apply Hdep.
    + split.
      * exists (mkNode 4 (FilterNode var_t) [3] [5] ∅).
        split; [done|]. split; [done|]. apply list_elem_of_here.
      * exists (mkNode 5 (ReturnNode var_p) [4] [] ∅).
        split; [done|]. apply list_elem_of_here.
    + set_solver.
    + set_solver.
Defined.

(** C2 does not hold for every such filter: in
    [LET t = true FILTER t FILTER t] both filters are marked and unlinked
    in the same batch.  The second filter (4) has the single dependency 3
    and the single parent 5; after the rule the Return node 5 depends on
    the Calculation node 2, not on the first filter 3, which was the second
    filter's single dependency.  The first filter (3) has the single
    dependency 2 and the single parent 4; that parent is unlinked itself
    and is left with its dependency on 3. *)
Lemma removeUnnecessaryFilters_adjacent_filters :
  dependenciesOf (Some adjacent_plan) 4 = Some [3]
  ∧ (_parents <$> getNodeById adjacent_plan 4) = Some [5]
  ∧ dependenciesOf (Some adjacent_plan) 3 = Some [2]
  ∧ (_parents <$> getNodeById adjacent_plan 3) = Some [4]
  ∧ removeUnnecessaryFilters_scan valueIsConstant valueToBoolean
      throwsUnlessConstant adjacent_plan
      (findNodesOfType adjacent_plan FILTER true)
    = Ok (adjacent_plan, {[3; 4]})
  ∧ dependenciesOf
      (planOf (removeUnnecessaryFiltersRule valueIsConstant valueToBoolean
                 throwsUnlessConstant adjacent_plan [])) 5
    = Some [2]
  ∧ dependenciesOf
      (planOf (removeUnnecessaryFiltersRule valueIsConstant valueToBoolean
                 throwsUnlessConstant adjacent_plan [])) 4
    = Some [3].
Proof. repeat split; by vm_compute. Qed.

(** The rule on the two plans of the examples: [FILTER true] goes away and
    the Return node (5) depends on the Calculation node (3); [FILTER false]
    gives way to the NoResults node (6), which takes the filter's place
    between the Return node and the Calculation node. *)
Example removeUnnecessaryFilters_true_plan :
  dependenciesOf
    (planOf (removeUnnecessaryFiltersRule valueIsConstant valueToBoolean
               throwsUnlessConstant true_plan [])) 5 = Some [3].
Proof. by vm_compute. Qed.

Example removeUnnecessaryFilters_false_plan :
  let after := planOf (removeUnnecessaryFiltersRule valueIsConstant valueToBoolean
                         throwsUnlessConstant false_plan []) in
  dependenciesOf after 5 = Some [6] ∧ dependenciesOf after 6 = Some [3].
Proof. by vm_compute. Qed.
(** ** Calculations that are never needed *)

Lemma findNodes_registered fuel plan t recursive root id :
  id ∈ findNodes fuel plan t recursive root →
  ∃ N, getNodeById plan id = Some N ∧ getType N = t.
Proof.
  revert root. induction fuel as [|fuel IH]; intros root; simpl.
  { intros H. by apply elem_of_nil in H. }
  destruct (getNodeById plan root) as [R|] eqn:HR.
  2: { intros H. by apply elem_of_nil in H. }
  assert (id ∈ flat_map (findNodes fuel plan t recursive) (_dependencies R) →
          ∃ N, getNodeById plan id = Some N ∧ getType N = t) as Hbelow.
  { intros H. apply list_elem_of_In, in_flat_map in H as (d & _ & Hd).
    apply list_elem_of_In in Hd. by eapply IH. }
  case_bool_decide as Ht; [|done].
  intros [->|H]%elem_of_cons; [by exists R|].
  destruct recursive; [by apply Hbelow|]. by apply elem_of_nil in H.
Qed.

Section CalculationRule.
Context (canThrow : Expression → bool).

Local Abbreviation body := (removeUnnecessaryCalculations_body canThrow).

Lemma calculations_body_spec plan toUnlink n N :
  getNodeById plan n = Some N →
  getType N = CALCULATION →
  body plan toUnlink n
  = Ok (if deadCalculation canThrow plan n then {[n]} ∪ toUnlink else toUnlink).
Proof.
  intros HN Hty. unfold removeUnnecessaryCalculations_body, deadCalculation.
  rewrite HN. unfold getType in Hty. unfold getVariablesSetHere.
  destruct (data N) as [| | | |e v| | |]; try done.
  destruct (canThrow e); [done|]. cbn [length negb andb].
  rewrite (bool_decide_eq_true_2 (1 = 1)) by done.
  cbn [TRI_ASSERT]. rewrite Result_bind_Ok.
  by case_bool_decide.
Qed.

Lemma calculations_scan_spec plan nodes toUnlink :
  (∀ n, n ∈ nodes → ∃ N, getNodeById plan n = Some N ∧ getType N = CALCULATION) →
  ∃ toUnlink',
    foldResult (body plan) toUnlink nodes = Ok toUnlink'
    ∧ ∀ n, n ∈ toUnlink'
           ↔ n ∈ toUnlink ∨ (n ∈ nodes ∧ deadCalculation canThrow plan n = true).
Proof.
  revert toUnlink. induction nodes as [|m nodes IH]; intros u Hnodes.
  { exists u. split; [done|]. intros n. rewrite elem_of_nil. naive_solver. }
  destruct (Hnodes m) as (M & HM & Hty); [left|].
  rewrite foldResult_cons, (calculations_body_spec plan u m M) by done.
  rewrite Result_bind_Ok.
  destruct (IH (if deadCalculation canThrow plan m then {[m]} ∪ u else u))
    as (u' & Hfold & Hu').
  { intros n Hn. apply Hnodes. by right. }
  exists u'. split; [done|]. intros n. rewrite Hu', elem_of_cons.
  destruct (deadCalculation canThrow plan m) eqn:Hdead.
  - rewrite elem_of_union, elem_of_singleton. split.
    + intros [[->|H]|[H1 H2]]; [right; split; [by left|done] | by left |].
      right. split; [by right|done].
    + intros [H|[[->|H1] H2]]; [left; by right | left; by left |].
      right. done.
  - split.
    + intros [H|[H1 H2]]; [by left|]. right. split; [by right|done].
    + intros [H|[[->|H1] H2]]; [by left | congruence | by right].
Qed.

End CalculationRule.

(** C4: for a Calculation node of the plan, [removeUnnecessaryCalculationsRule]
    puts the node into the set it hands to [unlinkNodes] if and only if the
    node's expression cannot throw and its output variable is not in the
    node's set of variables used later; in particular a node whose
    expression can throw is never in that set.  The one [unlinkNodes] call
    happens after the scan, and a node that is not in the set is still a
    dependency of whoever depended on it when the rule returns. *)
Theorem removeUnnecessaryCalculations_unlinks_iff_dead
    canThrow plan out n N expression outVariable :
  n ∈ findNodesOfType plan CALCULATION true →
  getNodeById plan n = Some N →
  data N = CalculationNode expression outVariable →
  ∃ toUnlink,
    removeUnnecessaryCalculations_scan canThrow plan
      (findNodesOfType plan CALCULATION true) = Ok toUnlink
    ∧ (n ∈ toUnlink
       ↔ canThrow expression = false
         ∧ var_id outVariable ∉ getVarsUsedLater N)
    ∧ (canThrow expression = true → n ∉ toUnlink)
    ∧ removeUnnecessaryCalculationsRule canThrow plan out
      = (plan' ← (if bool_decide (toUnlink ≠ ∅)
                  then unlinkNodes toUnlink plan else Ok plan);
         Ok (plan', out, true))
    ∧ ((∀ m, m ∈ toUnlink → singleDependency plan m) →
       ∃ plan',
         removeUnnecessaryCalculationsRule canThrow plan out = Ok (plan', out, true)
         ∧ (n ∉ toUnlink → ∀ p, dependsOn p n plan → dependsOn p n plan')).
Proof.
  intros Hn HN Hdata.
  destruct (calculations_scan_spec canThrow plan
              (findNodesOfType plan CALCULATION true) ∅)
    as (toUnlink & Hscan & Hin).
  { intros m Hm. by eapply findNodes_registered. }
  assert (n ∈ toUnlink
          ↔ canThrow expression = false
            ∧ var_id outVariable ∉ getVarsUsedLater N) as Hiff.
  { rewrite Hin. unfold deadCalculation. rewrite HN, Hdata.
    rewrite andb_true_iff, negb_true_iff, bool_decide_eq_true.
    split; [|naive_solver]. intros [H|[_ H]]; [|done]. by apply elem_of_empty in H. }
  assert (removeUnnecessaryCalculationsRule canThrow plan out
          = (plan' ← (if bool_decide (toUnlink ≠ ∅)
                      then unlinkNodes toUnlink plan else Ok plan);
             Ok (plan', out, true))) as Hrule.
  { unfold removeUnnecessaryCalculationsRule,
      removeUnnecessaryCalculations_scan in *.
    by rewrite Hscan, Result_bind_Ok. }
  exists toUnlink. split; [done|]. split; [done|]. split.
  { intros Hthrow. rewrite Hiff. rewrite Hthrow. naive_solver. }
  split; [done|].
  intros Hsingle. rewrite Hrule. case_bool_decide as Hne.
  - destruct (unlinkNodes_total (elements toUnlink) plan) as (plan' & Hun).
    { apply Forall_forall. intros m Hm. apply Hsingle. by apply elem_of_elements. }
    exists plan'. unfold unlinkNodes at 1. rewrite Hun. split; [done|].
    intros Hnot p Hdep.
    destruct (unlinkNodes_after n p (elements toUnlink) plan)
      as (plan'' & Hun' & Hdep').
    + by rewrite elem_of_elements.
    + apply Forall_forall. intros m Hm. apply Hsingle. by apply elem_of_elements.
    + done.
    + rewrite Hun in Hun'. by injection Hun' as <-.
  - exists plan. split; [done|]. done.
Qed.

Lemma removeUnnecessaryCalculations_witness :
  ∃ toUnlink,
    removeUnnecessaryCalculations_scan callsCanThrow unused_plan
      (findNodesOfType unused_plan CALCULATION true) = Ok toUnlink
    ∧ (3 ∈ toUnlink
       ↔ callsCanThrow (mkExpression (attributeAccess var_p ["a"])) = false
         ∧ var_id var_u ∉ ({[0]} : gset nat))
    ∧ 4 ∉ toUnlink.
Proof.
  destruct (removeUnnecessaryCalculations_unlinks_iff_dead callsCanThrow
              unused_plan [] 3
              (mkNode 3 (CalculationNode
                           (mkExpression (attributeAccess var_p ["a"])) var_u)
                 [2] [4] {[0]})
              (mkExpression (attributeAccess var_p ["a"])) var_u)
    as (toUnlink & Hscan & Hiff & _); [change (3 ∈ [4; 3]); set_solver | done | done |].
  exists toUnlink. split; [exact Hscan|]. split; [exact Hiff|].
  vm_compute in Hscan. injection Hscan as <-. by vm_compute.
Defined.

(** The rule on the example: the calculation of [u] (3) is unlinked, the
    one of [w] (4), which can throw, stays and now depends on the
    EnumerateCollection node (2). *)
Example removeUnnecessaryCalculations_unused_plan :
  let after := planOf (removeUnnecessaryCalculationsRule callsCanThrow
                         unused_plan []) in
  dependenciesOf after 5 = Some [4] ∧ dependenciesOf after 4 = Some [2].
Proof. by vm_compute. Qed.

(** ** Exceptions while an index is substituted *)

(** C7: when, in the loop of [before] over the candidate indexes, the clone
    has been made and the construction of the IndexRange node or its
    registration throws, the exception propagates and leaves the finder as
    it was (nothing is appended to its output list) and the heap with the
    same plans and the same unowned nodes as before the iteration: the
    clone and the node are deleted, the original plan is the object it
    was. *)
Theorem substituteIndex_exception_discards_clone
    clone node vocbase collection outVariable rangeInfo idx f m original :
  plans m !! _plan f = Some original →
  heapFresh m →
  throwsInNodeSetup m →
  ∃ e m',
    run (substituteIndex clone node vocbase collection outVariable rangeInfo idx)
        (f, m) = (Thrown e, (f, m'))
    ∧ plans m' = plans m
    ∧ looseNodes m' = looseNodes m
    ∧ plans m' !! _plan f = Some original
    ∧ plans m' !! nextAddress m = None.
Proof.
  intros Horig Hfresh (rest & [Hfaults|Hfaults]).
  - (* the construction of the node throws: [newNode] is still null *)
    destruct m as [ps ns next fs]. simpl in Horig, Hfaults. subst fs.
    destruct (Hfresh next) as [Hp Hn]; [done|]. simpl in Hp, Hn.
    unfold substituteIndex. cbn. rewrite Horig. cbn.
    rewrite lookup_insert_eq. cbn.
    eexists _, _. split; [reflexivity|]. cbn.
    rewrite insert_insert_eq, delete_insert_id by done. done.
  - (* the registration throws: the node exists and is deleted as well *)
    destruct m as [ps ns next fs]. simpl in Horig, Hfaults. subst fs.
    destruct (Hfresh next) as [Hp _]; [done|].
    destruct (Hfresh (S next)) as [_ Hn]; [simpl; lia|]. simpl in Hp, Hn.
    unfold substituteIndex. cbn. rewrite Horig. cbn.
    rewrite lookup_insert_eq. cbn.
    eexists _, _. split; [reflexivity|]. cbn.
    rewrite insert_insert_eq, !delete_insert_id by done. done.
Qed.

Lemma heapFresh_throwing_memory : heapFresh throwing_memory.
Proof.
  intros a Ha. simpl in *. split; [|apply lookup_empty].
  apply lookup_singleton_ne. lia.
Qed.

Lemma substituteIndex_exception_witness :
  ∃ e m',
    run (substituteIndex cloneKeepingIds example_enumerate "_system" "coll" var_p
           [mkRange (Some (mkBound five true)) (Some (mkBound five true))] index_a)
        (example_finder, throwing_memory) = (Thrown e, (example_finder, m'))
    ∧ plans m' = plans throwing_memory
    ∧ looseNodes m' = looseNodes throwing_memory
    ∧ plans m' !! 0 = Some example_plan
    ∧ plans m' !! 1 = None.
Proof.
  apply (substituteIndex_exception_discards_clone cloneKeepingIds
           example_enumerate "_system" "coll" var_p
           [mkRange (Some (mkBound five true)) (Some (mkBound five true))]
           index_a example_finder throwing_memory example_plan).
  - reflexivity.
  - exact heapFresh_throwing_memory.
  - exists []. by left.
Defined.

(** ** The plans [useIndexRange] produces *)

Lemma run_bind {St A B} (c : Prog St A) (k : A → Prog St B) s :
  run (c ≫= k) s
  = match run c s with
    | (Returned a, s') => run (k a) s'
    | (Thrown e, s') => (Thrown e, s')
    | (Aborted f, s') => (Aborted f, s')
    end.
Proof. reflexivity. Qed.

(** The list [out] of the caller comes back as it went in. *)
Lemma useIndexRange_out_unchanged getIndexes clone plan out m out' keep m' :
  run (useIndexRange getIndexes clone plan out) m = (Returned (out', keep), m') →
  out' = out ∧ keep = true.
Proof.
  unfold useIndexRange. rewrite run_bind.
  destruct (run (loadPlan plan) m) as [[p|e|f] m0]; [|done..].
  rewrite run_bind.
  match goal with
  | |- context [run ?c m0] => destruct (run c m0) as [[[]|e|f] m1]; [|done..]
  end.
  cbn. by intros [= <- <- _].
Qed.

(** C1 on the plan of the spec, Singleton → EnumerateCollection →
    Calculation([p.a == 5]) → Filter → Return, with one index on [a]: the
    walk that starts at the filter clones the plan (the clone lives at
    address 1), splices an IndexRange node (6) with the bounds [5, 5] in
    place of the EnumerateCollection node under the Calculation node (3)
    and appends the clone to the finder's own list [_out]; the list [out]
    of the optimizer still is empty when [useIndexRange] returns, with
    [keep = true], so that the original plan is the only candidate.
    Whatever the plan, the catalog and the clone, [useIndexRange] returns
    the list [out] it was given. *)
Theorem useIndexRange_example_loses_the_clone :
  (∃ finder m,
     run (useIndexRange_walk example_getIndexes cloneKeepingIds 0 [] 4)
         example_memory = (Returned finder, m)
     ∧ _out finder = [1]
     ∧ dependenciesOf (plans m !! 1) 3 = Some [6]
     ∧ (data <$> (plans m !! 1 ≫= λ p, getNodeById p 6))
       = Some (IndexRangeNode "_system" "coll" var_p index_a
                 [mkRange (Some (mkBound five true)) (Some (mkBound five true))]))
  ∧ (∃ m,
       run (useIndexRange example_getIndexes cloneKeepingIds 0 []) example_memory
       = (Returned ([], true), m)
       ∧ plans m !! 0 = Some example_plan
       ∧ candidatesAfter 0 ([], true) = [0])
  ∧ (∀ getIndexes clone plan out m out' keep m',
       run (useIndexRange getIndexes clone plan out) m
       = (Returned (out', keep), m') →
       out' = out ∧ keep = true).
Proof.
  split; [|split].
  - destruct (run (useIndexRange_walk example_getIndexes cloneKeepingIds 0 [] 4)
                example_memory) as [o m] eqn:Hrun.
    vm_compute in Hrun. destruct o as [finder| |]; try discriminate Hrun.
    exists finder, m. split; [done|].
    injection Hrun as <- <-. by vm_compute.
  - destruct (run (useIndexRange example_getIndexes cloneKeepingIds 0 [])
                example_memory) as [o m] eqn:Hrun.
    vm_compute in Hrun. injection Hrun as <- <-.
    eexists. split; [reflexivity|]. by vm_compute.
  - intros. by eapply useIndexRange_out_unchanged.
Qed.

(** ** What [buildRangeInfo] collects, and what it does not *)

Lemma rangeNames_insert name attr low high (r : RangesInfo) :
  rangeNames (RangesInfo_insert name attr low high r) = {[name]} ∪ rangeNames r.
Proof. unfold rangeNames, RangesInfo_insert. by rewrite dom_insert_L. Qed.

(** X1: [buildRangeInfo] treats a comparison with the constant on the left
    exactly like the mirrored comparison with the constant on the right:
    [c op a] and [a op' c], where [op'] is [op] read from the other side
    ([<] for [>], [<=] for [>=], [==] for itself), give the same
    [enumCollVar], the same [attr] and the same ranges.  This holds for
    every operator but AND, whose operands are visited in order. *)
Theorem buildRangeInfo_mirrored plan op access c enumCollVar attr (r : RangesInfo) :
  type access = NODE_TYPE_ATTRIBUTE_ACCESS →
  type c = NODE_TYPE_VALUE →
  op ≠ BINARY_AND →
  buildRangeInfo plan (AstBinary op c access) enumCollVar attr r
  = buildRangeInfo plan (AstBinary (mirrored op) access c) enumCollVar attr r.
Proof.
  intros Haccess Hc Hop.
  destruct access as [| | |[]|]; try discriminate Haccess.
  destruct c as [| | |[]|]; try discriminate Hc.
  by destruct op.
Qed.

Lemma buildRangeInfo_mirrored_witness :
  buildRangeInfo example_plan
    (AstBinary BINARY_LE five (attributeAccess var_p ["a"])) "" "" ∅
  = buildRangeInfo example_plan
      (AstBinary BINARY_GE (attributeAccess var_p ["a"]) five) "" "" ∅.
Proof.
  by apply (buildRangeInfo_mirrored example_plan BINARY_LE
              (attributeAccess var_p ["a"]) five "" "" ∅).
Defined.

(** X2: [buildRangeInfo] returns [enumCollVar], [attr] and the ranges as it
    got them on every node that none of its cases applies to: a value, a
    function call, a disjunction, an inequality [!=], an arithmetic
    operator, and an equality or ordering comparison that does not have an
    attribute access on one side and a value node on the other (a join
    [x.a == y.b], a comparison of the variable itself [x == 5], a
    comparison of two constants). *)
Theorem buildRangeInfo_no_case plan node enumCollVar attr (r : RangesInfo) :
  hasRangeCase node = false →
  buildRangeInfo plan node enumCollVar attr r = (enumCollVar, attr, r).
Proof.
  destruct node as [x|a member0|v|op lhs rhs|fname args]; try done.
  destruct op; try done; simpl; intros H.
  all: repeat match goal with
       | |- context [bool_decide ?P && bool_decide ?Q] =>
           destruct (bool_decide P && bool_decide Q); try done
       end.
Qed.

Lemma buildRangeInfo_no_case_witness :
  buildRangeInfo example_plan
    (AstBinary BINARY_OR example_condition example_condition) "" "" ∅
  = ("", "", ∅).
Proof.
  by apply (buildRangeInfo_no_case example_plan
              (AstBinary BINARY_OR example_condition example_condition) "" "" ∅).
Defined.

(** An attribute access on any variable: the name of the variable replaces
    [enumCollVar] when an EnumerateCollection node sets it, and the path is
    appended to [attr] when [enumCollVar] then is not empty. *)
Lemma buildRangeInfo_attributeAccess_any plan x path enumCollVar attr
    (r : RangesInfo) :
  let e := if setByEnumerateCollection plan x then var_name x else enumCollVar in
  buildRangeInfo plan (attributeAccess x path) enumCollVar attr r
  = (e, if string_empty e then attr else appendPath attr path, r).
Proof.
  intros e. induction path as [|a path IH] using rev_ind.
  - simpl. subst e. unfold setByEnumerateCollection.
    destruct (getVarSetBy plan (var_id x)) as [setter|].
    + destruct (bool_decide (getType setter = ENUMERATE_COLLECTION));
        by destruct (string_empty _).
    + by destruct (string_empty _).
  - unfold attributeAccess. rewrite foldl_app. simpl.
    fold (attributeAccess x path). rewrite IH.
    destruct (string_empty e); simpl; [done|].
    by rewrite appendPath_snoc.
Qed.

Lemma buildRangeInfo_comparison_any plan op attrOnLeft x path v enumCollVar
    (r : RangesInfo) :
  isComparisonOperator op = true →
  path ≠ [] →
  let e := if setByEnumerateCollection plan x then var_name x else enumCollVar in
  buildRangeInfo plan
    (comparison op attrOnLeft (attributeAccess x path) (AstValue v))
    enumCollVar "" r
  = if string_empty e then (e, "", r)
    else (e, appendPath "" path,
          RangesInfo_insert e (String.concat "." path)
            (comparisonLow op attrOnLeft (AstValue v))
            (comparisonHigh op attrOnLeft (AstValue v)) r).
Proof.
  intros Hop Hpath e.
  pose proof (type_attributeAccess x path Hpath) as Hty.
  pose proof (buildRangeInfo_attributeAccess_any plan x path enumCollVar "" r)
    as Hacc.
  fold e in Hacc. cbv zeta in Hacc.
  destruct op, attrOnLeft; try discriminate Hop;
    unfold comparison; cbn [buildRangeInfo binary_type type isOrdering];
    rewrite ?Hty; cbn [bool_decide decide_rel andb orb]; simpl;
    rewrite ?Hacc; unfold insertIfCorrelated;
    destruct (string_empty e); cbn [negb]; try reflexivity;
    rewrite ?dropLastChar_appendPath by done; reflexivity.
Qed.

(** X3: [enumCollVar] is not reset between the operands of a conjunction.
    In [x.p op1 v AND y.q op2 w], where [x] is set by an EnumerateCollection
    node and [y] is not, the bound of the second comparison is filed under
    the name of [x] (attribute [q]), on top of the bound of the first; with
    the operands the other way round only the bound on [x.p] is filed.  The
    ranges a conjunction gives therefore depend on the order of its
    operands. *)
Theorem buildRangeInfo_conjunction_keeps_variable
    plan x p op1 side1 v y q op2 side2 w attr (r : RangesInfo) :
  setByEnumerateCollection plan x = true →
  var_name x ≠ "" →
  setByEnumerateCollection plan y = false →
  p ≠ [] → q ≠ [] →
  isComparisonOperator op1 = true →
  isComparisonOperator op2 = true →
  let onX := comparison op1 side1 (attributeAccess x p) (AstValue v) in
  let onY := comparison op2 side2 (attributeAccess y q) (AstValue w) in
  let fromX :=
    RangesInfo_insert (var_name x) (String.concat "." p)
      (comparisonLow op1 side1 (AstValue v))
      (comparisonHigh op1 side1 (AstValue v)) r in
  (buildRangeInfo plan (AstBinary BINARY_AND onX onY) "" attr r).2
  = RangesInfo_insert (var_name x) (String.concat "." q)
      (comparisonLow op2 side2 (AstValue w))
      (comparisonHigh op2 side2 (AstValue w)) fromX
  ∧ (buildRangeInfo plan (AstBinary BINARY_AND onY onX) "" attr r).2 = fromX.
Proof.
  intros Hx Hname Hy Hp Hq Hop1 Hop2 onX onY fromX.
  rewrite !buildRangeInfo_and. subst onX onY.
  split.
  - rewrite (buildRangeInfo_comparison_any plan op1 side1 x p v "" r Hop1 Hp).
    rewrite Hx. cbv zeta. rewrite string_empty_false by done.
    rewrite (buildRangeInfo_comparison_any plan op2 side2 y q w _ _ Hop2 Hq).
    rewrite Hy. cbv zeta. by rewrite string_empty_false by done.
  - rewrite (buildRangeInfo_comparison_any plan op2 side2 y q w "" r Hop2 Hq).
    rewrite Hy. cbv zeta. rewrite string_empty_true.
    rewrite (buildRangeInfo_comparison_any plan op1 side1 x p v "" r Hop1 Hp).
    rewrite Hx. cbv zeta. by rewrite string_empty_false by done.
Qed.

Lemma buildRangeInfo_conjunction_witness :
  (buildRangeInfo mixed_plan mixed_condition "" "" ∅).2
  = RangesInfo_insert "p" "b" None (Some (mkBound (AstValue (JNumber 10)) false))
      (RangesInfo_insert "p" "a" (Some (mkBound (AstValue (JNumber 1)) false))
         None ∅)
  ∧ (buildRangeInfo mixed_plan
       (AstBinary BINARY_AND
          (AstBinary BINARY_LT (attributeAccess var_y ["b"]) (AstValue (JNumber 10)))
          (AstBinary BINARY_GT (attributeAccess var_p ["a"]) (AstValue (JNumber 1))))
       "" "" ∅).2
    = RangesInfo_insert "p" "a" (Some (mkBound (AstValue (JNumber 1)) false))
        None ∅.
Proof.
  by apply (buildRangeInfo_conjunction_keeps_variable mixed_plan
              var_p ["a"] BINARY_GT true (JNumber 1)
              var_y ["b"] BINARY_LT true (JNumber 10) "" ∅).
Defined.

(** X4: when no variable the node refers to is set by an
    EnumerateCollection node, [buildRangeInfo] called with an empty
    [enumCollVar] (as [before] calls it) leaves the ranges exactly as they
    are and [enumCollVar] empty, whatever the shape of the node. *)
Theorem buildRangeInfo_without_collection_variable plan node attr
    (r : RangesInfo) :
  (∀ x, x ∈ references node → setByEnumerateCollection plan x = false) →
  ∃ attr', buildRangeInfo plan node "" attr r = ("", attr', r).
Proof.
  revert attr r.
  induction node as [x|a member0 IH|v|op lhs IHl rhs IHr|fname args];
    intros attr r Href.
  - exists attr. simpl.
    specialize (Href x ltac:(simpl; set_solver)).
    unfold setByEnumerateCollection in Href.
    destruct (getVarSetBy plan (var_id x)); [|done]. by rewrite Href.
  - destruct (IH attr r Href) as [attr' Heq]. exists attr'.
    simpl. by rewrite Heq.
  - by exists attr.
  - assert (Hl : ∀ x, x ∈ references lhs → setByEnumerateCollection plan x = false).
    { intros x Hx. apply Href. simpl. set_solver. }
    assert (Hr : ∀ x, x ∈ references rhs → setByEnumerateCollection plan x = false).
    { intros x Hx. apply Href. simpl. set_solver. }
    destruct (IHl attr r Hl) as [al Hal], (IHr attr r Hr) as [ar Har].
    destruct op; try (by exists attr).
    all: try (cbn [buildRangeInfo binary_type isOrdering];
              cbn [bool_decide decide_rel andb orb]; simpl;
              repeat match goal with
              | |- context [bool_decide ?P && bool_decide ?Q] =>
                  destruct (bool_decide P && bool_decide Q)
              end;
              rewrite ?Hal, ?Har; eauto; fail).
    (* the conjunction *)
    rewrite buildRangeInfo_and.
    destruct (IHl "" r Hl) as [al' Hal'], (IHr "" r Hr) as [ar' Har'].
    rewrite Hal', Har'. eauto.
  - by exists attr.
Qed.

Lemma buildRangeInfo_without_collection_variable_witness :
  ∃ attr',
    buildRangeInfo let_plan
      (AstBinary BINARY_LT (attributeAccess var_x ["a"]) five) "" "" ∅
    = ("", attr', ∅).
Proof.
  apply (buildRangeInfo_without_collection_variable let_plan
           (AstBinary BINARY_LT (attributeAccess var_x ["a"]) five) "" ∅).
  intros x Hx. simpl in Hx. apply list_elem_of_singleton in Hx as ->.
  reflexivity.
Defined.

(** ** The names ranges are filed under *)

Lemma insertIfCorrelated_enumCollVar res low high :
  (insertIfCorrelated res low high).1.1 = res.1.1.
Proof.
  destruct res as [[e a] r]. unfold insertIfCorrelated.
  by destruct (string_empty e).
Qed.

Lemma insertIfCorrelated_names res low high name :
  name ∈ rangeNames (insertIfCorrelated res low high).2 →
  name ∈ rangeNames res.2 ∨ (name = res.1.1 ∧ res.1.1 ≠ "").
Proof.
  destruct res as [[e a] r]. unfold insertIfCorrelated, string_empty.
  case_bool_decide as He; simpl; [by left|].
  rewrite rangeNames_insert. set_solver.
Qed.

Section Names.
Context (plan : ExecutionPlan).

Local Abbreviation fromCollection node name :=
  (∃ x, x ∈ references node
        ∧ setByEnumerateCollection plan x = true ∧ var_name x = name).

Lemma fromCollection_lhs op lhs rhs name :
  fromCollection lhs name → fromCollection (AstBinary op lhs rhs) name.
Proof. intros (x & ? & ?). exists x. simpl. set_solver. Qed.

Lemma fromCollection_rhs op lhs rhs name :
  fromCollection rhs name → fromCollection (AstBinary op lhs rhs) name.
Proof. intros (x & ? & ?). exists x. simpl. set_solver. Qed.

Lemma buildRangeInfo_names node :
  ∀ e a (r : RangesInfo),
    ((buildRangeInfo plan node e a r).1.1 = e
     ∨ fromCollection node (buildRangeInfo plan node e a r).1.1)
    ∧ (∀ name,
         name ∈ rangeNames (buildRangeInfo plan node e a r).2 →
         name ∈ rangeNames r ∨ (name = e ∧ e ≠ "") ∨ fromCollection node name).
Proof.
  induction node as [x|attributeName member0 IH|v|op lhs IHl rhs IHr|fname args];
    intros e a r.
  - simpl. unfold setByEnumerateCollection.
    destruct (getVarSetBy plan (var_id x)) as [setter|] eqn:Hsetter;
      [|split; [by left|by left]].
    case_bool_decide as Htype; simpl; [|split; [by left|by left]].
    split; [|by left]. right. exists x.
    rewrite Hsetter. split; [set_solver|]. split; [|done].
    by apply bool_decide_eq_true.
  - specialize (IH e a r). simpl.
    destruct (buildRangeInfo plan member0 e a r) as [[e' a'] r'].
    by destruct (string_empty e').
  - split; [by left|by left].
  - assert (Hside : ∀ side low high,
              (side = lhs ∨ side = rhs) →
              ((insertIfCorrelated (buildRangeInfo plan side e a r) low high).1.1 = e
               ∨ fromCollection (AstBinary op lhs rhs)
                   (insertIfCorrelated (buildRangeInfo plan side e a r) low high).1.1)
              ∧ (∀ name,
                   name ∈ rangeNames
                     (insertIfCorrelated (buildRangeInfo plan side e a r) low high).2 →
                   name ∈ rangeNames r ∨ (name = e ∧ e ≠ "")
                   ∨ fromCollection (AstBinary op lhs rhs) name)).
    { intros side low high Hside.
      assert (Hin : ((buildRangeInfo plan side e a r).1.1 = e
                     ∨ fromCollection (AstBinary op lhs rhs)
                         (buildRangeInfo plan side e a r).1.1)
                    ∧ (∀ name,
                         name ∈ rangeNames (buildRangeInfo plan side e a r).2 →
                         name ∈ rangeNames r ∨ (name = e ∧ e ≠ "")
                         ∨ fromCollection (AstBinary op lhs rhs) name)).
      { destruct Hside as [-> | ->].
        - destruct (IHl e a r) as [H1 H2]. split.
          + destruct H1 as [?|?]; [by left|right; by apply fromCollection_lhs].
          + intros name Hname. destruct (H2 name Hname) as [?|[?|?]]; eauto.
            right; right. by apply fromCollection_lhs.
        - destruct (IHr e a r) as [H1 H2]. split.
          + destruct H1 as [?|?]; [by left|right; by apply fromCollection_rhs].
          + intros name Hname. destruct (H2 name Hname) as [?|[?|?]]; eauto.
            right; right. by apply fromCollection_rhs. }
      destruct Hin as [H1 H2]. rewrite insertIfCorrelated_enumCollVar.
      split; [done|]. intros name Hname.
      apply insertIfCorrelated_names in Hname as [Hname|[-> Hne]]; [eauto|].
      destruct H1 as [H1|H1]; [|eauto].
      right; left. by rewrite H1 in *. }
    destruct op; try (split; [by left|by left]).
    all: try (cbn [buildRangeInfo binary_type isOrdering];
              cbn [bool_decide decide_rel andb orb]; simpl;
              repeat match goal with
              | |- context [bool_decide ?P && bool_decide ?Q] =>
                  destruct (bool_decide P && bool_decide Q)
              end;
              first [ apply Hside; eauto | split; [by left|by left] ]; fail).
    (* the conjunction *)
    rewrite buildRangeInfo_and.
    destruct (IHl e "" r) as [Hl1 Hl2].
    destruct (buildRangeInfo plan lhs e "" r) as [[e1 a1] r1]. simpl in Hl1, Hl2.
    destruct (IHr e1 "" r1) as [Hr1 Hr2]. split.
    + destruct Hr1 as [Hr1|Hr1]; [|right; by apply fromCollection_rhs].
      rewrite Hr1. destruct Hl1 as [?|?]; [by left|].
      right. by apply fromCollection_lhs.
    + intros name Hname. destruct (Hr2 name Hname) as [Hn|[[-> Hne]|Hn]].
      * destruct (Hl2 name Hn) as [?|[?|?]]; eauto.
        right; right. by apply fromCollection_lhs.
      * destruct Hl1 as [->|?]; [eauto|].
        right; right. by apply fromCollection_lhs.
      * right; right. by apply fromCollection_rhs.
  - split; [by left|by left].
Qed.

End Names.

(** X5: every variable name that has ranges after [buildRangeInfo] was
    called with an empty [enumCollVar] either had ranges before, or is the
    name of a variable that the node refers to and that an
    EnumerateCollection node sets: ranges are never filed under any other
    name. *)
Theorem buildRangeInfo_files_under_collection_variables
    plan node attr (r : RangesInfo) name :
  name ∈ rangeNames (buildRangeInfo plan node "" attr r).2 →
  name ∈ rangeNames r
  ∨ ∃ x, x ∈ references node
         ∧ setByEnumerateCollection plan x = true ∧ var_name x = name.
Proof.
  intros Hname.
  destruct (buildRangeInfo_names plan node "" attr r) as [_ H].
  destruct (H name Hname) as [?|[[_ ?]|?]]; [by left|done|by right].
Qed.

Lemma buildRangeInfo_files_under_collection_variables_witness :
  "p" ∈ rangeNames (∅ : RangesInfo)
  ∨ ∃ x, x ∈ references mixed_condition
         ∧ setByEnumerateCollection mixed_plan x = true ∧ var_name x = "p".
Proof.
  apply (buildRangeInfo_files_under_collection_variables mixed_plan
           mixed_condition "" ∅ "p").
  by vm_compute.
Defined.

(** X6: the nesting of conjunctions does not matter to [buildRangeInfo]:
    [(a AND b) AND c] and [a AND (b AND c)] give the same [enumCollVar], the
    same [attr] and the same ranges, the operands being visited from left
    to right with [attr] reset before each. *)
Theorem buildRangeInfo_conjunction_associative plan a b c enumCollVar attr
    (r : RangesInfo) :
  buildRangeInfo plan (AstBinary BINARY_AND (AstBinary BINARY_AND a b) c)
    enumCollVar attr r
  = buildRangeInfo plan (AstBinary BINARY_AND a (AstBinary BINARY_AND b c))
      enumCollVar attr r.
Proof.
  rewrite !buildRangeInfo_and.
  destruct (buildRangeInfo plan a enumCollVar "" r) as [[e1 a1] r1].
  by rewrite buildRangeInfo_and.
Qed.
(** ** What the scan of the filters does to the plan *)

Lemma alter_data (f : ExecutionNode → ExecutionNode) k
    (m : gmap nat ExecutionNode) id :
  (∀ N, data (f N) = data N) →
  data <$> alter f k m !! id = data <$> m !! id.
Proof.
  intros Hf. destruct (decide (k = id)) as [->|Hne].
  - rewrite lookup_alter_eq. destruct (m !! id); simpl; [by rewrite Hf|done].
  - by rewrite lookup_alter_ne.
Qed.

Lemma foldr_alter_data (f : ExecutionNode → ExecutionNode) ks
    (m : gmap nat ExecutionNode) id :
  (∀ N, data (f N) = data N) →
  data <$> foldr (λ k m, alter f k m) m ks !! id = data <$> m !! id.
Proof.
  intros Hf. induction ks as [|k ks IH]; [done|].
  simpl. by rewrite alter_data.
Qed.

Lemma replaceNode_data old new parent plan plan' :
  replaceNode old new parent plan = Ok plan' →
  _nextId plan' = _nextId plan
  ∧ _varSetBy plan' = _varSetBy plan
  ∧ ∀ id, data <$> getNodeById plan' id = data <$> getNodeById plan id.
Proof.
  unfold replaceNode.
  destruct (getNodeById plan old) as [Old|]; [|done].
  destruct (getNodeById plan new) as [New|]; [|done].
  destruct (getNodeById plan parent) as [Par|]; [|done].
  case_bool_decide; [|done]. intros [= <-].
  split; [done|]. split; [done|]. intros id.
  unfold getNodeById. cbn [_ids withIds].
  by rewrite alter_data, foldr_alter_data, alter_data.
Qed.

Lemma sameNodes_refl plan : sameNodes plan plan.
Proof.
  split; [done|]. intros id.
  by destruct (getNodeById plan id) as [N|].
Qed.

Lemma constantFilterExpression_sameNodes isConstant plan plan' n :
  sameNodes plan plan' →
  constantFilterExpression isConstant plan' n
  = constantFilterExpression isConstant plan n.
Proof.
  intros [Hvars Hnodes]. unfold constantFilterExpression.
  pose proof (Hnodes n) as Hn.
  destruct (getNodeById plan n) as [N|].
  - destruct (getNodeById plan' n) as [N'|]; [|done].
    injection Hn as ->.
    destruct (data N) as [| | |v| | | |]; try done.
    unfold getVarSetBy. rewrite Hvars.
    destruct (_varSetBy plan !! var_id v) as [s|]; [|done]. simpl.
    pose proof (Hnodes s) as Hs.
    destruct (getNodeById plan s) as [S0|].
    + destruct (getNodeById plan' s) as [S'|]; [|done].
      injection Hs as ->. done.
    + destruct (getNodeById plan' s) as [S'|]; [|done].
      by rewrite (Hs S' eq_refl).
  - destruct (getNodeById plan' n) as [N'|]; [|done].
    by rewrite (Hn N' eq_refl).
Qed.

Section FilterScan.
Context (isConstant toBoolean : AstNode → bool) (canThrow : Expression → bool).

Local Abbreviation body := (removeUnnecessaryFilters_body isConstant toBoolean canThrow).

(** One iteration keeps the ids bounded and the nodes what they are. *)
Lemma body_sameNodes plan toUnlink n plan' toUnlink' :
  idsBounded plan →
  body (plan, toUnlink) n = Ok (plan', toUnlink') →
  idsBounded plan' ∧ sameNodes plan plan'.
Proof.
  intros Hb. unfold removeUnnecessaryFilters_body.
  destruct (getNodeById plan n) as [N|] eqn:HN; [|done].
  destruct (bool_decide (length (getVariablesUsedHere N) = 1));
    cbn [TRI_ASSERT]; [rewrite Result_bind_Ok|by simpl].
  destruct (getVariablesUsedHere N) as [|variable ?]; [done|].
  pose proof (sameNodes_refl plan) as Hrefl.
  destruct (getVarSetBy plan (var_id variable)) as [setter|];
    [|by intros [= <- <-]].
  destruct (data setter) as [| | | |expression ov| | |];
    try (by intros [= <- <-]).
  destruct (negb (isConstant (node expression))); [by intros [= <- <-]|].
  destruct (negb (canThrow expression)); cbn [TRI_ASSERT];
    [rewrite Result_bind_Ok|by simpl].
  destruct (toBoolean (node expression)); [by intros [= <- <-]|].
  destruct (bool_decide (length (_parents N) = 1));
    cbn [TRI_ASSERT]; [rewrite Result_bind_Ok|by simpl].
  destruct (_parents N) as [|parent0 ?]; [done|].
  cbn [nextId new_NoResultsNode _id].
  destruct (replaceNode _ _ _ _) as [plan1|] eqn:Hreplace; [|done].
  rewrite Result_bind_Ok. intros [= <- <-].
  apply replaceNode_data in Hreplace as (Hnext & Hvars & Hdata).
  unfold getNodeById, registerNode, withIds, new_NoResultsNode in Hdata.
  cbn [_ids _id _nextId _varSetBy] in Hnext, Hvars, Hdata.
  split.
  - intros i M HM. rewrite Hnext. simpl.
    assert (is_Some (data <$> _ids plan1 !! i)) as HS by (rewrite HM; eauto).
    specialize (Hdata i). rewrite Hdata in HS. destruct HS as [d Hd].
    destruct (decide (i = S (_nextId plan))) as [->|Hne]; [lia|].
    rewrite lookup_insert_ne in Hd by done.
    destruct (_ids plan !! i) as [M0|] eqn:HM0; [|done].
    apply Hb in HM0. simpl in HM0. lia.
  - split; [done|]. intros id. specialize (Hdata id).
    unfold getNodeById in *.
    destruct (decide (id = S (_nextId plan))) as [->|Hne].
    + rewrite lookup_insert_eq in Hdata. simpl in Hdata.
      pose proof (idsBounded_fresh plan (S (_nextId plan)) Hb) as Hnone.
      unfold getNodeById in Hnone. rewrite Hnone by lia.
      intros N' HN'. rewrite HN' in Hdata. by injection Hdata.
    + rewrite lookup_insert_ne in Hdata by done.
      destruct (_ids plan !! id) as [M0|] eqn:HM0.
      * by rewrite Hdata.
      * intros N' HN'. by rewrite HN' in Hdata.
Qed.

End FilterScan.

Lemma sameNodes_trans plan0 plan1 plan2 :
  sameNodes plan0 plan1 → sameNodes plan1 plan2 → sameNodes plan0 plan2.
Proof.
  intros [Hv1 H1] [Hv2 H2]. split; [congruence|]. intros id.
  specialize (H1 id). specialize (H2 id).
  destruct (getNodeById plan0 id) as [N0|].
  - destruct (getNodeById plan1 id) as [N1|]; [|done].
    injection H1 as <-. done.
  - destruct (getNodeById plan1 id) as [N1|].
    + intros N2 HN2. rewrite HN2 in H2. injection H2 as ->.
      by apply H1.
    + done.
Qed.

Section FilterMarks.
Context (isConstant toBoolean : AstNode → bool) (canThrow : Expression → bool).

Local Abbreviation body := (removeUnnecessaryFilters_body isConstant toBoolean canThrow).

(** What one iteration does to the set of nodes to unlink. *)
Lemma body_marks plan toUnlink n N v plan' toUnlink' :
  getNodeById plan n = Some N →
  data N = FilterNode v →
  body (plan, toUnlink) n = Ok (plan', toUnlink') →
  toUnlink' = if alwaysTrueFilter isConstant toBoolean plan n
              then {[n]} ∪ toUnlink else toUnlink.
Proof.
  intros HN Hdata.
  unfold removeUnnecessaryFilters_body, alwaysTrueFilter, constantFilterExpression.
  rewrite HN. unfold getVariablesUsedHere. rewrite Hdata.
  cbn [length]. rewrite (bool_decide_eq_true_2 (1 = 1)) by done.
  cbn [TRI_ASSERT]. rewrite Result_bind_Ok.
  destruct (getVarSetBy plan (var_id v)) as [setter|]; [|by intros [= <- <-]].
  destruct (data setter) as [| | | |expression ov| | |];
    try (by intros [= <- <-]).
  destruct (isConstant (node expression)); cbn [negb]; [|by intros [= <- <-]].
  destruct (negb (canThrow expression)); cbn [TRI_ASSERT];
    [rewrite Result_bind_Ok|by simpl].
  destruct (toBoolean (node expression)); [by intros [= <- <-]|].
  destruct (bool_decide (length (_parents N) = 1));
    cbn [TRI_ASSERT]; [rewrite Result_bind_Ok|by simpl].
  destruct (_parents N) as [|parent0 ?]; [done|].
  destruct (nextId plan) as [id plan0].
  destruct (replaceNode _ _ _ _) as [plan1|]; [|done].
  rewrite Result_bind_Ok. by intros [= <- <-].
Qed.

Lemma scan_marks plan0 nodes :
  ∀ plan toUnlink plan' toUnlink',
    idsBounded plan →
    sameNodes plan0 plan →
    Forall (λ n, ∃ N, getNodeById plan0 n = Some N ∧ getType N = FILTER) nodes →
    foldResult body (plan, toUnlink) nodes = Ok (plan', toUnlink') →
    idsBounded plan'
    ∧ sameNodes plan0 plan'
    ∧ ∀ n, n ∈ toUnlink'
           ↔ n ∈ toUnlink
             ∨ (n ∈ nodes ∧ alwaysTrueFilter isConstant toBoolean plan0 n = true).
Proof.
  induction nodes as [|m nodes IH];
    intros plan toUnlink plan' toUnlink' Hb Hsame Hnodes.
  - intros [= <- <-]. split; [done|]. split; [done|].
    intros n. rewrite elem_of_nil. naive_solver.
  - rewrite foldResult_cons.
    destruct (body (plan, toUnlink) m) as [[plan1 toUnlink1]|] eqn:Hbody;
      [|done].
    rewrite Result_bind_Ok. intros Hrest.
    apply Forall_cons in Hnodes as [(N0 & HN0 & Htype) Hnodes].
    destruct (body_sameNodes isConstant toBoolean canThrow plan toUnlink m
                plan1 toUnlink1 Hb Hbody) as [Hb1 Hsame1].
    pose proof (sameNodes_trans _ _ _ Hsame Hsame1) as Hsame01.
    destruct (IH plan1 toUnlink1 plan' toUnlink' Hb1 Hsame01 Hnodes Hrest)
      as (Hb' & Hsame' & Hmarks).
    split; [done|]. split; [done|].
    assert (Hm : ∃ N v, getNodeById plan m = Some N ∧ data N = FilterNode v).
    { destruct Hsame as [_ Hsame]. specialize (Hsame m). rewrite HN0 in Hsame.
      destruct (getNodeById plan m) as [N|]; [|done]. injection Hsame as Hdata.
      unfold getType in Htype. rewrite <- Hdata in Htype.
      destruct (data N) as [| | |v| | | |] eqn:HdN; try done. by exists N, v. }
    destruct Hm as (N & v & HN & Hdata).
    pose proof (body_marks plan toUnlink m N v plan1 toUnlink1 HN Hdata Hbody)
      as Hmark.
    unfold alwaysTrueFilter in Hmark.
    rewrite (constantFilterExpression_sameNodes isConstant plan0 plan m Hsame)
      in Hmark.
    fold (alwaysTrueFilter isConstant toBoolean plan0 m) in Hmark.
    intros n. rewrite Hmarks, Hmark, elem_of_cons.
    destruct (alwaysTrueFilter isConstant toBoolean plan0 m) eqn:Htrue.
    + rewrite elem_of_union, elem_of_singleton. split.
      * intros [[->|H]|[H1 H2]]; [right; split; [by left|done] | by left |].
        right. split; [by right|done].
      * intros [H|[[->|H1] H2]]; [left; by right | left; by left |].
        right. done.
    + split.
      * intros [H|[H1 H2]]; [by left|]. right. split; [by right|done].
      * intros [H|[[->|H1] H2]]; [by left | congruence | by right].
Qed.

End FilterMarks.

(** X7: on a plan whose node ids do not exceed the id counter, when the scan
    of [removeUnnecessaryFiltersRule] over the filter nodes comes to its
    end, the set it hands to [unlinkNodes] holds exactly the filter nodes
    of the plan whose input variable is set by a Calculation node with a
    constant expression that evaluates to true, as judged on the plan the
    rule was given: the NoResults nodes spliced in on the way change no
    verdict.  The scan leaves every node of the plan registered with the
    kind and payload it had, adds NoResults nodes only, and keeps the ids
    bounded. *)
Theorem removeUnnecessaryFilters_marks_exactly_true_filters
    isConstant toBoolean canThrow plan plan' toUnlink :
  idsBounded plan →
  removeUnnecessaryFilters_scan isConstant toBoolean canThrow plan
    (findNodesOfType plan FILTER true) = Ok (plan', toUnlink) →
  (∀ n, n ∈ toUnlink
        ↔ n ∈ findNodesOfType plan FILTER true
          ∧ alwaysTrueFilter isConstant toBoolean plan n = true)
  ∧ sameNodes plan plan'
  ∧ idsBounded plan'.
Proof.
  intros Hb Hscan.
  destruct (scan_marks isConstant toBoolean canThrow plan
              (findNodesOfType plan FILTER true) plan ∅ plan' toUnlink)
    as (Hb' & Hsame & Hmarks); [done|apply sameNodes_refl| |done|].
  - apply Forall_forall. intros n Hn. by eapply findNodes_registered.
  - split; [|done]. intros n. rewrite Hmarks. set_solver.
Qed.

Lemma idsBounded_adjacent_plan : idsBounded adjacent_plan.
Proof. unfold idsBounded. apply (bool_decide_unpack _). by vm_compute. Qed.

Lemma removeUnnecessaryFilters_marks_witness :
  (∀ n, n ∈ ({[3; 4]} : gset nat)
        ↔ n ∈ findNodesOfType adjacent_plan FILTER true
          ∧ alwaysTrueFilter valueIsConstant valueToBoolean adjacent_plan n = true)
  ∧ sameNodes adjacent_plan adjacent_plan
  ∧ idsBounded adjacent_plan.
Proof.
  apply (removeUnnecessaryFilters_marks_exactly_true_filters valueIsConstant
           valueToBoolean throwsUnlessConstant adjacent_plan adjacent_plan
           {[3; 4]}).
  - exact idsBounded_adjacent_plan.
  - by vm_compute.
Defined.

(** X8: when the scan of [removeUnnecessaryFiltersRule] reaches a filter
    whose input variable is set by a Calculation node with a constant
    expression of which [canThrow] holds, the assertion
    [TRI_ASSERT(! canThrow())] fails and the rule ends there, whatever the
    expression evaluates to: nothing is unlinked, not even the filters
    marked before. *)
Theorem removeUnnecessaryFilters_constant_must_not_throw
    isConstant toBoolean canThrow plan0 out before n after
    plan toUnlink N expression :
  findNodesOfType plan0 FILTER true = before ++ n :: after →
  removeUnnecessaryFilters_scan isConstant toBoolean canThrow plan0 before
    = Ok (plan, toUnlink) →
  getNodeById plan n = Some N →
  constantFilterExpression isConstant plan n = Some expression →
  canThrow expression = true →
  removeUnnecessaryFiltersRule isConstant toBoolean canThrow plan0 out
  = Failed AssertionFailed.
Proof.
  intros Hnodes Hbefore HN He Hthrow.
  unfold removeUnnecessaryFiltersRule, removeUnnecessaryFilters_scan in *.
  rewrite Hnodes, foldResult_app, Hbefore, Result_bind_Ok, foldResult_cons.
  rewrite (body_constant isConstant toBoolean canThrow plan toUnlink n N
             expression HN He).
  by rewrite Hthrow.
Qed.

Lemma removeUnnecessaryFilters_constant_must_not_throw_witness :
  removeUnnecessaryFiltersRule valueIsConstant valueToBoolean alwaysThrows
    true_plan [] = Failed AssertionFailed.
Proof.
  apply (removeUnnecessaryFilters_constant_must_not_throw valueIsConstant
           valueToBoolean alwaysThrows true_plan [] [] 4 [] true_plan ∅
           (mkNode 4 (FilterNode var_t) [3] [5] ∅)
           (mkExpression (AstValue (JBool true)))); reflexivity.
Defined.

(** ** Plans without a dead calculation *)

(** X9: when every Calculation node of the plan either can throw or sets a
    variable that is used later, [removeUnnecessaryCalculationsRule] hands
    the plan back unchanged ([unlinkNodes] is not called), with [out] as it
    was and [keep = true]. *)
Theorem removeUnnecessaryCalculations_nothing_dead canThrow plan out :
  Forall (λ n, deadCalculation canThrow plan n = false)
    (findNodesOfType plan CALCULATION true) →
  removeUnnecessaryCalculationsRule canThrow plan out = Ok (plan, out, true).
Proof.
  intros Hnone. unfold removeUnnecessaryCalculationsRule,
    removeUnnecessaryCalculations_scan.
  destruct (calculations_scan_spec canThrow plan
              (findNodesOfType plan CALCULATION true) ∅)
    as (toUnlink & Hscan & Hmarks).
  { intros n Hn. by eapply findNodes_registered. }
  rewrite Hscan, Result_bind_Ok.
  assert (toUnlink = ∅) as ->.
  { apply set_eq. intros n. rewrite Hmarks. rewrite Forall_forall in Hnone.
    split; [|set_solver]. intros [?|[Hn Hdead]]; [set_solver|].
    rewrite (Hnone n Hn) in Hdead. done. }
  by rewrite bool_decide_eq_false_2 by (intros H; by apply H).
Qed.

Lemma removeUnnecessaryCalculations_nothing_dead_witness :
  removeUnnecessaryCalculationsRule throwsUnlessConstant example_plan []
  = Ok (example_plan, [], true).
Proof.
  apply (removeUnnecessaryCalculations_nothing_dead throwsUnlessConstant
           example_plan []).
  apply (bool_decide_unpack _). by vm_compute.
Defined.
(** ** The heap under [useIndexRange] *)

Lemma preserves_refl m : heapFresh m → preserves m m.
Proof. intros H. split; [done|]. split; [lia|done]. Qed.

Lemma preserves_trans m1 m2 m3 :
  preserves m1 m2 → preserves m2 m3 → preserves m1 m3.
Proof.
  intros (_ & Hle1 & H1) (Hf & Hle2 & H2). split; [done|]. split; [lia|].
  intros a Ha. rewrite H2 by lia. by apply H1.
Qed.

Lemma preserves_lookup m m' a p :
  heapFresh m → preserves m m' → plans m !! a = Some p → plans m' !! a = Some p.
Proof.
  intros Hfresh (_ & _ & H) Hp. rewrite H; [done|].
  destruct (decide (a < nextAddress m)) as [|Hge]; [done|].
  destruct (Hfresh a) as [Hnone _]; [lia|]. congruence.
Qed.

Ltac heap_lookups :=
  repeat first
    [ rewrite lookup_insert_ne by lia
    | rewrite lookup_delete_ne by lia ].

Ltac heap_preserves Hfresh :=
  split; [|split; [simpl; lia|]];
  [ let a := fresh "a" in let Ha := fresh "Ha" in
    intros a Ha; simpl in *;
    destruct (Hfresh a) as [? ?]; [simpl; lia|]; simpl in *;
    heap_lookups; done
  | let a := fresh "a" in let Ha := fresh "Ha" in
    intros a Ha; simpl in *; heap_lookups; done ].

Ltac heap_leaf Hfresh :=
  eexists _, _, _; split; [reflexivity|]; split; [heap_preserves Hfresh|].

Ltac heap_step :=
  cbn -[replaceNode];
  first
    [ rewrite lookup_insert_eq
    | match goal with
      | |- context [match ?l with [] => _ | _ :: _ => _ end] =>
          is_var l; destruct l as [|[] ?]
      | |- context [match _prev ?f with _ => _ end] =>
          destruct (_prev f) eqn:?
      | |- context [match replaceNode ?a ?b ?c ?d with _ => _ end] =>
          destruct (replaceNode a b c d) eqn:?
      end ].

Section Heap.
Context (getIndexes : string → list string → list Index).
Context (clone : ExecutionPlan → ExecutionPlan).

Lemma substituteIndex_spec node vocbase collection outVariable rangeInfo idx f m :
  heapFresh m →
  ∃ o f' m',
    run (substituteIndex clone node vocbase collection outVariable rangeInfo idx)
        (f, m) = (o, (f', m'))
    ∧ preserves m m'
    ∧ match o with
      | Returned _ =>
          f' = pushOut (nextAddress m) f ∧ is_Some (plans m' !! nextAddress m)
      | _ => f' = f
      end.
Proof.
  intros Hfresh. destruct m as [ps ns next fs].
  unfold substituteIndex. cbn -[replaceNode].
  destruct (ps !! _plan f) as [original|] eqn:Horig; cbn -[replaceNode];
    [|by heap_leaf Hfresh].
  repeat heap_step.
  all: heap_leaf Hfresh.
  all: try done.
  all: split; [done|]; simpl; rewrite lookup_insert_eq; eauto.
Qed.

Lemma preserves_heapFresh m m' : preserves m m' → heapFresh m'.
Proof. by intros [? _]. Qed.

(** The loop over the indexes: the plans it appends to [_out] are new
    objects, one for every index if it comes to its end. *)
Lemma substituteIndexes_spec node vocbase collection outVariable rangeInfo idxs :
  ∀ f m,
    heapFresh m →
    ∃ o f' m' clones,
      run (forEach (substituteIndex clone node vocbase collection outVariable
                      rangeInfo) idxs) (f, m) = (o, (f', m'))
      ∧ preserves m m'
      ∧ f' = mkFinder (_ranges f) (_plan f) (_var f) (_out f ++ clones) (_prev f)
      ∧ NoDup clones
      ∧ (∀ a, a ∈ clones →
           nextAddress m ≤ a ∧ a < nextAddress m' ∧ is_Some (plans m' !! a))
      ∧ (o = Returned tt → length clones = length idxs).
Proof.
  induction idxs as [|idx idxs IH]; intros f m Hfresh.
  - exists (Returned tt), f, m, []. split; [done|].
    split; [by apply preserves_refl|]. rewrite app_nil_r.
    split; [by destruct f|]. split; [constructor|]. split; [|done].
    intros a Ha. by apply elem_of_nil in Ha.
  - destruct (substituteIndex_spec node vocbase collection outVariable rangeInfo
                idx f m Hfresh) as (o1 & f1 & m1 & Hrun1 & Hpres1 & Ho1).
    cbn [forEach]. rewrite run_bind, Hrun1.
    destruct o1 as [[]|e|fl].
    + destruct Ho1 as [-> Hsome].
      pose proof (preserves_heapFresh _ _ Hpres1) as Hfresh1.
      assert (Hlt : nextAddress m < nextAddress m1).
      { destruct (decide (nextAddress m < nextAddress m1)) as [|Hge]; [done|].
        destruct (Hfresh1 (nextAddress m)) as [Hnone _]; [lia|].
        rewrite Hnone in Hsome. by destruct Hsome. }
      destruct (IH (pushOut (nextAddress m) f) m1 Hfresh1)
        as (o & f' & m' & clones & Hrun & Hpres & -> & Hnodup & Hclones & Hlen).
      eexists o, _, m', (nextAddress m :: clones).
      split; [exact Hrun|]. split; [by eapply preserves_trans|].
      split; [simpl; by rewrite <- app_assoc|].
      destruct Hpres1 as (_ & Hle1 & _).
      pose proof Hpres as (_ & Hle & Hsame).
      split; [|split].
      * constructor; [|done]. intros Hin. apply Hclones in Hin. lia.
      * intros a [->|Ha]%elem_of_cons.
        -- split; [lia|]. split; [lia|]. by rewrite Hsame.
        -- destruct (Hclones a Ha) as (? & ? & ?). split; [lia|done].
      * intros Ho. simpl. by rewrite Hlen.
    + subst f1. exists (Thrown e), f, m1, []. split; [done|]. split; [done|].
      rewrite app_nil_r. split; [by destruct f|]. split; [constructor|].
      split; [|done]. intros a Ha. by apply elem_of_nil in Ha.
    + subst f1. exists (Aborted fl), f, m1, []. split; [done|]. split; [done|].
      rewrite app_nil_r. split; [by destruct f|]. split; [constructor|].
      split; [|done]. intros a Ha. by apply elem_of_nil in Ha.
Qed.

(** [before] on an EnumerateCollection node whose variable has ranges. *)
Lemma before_enumerate en f m plan EN vocbase collection var map :
  heapFresh m →
  plans m !! _plan f = Some plan →
  getNodeById plan en = Some EN →
  data EN = EnumerateCollectionNode vocbase collection var →
  RangesInfo_find (var_name var) (_ranges f) = Some map →
  ∃ o f' m' clones,
    run (before getIndexes clone en) (f, m) = (o, (f', m'))
    ∧ preserves m m'
    ∧ _out f' = _out f ++ clones
    ∧ _ranges f' = _ranges f
    ∧ NoDup clones
    ∧ (∀ a, a ∈ clones → plans m !! a = None ∧ is_Some (plans m' !! a))
    ∧ (o = Returned tt →
       length clones = length (getIndexes collection (map_to_list map).*1)
       ∧ _prev f' = Some en).
Proof.
  intros Hfresh Hplan Hen Hdata Hfind.
  destruct (substituteIndexes_spec EN vocbase collection var (map_to_list map).*2
              (getIndexes collection (map_to_list map).*1) f m Hfresh)
    as (o & f' & m' & clones & Hrun & Hpres & Hf' & Hnodup & Hclones & Hlen).
  assert (Hnew : ∀ a, a ∈ clones → plans m !! a = None ∧ is_Some (plans m' !! a)).
  { intros a Ha. destruct (Hclones a Ha) as (Hge & _ & Hsome).
    split; [|done]. by destruct (Hfresh a Hge). }
  unfold before. rewrite run_bind. cbn [getFinder run].
  rewrite run_bind. destruct m as [ps ns next fs]. cbn [onMemory loadPlan run plans].
  simpl in Hplan. rewrite Hplan. rewrite Hen. rewrite run_bind, Hdata, Hfind.
  rewrite Hrun. destruct o as [[]|e|fl].
  - eexists (Returned tt), _, m', clones. split; [reflexivity|].
    split; [done|]. subst f'. simpl. split; [done|]. split; [done|].
    split; [done|]. split; [done|]. intros _. split; [by apply Hlen|done].
  - eexists (Thrown e), f', m', clones. split; [reflexivity|].
    split; [done|]. subst f'. simpl. by do 4 (split; [done|]).
  - eexists (Aborted fl), f', m', clones. split; [reflexivity|].
    split; [done|]. subst f'. simpl. by do 4 (split; [done|]).
Qed.

Lemma before_preserves en f m :
  heapFresh m → preserves m (run (before getIndexes clone en) (f, m)).2.2.
Proof.
  intros Hfresh. pose proof (preserves_refl m Hfresh) as Hrefl.
  destruct (plans m !! _plan f) as [plan|] eqn:Hplan.
  2: { unfold before. rewrite run_bind. cbn [getFinder run]. rewrite run_bind.
       destruct m as [ps ns next fs]. cbn [onMemory loadPlan run plans].
       simpl in Hplan. by rewrite Hplan. }
  destruct (getNodeById plan en) as [EN|] eqn:Hen.
  2: { unfold before. rewrite run_bind. cbn [getFinder run]. rewrite run_bind.
       destruct m as [ps ns next fs]. cbn [onMemory loadPlan run plans].
       simpl in Hplan. by rewrite Hplan, Hen. }
  destruct (data EN) as [|vocbase collection var| | |expression outVariable| | |]
    eqn:Hdata.
  2: { destruct (RangesInfo_find (var_name var) (_ranges f)) as [map|] eqn:Hfind.
       - destruct (before_enumerate en f m plan EN vocbase collection var map
                     Hfresh Hplan Hen Hdata Hfind)
           as (o & f' & m' & clones & Hrun & Hpres & _).
         by rewrite Hrun.
       - unfold before. rewrite run_bind. cbn [getFinder run]. rewrite run_bind.
         destruct m as [ps ns next fs]. cbn [onMemory loadPlan run plans].
         simpl in Hplan. by rewrite Hplan, Hen, run_bind, Hdata, Hfind. }
  all: unfold before; rewrite run_bind; cbn [getFinder run]; rewrite run_bind;
    destruct m as [ps ns next fs]; cbn [onMemory loadPlan run plans];
    simpl in Hplan; rewrite Hplan, Hen, run_bind, Hdata; try done.
  case_bool_decide; [|done].
  by destruct (buildRangeInfo plan (node expression) "" "" (_ranges f)) as [[? ?] ?].
Qed.

Lemma walk_preserves fuel : ∀ en f m,
  heapFresh m → preserves m (run (walk getIndexes clone fuel en) (f, m)).2.2.
Proof.
  induction fuel as [|fuel IH]; intros en f m Hfresh.
  - by apply preserves_refl.
  - cbn [walk]. rewrite run_bind.
    pose proof (before_preserves en f m Hfresh) as Hpres.
    destruct (run (before getIndexes clone en) (f, m)) as [o [f1 m1]].
    simpl in Hpres. destruct o as [[]|e|fl]; [|done..].
    rewrite run_bind. cbn [getFinder run]. rewrite run_bind.
    pose proof (preserves_heapFresh _ _ Hpres) as Hfresh1.
    destruct (run (onMemory (loadPlan (_plan f1))) (f1, m1)) as [o2 [f2 m2]] eqn:Hload.
    assert (f2 = f1 ∧ m2 = m1) as [-> ->].
    { destruct m1 as [ps ns next fs]. cbn in Hload.
      destruct (ps !! _plan f1); by injection Hload as <- <- <-. }
    destruct o2 as [plan|e|fl]; [|done..].
    destruct (_dependencies <$> getNodeById plan en) as [[|d [|]]|]; try done.
    eapply preserves_trans; [exact Hpres|]. by apply IH.
Qed.

Lemma useIndexRange_walk_preserves plan out n m :
  heapFresh m →
  preserves m (run (useIndexRange_walk getIndexes clone plan out n) m).2.
Proof.
  intros Hfresh. pose proof (preserves_refl m Hfresh) as Hrefl.
  unfold useIndexRange_walk. rewrite run_bind.
  destruct (run (loadPlan plan) m) as [o m0] eqn:Hload.
  assert (m0 = m) as ->.
  { destruct m as [ps ns next fs]. cbn in Hload.
    destruct (ps !! plan); by injection Hload as <- <-. }
  destruct o as [p|e|fl]; [|done..].
  destruct (getNodeById p n) as [N|]; [|done].
  destruct (getVariablesUsedHere N) as [|var [|]]; try done.
  cbn [run].
  pose proof (walk_preserves (size (_ids p)) n
                (CalculationNodeFinder_new plan var out) m Hfresh) as Hpres.
  destruct (run (walk getIndexes clone (size (_ids p)) n)
              (CalculationNodeFinder_new plan var out, m)) as [o [f' m']].
  by destruct o.
Qed.

Lemma forEach_preserves {A} (body : A → Prog Memory unit) (l : list A) :
  (∀ a m, heapFresh m → preserves m (run (body a) m).2) →
  ∀ m, heapFresh m → preserves m (run (forEach body l) m).2.
Proof.
  intros Hbody. induction l as [|a l IH]; intros m Hfresh.
  - by apply preserves_refl.
  - cbn [forEach]. rewrite run_bind.
    pose proof (Hbody a m Hfresh) as Hpres.
    destruct (run (body a) m) as [o m1]. simpl in Hpres.
    destruct o as [[]|e|fl]; [|done..].
    eapply preserves_trans; [exact Hpres|].
    apply IH. by eapply preserves_heapFresh.
Qed.

Lemma useIndexRange_preserves plan out m :
  heapFresh m →
  preserves m (run (useIndexRange getIndexes clone plan out) m).2.
Proof.
  intros Hfresh. pose proof (preserves_refl m Hfresh) as Hrefl.
  unfold useIndexRange. rewrite run_bind.
  destruct (run (loadPlan plan) m) as [o m0] eqn:Hload.
  assert (m0 = m) as ->.
  { destruct m as [ps ns next fs]. cbn in Hload.
    destruct (ps !! plan); by injection Hload as <- <-. }
  destruct o as [p|e|fl]; [|done..].
  rewrite run_bind.
  match goal with
  | |- context [run (forEach ?body ?l) m] =>
      pose proof (forEach_preserves body l) as Hloop
  end.
  lapply Hloop.
  2: { intros n m1 Hfresh1. rewrite run_bind.
       pose proof (useIndexRange_walk_preserves plan out n m1 Hfresh1) as Hpres.
       destruct (run (useIndexRange_walk getIndexes clone plan out n) m1)
         as [o m2].
       by destruct o. }
  clear Hloop. intros Hloop. specialize (Hloop m Hfresh).
  match goal with
  | |- context [run (forEach ?body ?l) m] =>
      destruct (run (forEach body l) m) as [o m1]
  end.
  by destruct o as [[]|e|fl].
Qed.

End Heap.

(** X10: [useIndexRange] modifies clones only.  Every plan object that
    exists when the rule is called, the plan it is run on included, is the
    same object with the same contents when the rule ends, whether it
    returns, throws or aborts: [nextId], [registerNode] and [replaceNode]
    are only ever called on a plan that [clone] has just made. *)
Theorem useIndexRange_keeps_existing_plans getIndexes clone plan out m a p :
  heapFresh m →
  plans m !! a = Some p →
  plans (run (useIndexRange getIndexes clone plan out) m).2 !! a = Some p.
Proof.
  intros Hfresh Hp. eapply preserves_lookup; [done| |done].
  by apply useIndexRange_preserves.
Qed.

Lemma heapFresh_example_memory : heapFresh example_memory.
Proof.
  intros a Ha. simpl in *. split; [|apply lookup_empty].
  apply lookup_singleton_ne. lia.
Qed.

Lemma useIndexRange_keeps_existing_plans_witness :
  plans (run (useIndexRange example_getIndexes cloneKeepingIds 0 [])
           example_memory).2 !! 0 = Some example_plan.
Proof.
  apply (useIndexRange_keeps_existing_plans example_getIndexes cloneKeepingIds
           0 [] example_memory 0 example_plan).
  - exact heapFresh_example_memory.
  - reflexivity.
Defined.

(** X11: [before], on an EnumerateCollection node whose variable has
    ranges, appends only new plan objects to the finder's [_out]: they are
    pairwise distinct, none of them existed before the call, and each of
    them exists after it.  When the call returns there is exactly one of
    them for every index [getIndexes] gave for the attributes that have
    ranges, the ranges of the finder are what they were, and [_prev] is the
    node. *)
Theorem before_clones_once_per_index
    getIndexes clone en f m plan EN vocbase collection var map :
  heapFresh m →
  plans m !! _plan f = Some plan →
  getNodeById plan en = Some EN →
  data EN = EnumerateCollectionNode vocbase collection var →
  RangesInfo_find (var_name var) (_ranges f) = Some map →
  ∃ o f' m' clones,
    run (before getIndexes clone en) (f, m) = (o, (f', m'))
    ∧ _out f' = _out f ++ clones
    ∧ NoDup clones
    ∧ (∀ a, a ∈ clones → plans m !! a = None ∧ is_Some (plans m' !! a))
    ∧ (o = Returned tt →
       length clones = length (getIndexes collection (map_to_list map).*1)
       ∧ _ranges f' = _ranges f
       ∧ _prev f' = Some en).
Proof.
  intros Hfresh Hplan Hen Hdata Hfind.
  destruct (before_enumerate getIndexes clone en f m plan EN vocbase collection
              var map Hfresh Hplan Hen Hdata Hfind)
    as (o & f' & m' & clones & Hrun & _ & Hout & Hranges & Hnodup & Hnew & Hlen).
  exists o, f', m', clones. do 4 (split; [done|]).
  intros Ho. destruct (Hlen Ho). done.
Qed.

Lemma before_clones_once_per_index_witness :
  ∃ o f' m' clones,
    run (before example_getIndexes cloneKeepingIds 2)
        (example_finder, example_memory) = (o, (f', m'))
    ∧ _out f' = _out example_finder ++ clones
    ∧ NoDup clones
    ∧ (∀ a, a ∈ clones →
         plans example_memory !! a = None ∧ is_Some (plans m' !! a))
    ∧ (o = Returned tt →
       length clones
       = length (example_getIndexes "coll"
                   (map_to_list
                      ({[ "a" := mkRange (Some (mkBound five true))
                                         (Some (mkBound five true)) ]}
                       : gmap string RangeInfo)).*1)
       ∧ _ranges f' = _ranges example_finder
       ∧ _prev f' = Some 2).
Proof.
  apply (before_clones_once_per_index example_getIndexes cloneKeepingIds 2
           example_finder example_memory example_plan example_enumerate
           "_system" "coll" var_p
           {[ "a" := mkRange (Some (mkBound five true)) (Some (mkBound five true)) ]}).
  - exact heapFresh_example_memory.
  - reflexivity.
  - reflexivity.
  - reflexivity.
  - by vm_compute.
Defined.

(** ** Collections without a fitting index *)

Section NoIndex.
Context (getIndexes : string → list string → list Index).
Context (clone : ExecutionPlan → ExecutionPlan).
Hypothesis no_index : ∀ collection attrs, getIndexes collection attrs = [].

Lemma before_without_index en f m :
  (run (before getIndexes clone en) (f, m)).2.2 = m
  ∧ ∀ e, (run (before getIndexes clone en) (f, m)).1 ≠ Thrown e.
Proof.
  unfold before. rewrite run_bind. cbn [getFinder run]. rewrite run_bind.
  cbn [onMemory loadPlan run].
  destruct (plans m !! _plan f) as [plan|]; [|done].
  destruct (getNodeById plan en) as [EN|]; [|done].
  rewrite run_bind.
  destruct (data EN) as [|vocbase collection var| | |expression outVariable| | |];
    try done.
  - destruct (RangesInfo_find (var_name var) (_ranges f)) as [map|]; [|done].
    by rewrite no_index.
  - case_bool_decide; [|done].
    by destruct (buildRangeInfo plan (node expression) "" "" (_ranges f))
      as [[? ?] ?].
Qed.

Lemma walk_without_index fuel : ∀ en f m,
  (run (walk getIndexes clone fuel en) (f, m)).2.2 = m
  ∧ ∀ e, (run (walk getIndexes clone fuel en) (f, m)).1 ≠ Thrown e.
Proof.
  induction fuel as [|fuel IH]; intros en f m; [done|].
  cbn [walk]. rewrite run_bind.
  destruct (before_without_index en f m) as [Hm Ho].
  destruct (run (before getIndexes clone en) (f, m)) as [o [f1 m1]].
  simpl in Hm, Ho. subst m1.
  destruct o as [[]|e|fl]; [|by destruct (Ho e)|done].
  rewrite run_bind. cbn [getFinder run]. rewrite run_bind.
  cbn [onMemory loadPlan run].
  destruct (plans m !! _plan f1) as [plan|]; [|done].
  destruct (_dependencies <$> getNodeById plan en) as [[|d [|]]|];
    first [done | apply IH].
Qed.

Lemma useIndexRange_walk_without_index plan out n m :
  (run (useIndexRange_walk getIndexes clone plan out n) m).2 = m
  ∧ ∀ e, (run (useIndexRange_walk getIndexes clone plan out n) m).1 ≠ Thrown e.
Proof.
  unfold useIndexRange_walk. rewrite run_bind. cbn [loadPlan run].
  destruct (plans m !! plan) as [p|]; [|done].
  destruct (getNodeById p n) as [N|]; [|done].
  destruct (getVariablesUsedHere N) as [|var [|]]; try done.
  cbn [run].
  destruct (walk_without_index (size (_ids p)) n
              (CalculationNodeFinder_new plan var out) m) as [Hm Ho].
  destruct (run (walk getIndexes clone (size (_ids p)) n)
              (CalculationNodeFinder_new plan var out, m)) as [o [f' m']].
  simpl in Hm, Ho. subst m'. destruct o as [[]|e|fl]; try done.
  by destruct (Ho e).
Qed.

Lemma useIndexRange_loop_without_index plan out nodes m :
  (run (forEach (λ n, _ ← useIndexRange_walk getIndexes clone plan out n; mret tt)
          nodes) m).2 = m
  ∧ ∀ e, (run (forEach (λ n, _ ← useIndexRange_walk getIndexes clone plan out n;
                              mret tt) nodes) m).1 ≠ Thrown e.
Proof.
  induction nodes as [|n nodes IH]; [done|].
  cbn [forEach]. rewrite !run_bind.
  destruct (useIndexRange_walk_without_index plan out n m) as [Hm Ho].
  destruct (run (useIndexRange_walk getIndexes clone plan out n) m) as [o m1].
  simpl in Hm, Ho. subst m1. destruct o as [finder|e|fl]; try done.
  by destruct (Ho e).
Qed.

End NoIndex.

(** X12: when [getIndexes] finds no index, [useIndexRange] leaves the heap
    exactly as it was (no plan is cloned, no node is created, nothing that
    can throw is attempted) and does not throw: it returns [out] unchanged
    with [keep = true], unless a node lookup fails on the way. *)
Theorem useIndexRange_without_index getIndexes clone plan out m :
  (∀ collection attrs, getIndexes collection attrs = []) →
  (run (useIndexRange getIndexes clone plan out) m).2 = m
  ∧ ((run (useIndexRange getIndexes clone plan out) m).1 = Returned (out, true)
     ∨ ∃ failure,
         (run (useIndexRange getIndexes clone plan out) m).1 = Aborted failure).
Proof.
  intros no_index. unfold useIndexRange. rewrite run_bind. cbn [loadPlan run].
  destruct (plans m !! plan) as [p|]; [|by eauto].
  rewrite run_bind.
  destruct (useIndexRange_loop_without_index getIndexes clone no_index plan out
              (findNodesOfType p FILTER true) m) as [Hm Ho].
  match goal with
  | |- context [run (forEach ?body ?l) m] =>
      destruct (run (forEach body l) m) as [o m1]
  end.
  simpl in Hm, Ho. subst m1. destruct o as [[]|e|fl].
  - by eauto.
  - by destruct (Ho e).
  - by eauto.
Qed.

Lemma useIndexRange_without_index_witness :
  (run (useIndexRange (λ _ _, []) cloneKeepingIds 0 []) example_memory).2
  = example_memory
  ∧ ((run (useIndexRange (λ _ _, []) cloneKeepingIds 0 []) example_memory).1
     = Returned ([], true)
     ∨ ∃ failure,
         (run (useIndexRange (λ _ _, []) cloneKeepingIds 0 []) example_memory).1
         = Aborted failure).
Proof.
  by apply (useIndexRange_without_index (λ _ _, []) cloneKeepingIds 0 []
              example_memory).
Defined.

(** ** Filters on variables that do not come from a collection *)

Section NoCollectionVariable.
Context (getIndexes : string → list string → list Index).
Context (clone : ExecutionPlan → ExecutionPlan).
Context (p : ExecutionPlan) (var : AqlVariable).
Hypothesis uncorrelated : Forall (mentionsNoCollectionVariable p) (calculationsOf p var).

Lemma calculationsOf_elem id C expression outVariable :
  getNodeById p id = Some C →
  data C = CalculationNode expression outVariable →
  var_id outVariable = var_id var →
  expression ∈ calculationsOf p var.
Proof.
  intros Hid Hdata Hvar. unfold calculationsOf.
  apply list_elem_of_omap. exists (id, C). split.
  - by apply elem_of_map_to_list.
  - simpl. rewrite Hdata. by rewrite bool_decide_eq_true_2.
Qed.

Lemma before_keeps_ranges_empty en f m :
  plans m !! _plan f = Some p →
  _var f = var →
  _ranges f = ∅ →
  ∃ o f',
    run (before getIndexes clone en) (f, m) = (o, (f', m))
    ∧ (∀ e, o ≠ Thrown e)
    ∧ _plan f' = _plan f ∧ _var f' = var ∧ _ranges f' = ∅ ∧ _out f' = _out f.
Proof.
  intros Hplan Hvar Hranges.
  unfold before. rewrite run_bind. cbn [getFinder run]. rewrite run_bind.
  cbn [onMemory loadPlan run]. rewrite Hplan.
  destruct (getNodeById p en) as [EN|] eqn:Hen; [|by eauto 10].
  rewrite run_bind.
  destruct (data EN) as [|vocbase collection v| | |expression outVariable| | |]
    eqn:Hdata; try (by eauto 10).
  - unfold RangesInfo_find. rewrite Hranges, lookup_empty. by eauto 10.
  - rewrite Hvar. case_bool_decide as Hid; [|by eauto 10].
    pose proof (calculationsOf_elem en EN expression outVariable Hen Hdata Hid)
      as Hin.
    rewrite Forall_forall in uncorrelated. specialize (uncorrelated _ Hin).
    unfold mentionsNoCollectionVariable in uncorrelated.
    rewrite Forall_forall in uncorrelated.
    destruct (buildRangeInfo_without_collection_variable p (node expression) ""
                (_ranges f) uncorrelated) as [attr' Heq].
    rewrite Heq. cbn. eexists _, _. split; [reflexivity|]. by rewrite Hranges.
Qed.

Lemma walk_keeps_ranges_empty fuel : ∀ en f m,
  plans m !! _plan f = Some p →
  _var f = var →
  _ranges f = ∅ →
  ∃ o f',
    run (walk getIndexes clone fuel en) (f, m) = (o, (f', m))
    ∧ (∀ e, o ≠ Thrown e)
    ∧ _ranges f' = ∅ ∧ _out f' = _out f.
Proof.
  induction fuel as [|fuel IH]; intros en f m Hplan Hvar Hranges.
  - exists (Returned tt), f. by repeat split.
  - cbn [walk]. rewrite run_bind.
    destruct (before_keeps_ranges_empty en f m Hplan Hvar Hranges)
      as (o & f1 & Hrun & Ho & Hplan1 & Hvar1 & Hranges1 & Hout1).
    rewrite Hrun. destruct o as [[]|e|fl]; [|by destruct (Ho e)|by eauto 10].
    rewrite run_bind. cbn [getFinder run]. rewrite run_bind.
    cbn [onMemory loadPlan run]. rewrite Hplan1, Hplan.
    destruct (_dependencies <$> getNodeById p en) as [[|d [|]]|];
      try (by eauto 10).
    destruct (IH d f1 m) as (o & f' & Hrun' & Ho' & Hranges' & Hout');
      [by rewrite Hplan1|done|done|].
    exists o, f'. rewrite Hrun'. split; [done|]. split; [done|].
    split; [done|]. by rewrite Hout'.
Qed.

End NoCollectionVariable.

(** X13: the walk [useIndexRange] starts at a filter node finds nothing to
    do when no Calculation node that sets the filter's variable refers to a
    variable of an EnumerateCollection node: the ranges of the finder are
    still empty when the walk ends, its [_out] is the list it was
    constructed with, and the heap is exactly as it was, whatever indexes
    the collections have. *)
Theorem useIndexRange_walk_without_collection_variable
    getIndexes clone plan out n m p N var :
  plans m !! plan = Some p →
  getNodeById p n = Some N →
  getVariablesUsedHere N = [var] →
  Forall (mentionsNoCollectionVariable p) (calculationsOf p var) →
  (∃ finder,
     run (useIndexRange_walk getIndexes clone plan out n) m = (Returned finder, m)
     ∧ _ranges finder = ∅
     ∧ _out finder = out)
  ∨ (∃ failure,
       run (useIndexRange_walk getIndexes clone plan out n) m
       = (Aborted failure, m)).
Proof.
  intros Hplan Hn Hvars Huncorrelated.
  unfold useIndexRange_walk. rewrite run_bind. cbn [loadPlan run].
  rewrite Hplan, Hn, Hvars. cbn [run].
  destruct (walk_keeps_ranges_empty getIndexes clone p var Huncorrelated
              (size (_ids p)) n (CalculationNodeFinder_new plan var out) m)
    as (o & f' & Hrun & Ho & Hranges & Hout); [done..|].
  rewrite Hrun. destruct o as [[]|e|fl].
  - left. by exists f'.
  - by destruct (Ho e).
  - right. by exists fl.
Qed.

Lemma useIndexRange_walk_without_collection_variable_witness :
  (∃ finder,
     run (useIndexRange_walk example_getIndexes cloneKeepingIds 0 [] 4)
         (mkMemory {[0 := let_plan]} ∅ 1 []) 
     = (Returned finder, mkMemory {[0 := let_plan]} ∅ 1 [])
     ∧ _ranges finder = ∅
     ∧ _out finder = [])
  ∨ (∃ failure,
       run (useIndexRange_walk example_getIndexes cloneKeepingIds 0 [] 4)
           (mkMemory {[0 := let_plan]} ∅ 1 [])
       = (Aborted failure, mkMemory {[0 := let_plan]} ∅ 1 [])).
Proof.
  apply (useIndexRange_walk_without_collection_variable example_getIndexes
           cloneKeepingIds 0 [] 4 (mkMemory {[0 := let_plan]} ∅ 1 []) let_plan
           (mkNode 4 (FilterNode var_t) [3] [5] ∅) var_t).
  - reflexivity.
  - reflexivity.
  - reflexivity.
  - unfold mentionsNoCollectionVariable.
    apply (bool_decide_unpack _). by vm_compute.
Defined.

(** ** The loop body when nothing throws *)

(** X22: the body of the loop of [before] over the indexes, when nothing
    throws and the node the finder saw last ([_prev]) lists the
    EnumerateCollection node as a dependency in the clone: the clone is a
    new plan object and the only change to the heap (the IndexRange node is
    owned by it); in it a node with a new id holds the IndexRange node for
    the collection, the variable, the index and the ranges, and [_prev]
    depends on that node where it depended on the EnumerateCollection node;
    the clone is appended to the finder's [_out]. *)
Theorem substituteIndex_splices_index_range
    clone node vocbase collection outVariable rangeInfo idx f m
    original prev Old Par :
  heapFresh m →
  calm m →
  plans m !! _plan f = Some original →
  _prev f = Some prev →
  idsBounded (clone original) →
  getNodeById (clone original) (_id node) = Some Old →
  getNodeById (clone original) prev = Some Par →
  _id node ∈ _dependencies Par →
  let newPlan := nextAddress m in
  let newId := S (_nextId (clone original)) in
  ∃ m' plan',
    run (substituteIndex clone node vocbase collection outVariable rangeInfo idx)
        (f, m) = (Returned tt, (pushOut newPlan f, m'))
    ∧ plans m' = <[newPlan := plan']> (plans m)
    ∧ looseNodes m' = looseNodes m
    ∧ getNodeById (clone original) newId = None
    ∧ (∃ New,
         getNodeById plan' newId = Some New
         ∧ data New = IndexRangeNode vocbase collection outVariable idx rangeInfo)
    ∧ (∃ Par',
         getNodeById plan' prev = Some Par'
         ∧ _dependencies Par' = replaceId (_id node) newId (_dependencies Par)).
Proof.
  intros Hfresh Hcalm Horig Hprev Hb HOld HPar Hdep newPlan newId.
  pose proof (idsBounded_registered _ _ _ Hb HOld) as HneOld.
  pose proof (idsBounded_registered _ _ _ Hb HPar) as HnePar.
  set (New := mkNode newId
                (IndexRangeNode vocbase collection outVariable idx rangeInfo)
                [] [] ∅).
  set (registered := registerNode New (nextId (clone original)).2).
  destruct (replaceNode_spec registered (_id node) newId prev Old New Par)
    as (plan' & Hreplace & _ & (New' & HNew' & HdataNew & _)
        & (Par' & HPar' & _ & HdepsPar')).
  { unfold registered, registerNode, getNodeById. cbn [_ids withIds nextId snd _id New].
    by rewrite lookup_insert_ne by (subst newId; done). }
  { unfold registered, registerNode, getNodeById. cbn [_ids withIds nextId snd _id New].
    by rewrite lookup_insert_eq. }
  { unfold registered, registerNode, getNodeById. cbn [_ids withIds nextId snd _id New].
    by rewrite lookup_insert_ne by (subst newId; done). }
  { done. }
  { subst newId. done. }
  destruct m as [ps ns next fs]. simpl in Horig, newPlan.
  destruct (Hfresh next) as [_ Hn0]; [simpl; lia|].
  destruct (Hfresh (S next)) as [_ Hn1]; [simpl; lia|].
  simpl in Hn0, Hn1. unfold calm in Hcalm. simpl in Hcalm.
  assert (Hshape : fs = [] ∨ fs = [false] ∨ fs = [false; false]
                   ∨ ∃ rest, fs = false :: false :: false :: rest).
  { destruct fs as [|b1 [|b2 [|b3 rest]]]; [by left|..].
    - right; left. by apply Forall_cons in Hcalm as [-> _].
    - right; right; left. apply Forall_cons in Hcalm as [-> Hcalm].
      by apply Forall_cons in Hcalm as [-> _].
    - right; right; right. exists rest.
      apply Forall_cons in Hcalm as [-> Hcalm].
      apply Forall_cons in Hcalm as [-> Hcalm].
      by apply Forall_cons in Hcalm as [-> _]. }
  exists (mkMemory (<[next := plan']> ps) ns (S (S next)) (drop 3 fs)), plan'.
  split.
  - unfold substituteIndex.
    destruct Hshape as [->|[->|[->|[rest ->]]]].
    all: cbn -[replaceNode]; rewrite Horig; cbn -[replaceNode];
      rewrite lookup_insert_eq; cbn -[replaceNode];
      rewrite lookup_insert_eq; cbn -[replaceNode];
      rewrite lookup_insert_eq; cbn -[replaceNode];
      rewrite Hprev; cbn -[replaceNode];
      rewrite lookup_insert_eq; cbn -[replaceNode].
    all: fold newId; fold New; change (registerNode New _) with registered;
      rewrite Hreplace; cbn;
      rewrite !insert_insert_eq, delete_insert_id by done; reflexivity.
  - simpl. split; [done|]. split; [done|].
    split; [apply (idsBounded_fresh _ _ Hb); subst newId; lia|].
    split; [by exists New'|by exists Par'].
Qed.

Lemma idsBounded_example_plan : idsBounded (cloneKeepingIds example_plan).
Proof. unfold idsBounded. apply (bool_decide_unpack _). by vm_compute. Qed.

Lemma substituteIndex_splices_index_range_witness :
  ∃ m' plan',
    run (substituteIndex cloneKeepingIds example_enumerate "_system" "coll" var_p
           [mkRange (Some (mkBound five true)) (Some (mkBound five true))] index_a)
        (example_finder, example_memory)
    = (Returned tt, (pushOut 1 example_finder, m'))
    ∧ plans m' = <[1 := plan']> (plans example_memory)
    ∧ looseNodes m' = looseNodes example_memory
    ∧ getNodeById (cloneKeepingIds example_plan) 6 = None
    ∧ (∃ New,
         getNodeById plan' 6 = Some New
         ∧ data New
           = IndexRangeNode "_system" "coll" var_p index_a
               [mkRange (Some (mkBound five true)) (Some (mkBound five true))])
    ∧ (∃ Par',
         getNodeById plan' 3 = Some Par'
         ∧ _dependencies Par' = replaceId 2 6 [2]).
Proof.
  apply (substituteIndex_splices_index_range cloneKeepingIds example_enumerate
           "_system" "coll" var_p
           [mkRange (Some (mkBound five true)) (Some (mkBound five true))]
           index_a example_finder example_memory example_plan 3
           example_enumerate
           (mkNode 3 (CalculationNode (mkExpression example_condition) var_t)
              [2] [4] ∅)).
  - exact heapFresh_example_memory.
  - constructor.
  - reflexivity.
  - reflexivity.
  - exact idsBounded_example_plan.
  - reflexivity.
  - reflexivity.
  - simpl. by left.
Defined.
(** ** The rule on a filter that is always false *)

Lemma alter_keeps (Q : ExecutionNode → Prop) (f : ExecutionNode → ExecutionNode) k
    (m : gmap nat ExecutionNode) id :
  (∀ N, Q N → Q (f N)) →
  (∃ P, m !! id = Some P ∧ Q P) →
  ∃ P', alter f k m !! id = Some P' ∧ Q P'.
Proof.
  intros Hf (P & HP & HQ). destruct (decide (k = id)) as [->|Hne].
  - rewrite lookup_alter_eq, HP. simpl. eauto.
  - rewrite lookup_alter_ne by done. eauto.
Qed.

Lemma foldr_alter_keeps (Q : ExecutionNode → Prop)
    (f : ExecutionNode → ExecutionNode) ks (m : gmap nat ExecutionNode) id :
  (∀ N, Q N → Q (f N)) →
  (∃ P, m !! id = Some P ∧ Q P) →
  ∃ P', foldr (λ k m, alter f k m) m ks !! id = Some P' ∧ Q P'.
Proof.
  intros Hf HP. induction ks as [|k ks IH]; [done|].
  simpl. by apply alter_keeps.
Qed.

(** [replaceNode] leaves a dependency on a node other than the replaced one
    in place. *)
Lemma replaceNode_keeps_dependency old new parent plan plan' p x :
  replaceNode old new parent plan = Ok plan' →
  x ≠ old →
  dependsOn p x plan → dependsOn p x plan'.
Proof.
  unfold replaceNode. intros Hreplace Hx Hdep.
  destruct (getNodeById plan old) as [Old|] eqn:HO; [|done].
  destruct (getNodeById plan new) as [New|] eqn:HN; [|done].
  destruct (getNodeById plan parent) as [Par|] eqn:HP; [|done].
  destruct (bool_decide (old ∈ _dependencies Par)); [|done].
  injection Hreplace as <-.
  unfold dependsOn, getNodeById in *. cbn [_ids withIds].
  apply (alter_keeps (λ N, x ∈ _dependencies N)).
  { intros N HQ. unfold replaceDependency. cbn [_dependencies withDependencies].
    by apply elem_of_replaceId_ne. }
  apply (foldr_alter_keeps (λ N, x ∈ _dependencies N)); [done|].
  apply (alter_keeps (λ N, x ∈ _dependencies N)); [|done].
  intros N HQ. cbn [_dependencies withParents withDependencies].
  apply elem_of_app. by left.
Qed.

Lemma unlinkNode_data plan k plan' id K :
  unlinkNode plan k = Ok plan' →
  getNodeById plan id = Some K →
  ∃ K', getNodeById plan' id = Some K' ∧ data K' = data K.
Proof.
  intros Hunlink HK. pose proof Hunlink as Hcopy. unfold unlinkNode in Hcopy.
  destruct (getNodeById plan k) as [N|] eqn:HN; [|done].
  destruct (_dependencies N) as [|d [|]] eqn:Hdeps; try done.
  destruct (unlinkNode_lookup plan k N d HN Hdeps) as (plan'' & Hun & Hall).
  rewrite Hunlink in Hun. injection Hun as <-.
  destruct (Hall id K HK) as (K' & HK' & Hdata & _). by exists K'.
Qed.

Lemma unlinkNodes_data l : ∀ plan plan' id K,
  foldResult unlinkNode plan l = Ok plan' →
  getNodeById plan id = Some K →
  ∃ K', getNodeById plan' id = Some K' ∧ data K' = data K.
Proof.
  induction l as [|k l IH]; intros plan plan' id K.
  - intros [= <-] HK. by exists K.
  - rewrite foldResult_cons.
    destruct (unlinkNode plan k) as [plan1|] eqn:Hunlink; [|done].
    rewrite Result_bind_Ok. intros Hrest HK.
    destruct (unlinkNode_data plan k plan1 id K Hunlink HK) as (K1 & HK1 & Hd1).
    destruct (IH plan1 plan' id K1 Hrest HK1) as (K' & HK' & Hd').
    exists K'. split; [done|]. congruence.
Qed.

Section FalseFilter.
Context (isConstant toBoolean : AstNode → bool) (canThrow : Expression → bool).

Local Abbreviation body := (removeUnnecessaryFilters_body isConstant toBoolean canThrow).

(** One iteration leaves a dependency on a node other than the filter it
    looks at in place. *)
Lemma body_keeps_dependency plan toUnlink m plan' toUnlink' p x :
  idsBounded plan →
  body (plan, toUnlink) m = Ok (plan', toUnlink') →
  x ≠ m →
  dependsOn p x plan → dependsOn p x plan'.
Proof.
  intros Hb Hbody Hx Hdep. unfold removeUnnecessaryFilters_body in Hbody.
  destruct (getNodeById plan m) as [M|] eqn:HM; [|done].
  destruct (bool_decide (length (getVariablesUsedHere M) = 1));
    cbn [TRI_ASSERT] in Hbody; [rewrite Result_bind_Ok in Hbody|by simpl in Hbody].
  destruct (getVariablesUsedHere M) as [|variable ?]; [done|].
  destruct (getVarSetBy plan (var_id variable)) as [setter|];
    [|by injection Hbody as <- <-].
  destruct (data setter) as [| | | |expression ov| | |];
    try (by injection Hbody as <- <-).
  destruct (negb (isConstant (node expression))); [by injection Hbody as <- <-|].
  destruct (negb (canThrow expression)); cbn [TRI_ASSERT] in Hbody;
    [rewrite Result_bind_Ok in Hbody|by simpl in Hbody].
  destruct (toBoolean (node expression)); [by injection Hbody as <- <-|].
  destruct (bool_decide (length (_parents M) = 1));
    cbn [TRI_ASSERT] in Hbody; [rewrite Result_bind_Ok in Hbody|by simpl in Hbody].
  destruct (_parents M) as [|parent0 ?]; [done|].
  cbn [nextId new_NoResultsNode _id] in Hbody.
  destruct (replaceNode _ _ _ _) as [plan1|] eqn:Hreplace; [|done].
  rewrite Result_bind_Ok in Hbody. injection Hbody as <- <-.
  eapply replaceNode_keeps_dependency; [exact Hreplace|done|].
  destruct Hdep as (P & HP & Hin). exists P. split; [|done].
  unfold getNodeById, registerNode. cbn [_ids withIds _id].
  rewrite lookup_insert_ne; [done|].
  intros <-. by eapply idsBounded_registered.
Qed.

(** The rest of the scan. *)
Lemma scan_rest nodes : ∀ plan toUnlink plan' toUnlink',
  idsBounded plan →
  foldResult body (plan, toUnlink) nodes = Ok (plan', toUnlink') →
  idsBounded plan'
  ∧ sameNodes plan plan'
  ∧ ∀ p x, x ∉ nodes → dependsOn p x plan → dependsOn p x plan'.
Proof.
  induction nodes as [|m nodes IH]; intros plan toUnlink plan' toUnlink' Hb.
  - intros [= <- <-]. split; [done|]. split; [apply sameNodes_refl|done].
  - rewrite foldResult_cons.
    destruct (body (plan, toUnlink) m) as [[plan1 toUnlink1]|] eqn:Hbody; [|done].
    rewrite Result_bind_Ok. intros Hrest.
    destruct (body_sameNodes isConstant toBoolean canThrow plan toUnlink m
                plan1 toUnlink1 Hb Hbody) as [Hb1 Hsame1].
    destruct (IH plan1 toUnlink1 plan' toUnlink' Hb1 Hrest)
      as (Hb' & Hsame' & Hkeep).
    split; [done|]. split; [by eapply sameNodes_trans|].
    intros p x Hx Hdep. apply Hkeep; [set_solver|].
    apply (body_keeps_dependency plan toUnlink m plan1 toUnlink1 p x Hb Hbody);
      [set_solver|done].
Qed.

End FalseFilter.

(** C3: when the scan of [removeUnnecessaryFiltersRule] reaches a filter
    node whose input variable is set by a Calculation node with a constant
    expression that evaluates to false, the iteration asserts that the
    filter has exactly one parent (the rule aborts on the assertion
    otherwise), takes a new id from [nextId], registers a NoResults node
    under that id and calls [replaceNode] with the filter, the new node and
    that parent, and does not mark the filter for unlinking.  On a plan
    whose ids are bounded by the id counter and whose parent lists the
    filter as a dependency the new id is fresh, the NoResults node is
    registered under it, and the parent depends on it where it depended on
    the filter.  The rule as a whole, when the scan comes to its end and
    the nodes it marked can be unlinked, returns a plan (with [out] as it
    was and [keep = true]) in which the NoResults node is registered under
    the new id, which no node of the plan the rule was given had, and in
    which the filter's parent depends on the NoResults node; the filter is
    not among the nodes the rule unlinks. *)
Theorem removeUnnecessaryFilters_replaces_false_filter
    isConstant toBoolean canThrow plan0 out before n after
    plan toUnlink N expression :
  let body := removeUnnecessaryFilters_body isConstant toBoolean canThrow in
  let scan := removeUnnecessaryFilters_scan isConstant toBoolean canThrow in
  findNodesOfType plan0 FILTER true = before ++ n :: after →
  scan plan0 before = Ok (plan, toUnlink) →
  getNodeById plan n = Some N →
  constantFilterExpression isConstant plan n = Some expression →
  canThrow expression = false →
  toBoolean (node expression) = false →
  let newId := (nextId plan).1 in
  let registered := registerNode (new_NoResultsNode newId) (nextId plan).2 in
  (length (_parents N) ≠ 1 →
   scan plan0 (before ++ [n]) = Failed AssertionFailed
   ∧ removeUnnecessaryFiltersRule isConstant toBoolean canThrow plan0 out
     = Failed AssertionFailed)
  ∧ (∀ parent, _parents N = [parent] →
       scan plan0 (before ++ [n])
       = (plan' ← replaceNode n newId parent registered; Ok (plan', toUnlink))
       ∧ (∀ Par,
            idsBounded plan →
            getNodeById plan parent = Some Par →
            n ∈ _dependencies Par →
            ∃ plan',
              scan plan0 (before ++ [n]) = Ok (plan', toUnlink)
              ∧ getNodeById plan newId = None
              ∧ (∃ NoResults,
                   getNodeById plan' newId = Some NoResults
                   ∧ data NoResults = NoResultsNode
                   ∧ _id NoResults = newId)
              ∧ (∃ Par',
                   getNodeById plan' parent = Some Par'
                   ∧ _dependencies Par'
                     = replaceId n newId (_dependencies Par))))
  ∧ (∀ parent Par scanned marked,
       idsBounded plan0 →
       _parents N = [parent] →
       getNodeById plan parent = Some Par →
       n ∈ _dependencies Par →
       scan plan0 (findNodesOfType plan0 FILTER true) = Ok (scanned, marked) →
       (∀ m, m ∈ marked → singleDependency scanned m) →
       ∃ plan',
         removeUnnecessaryFiltersRule isConstant toBoolean canThrow plan0 out
         = Ok (plan', out, true)
         ∧ (n ∉ marked)
         ∧ getNodeById plan0 newId = None
         ∧ (∃ NoResults,
              getNodeById plan' newId = Some NoResults
              ∧ data NoResults = NoResultsNode)
         ∧ dependsOn parent newId plan').
Proof.
  intros body scan Hnodes Hbefore HN He Hthrow Hfalse newId registered.
  subst body scan. unfold removeUnnecessaryFilters_scan in *.
  destruct (body_replaces_false_filter isConstant toBoolean canThrow plan
              toUnlink n N expression HN He Hthrow Hfalse) as [Hassert Hone].
  rewrite (foldResult_snoc _ _ _ _ _ Hbefore). split; [|split].
  - intros Hlen. rewrite (Hassert Hlen). split; [done|].
    unfold removeUnnecessaryFiltersRule, removeUnnecessaryFilters_scan.
    rewrite Hnodes, foldResult_app, Hbefore, Result_bind_Ok, foldResult_cons.
    by rewrite (Hassert Hlen).
  - intros parent Hparent. destruct (Hone parent Hparent) as [Hbody Hwf].
    split; [exact Hbody|]. exact Hwf.
  - intros parent Par scanned marked Hb0 Hparent HPar Hdep Hscan Hsingle.
    subst registered newId. set (newId := (nextId plan).1) in *.
    (* the nodes of the scan are filter nodes of the plan *)
    assert (Hfilters : Forall (λ m, ∃ M, getNodeById plan0 m = Some M
                                         ∧ getType M = FILTER)
                         (findNodesOfType plan0 FILTER true)).
    { apply Forall_forall. intros m Hm. by eapply findNodes_registered. }
    pose proof Hfilters as Hparts. rewrite Hnodes in Hparts.
    apply Forall_app in Hparts as [Hfbefore Hfrest].
    apply Forall_cons in Hfrest as [_ Hfafter].
    (* the plan when the scan reaches the filter *)
    destruct (scan_marks isConstant toBoolean canThrow plan0 before plan0 ∅
                plan toUnlink Hb0 (sameNodes_refl plan0) Hfbefore Hbefore)
      as (Hb & Hsame & _).
    destruct (Hone parent Hparent) as [_ Hwf].
    destruct (Hwf Par Hb HPar Hdep)
      as (plan1 & Hbody & Hfresh & (NR & HNR & HdataNR & _)
          & (Par' & HPar' & HdepsPar')).
    assert (Hnew0 : getNodeById plan0 newId = None).
    { destruct (getNodeById plan0 newId) as [M0|] eqn:HM0; [|done].
      destruct Hsame as [_ Hsame]. specialize (Hsame newId).
      rewrite HM0, Hfresh in Hsame. done. }
    assert (Hnotfilter : newId ∉ findNodesOfType plan0 FILTER true).
    { intros Hin. rewrite Forall_forall in Hfilters.
      destruct (Hfilters newId Hin) as (M & HM & _). congruence. }
    (* the rest of the scan *)
    pose proof Hscan as Hrest.
    rewrite Hnodes, foldResult_app, Hbefore, Result_bind_Ok, foldResult_cons,
      Hbody, Result_bind_Ok in Hrest.
    destruct (body_sameNodes isConstant toBoolean canThrow plan toUnlink n
                plan1 toUnlink Hb Hbody) as [Hb1 _].
    destruct (scan_rest isConstant toBoolean canThrow after plan1 toUnlink
                scanned marked Hb1 Hrest) as (_ & Hsame2 & Hkeep).
    assert (Hdep2 : dependsOn parent newId scanned).
    { apply Hkeep.
      - intros Hin. apply Hnotfilter. rewrite Hnodes. set_solver.
      - exists Par'. split; [done|]. rewrite HdepsPar'.
        by apply elem_of_replaceId_new. }
    assert (HNR2 : ∃ NR2, getNodeById scanned newId = Some NR2
                          ∧ data NR2 = NoResultsNode).
    { destruct Hsame2 as [_ Hsame2]. specialize (Hsame2 newId).
      rewrite HNR in Hsame2.
      destruct (getNodeById scanned newId) as [NR2|]; [|done].
      exists NR2. split; [done|]. injection Hsame2 as ->. done. }
    (* the nodes the scan marked *)
    destruct (scan_marks isConstant toBoolean canThrow plan0
                (findNodesOfType plan0 FILTER true) plan0 ∅ scanned marked
                Hb0 (sameNodes_refl plan0) Hfilters Hscan)
      as (_ & _ & Hmarks).
    assert (Hn : n ∉ marked).
    { rewrite Hmarks. intros [Hin|[_ Htrue]]; [set_solver|].
      unfold alwaysTrueFilter in Htrue.
      rewrite <- (constantFilterExpression_sameNodes isConstant plan0 plan n
                    Hsame) in Htrue.
      rewrite He, Hfalse in Htrue. done. }
    assert (Hnewmarked : newId ∉ elements marked).
    { rewrite elem_of_elements, Hmarks. intros [Hin|[Hin _]]; [set_solver|].
      by apply Hnotfilter. }
    (* the unlinking *)
    destruct (unlinkNodes_after newId parent (elements marked) scanned)
      as (plan' & Hunlink & Hdep'); [done| |done|].
    { apply Forall_forall. intros m Hm. apply Hsingle.
      by apply elem_of_elements. }
    destruct HNR2 as (NR2 & HNR2 & HdataNR2).
    destruct (unlinkNodes_data (elements marked) scanned plan' newId NR2
                Hunlink HNR2) as (NR' & HNR' & HdataNR').
    exists plan'. split.
    { unfold removeUnnecessaryFiltersRule, removeUnnecessaryFilters_scan.
      rewrite Hscan, Result_bind_Ok. case_bool_decide as Hempty.
      - unfold unlinkNodes. by rewrite Hunlink.
      - assert (marked = ∅) as -> by (destruct (decide (marked = ∅)); done).
        rewrite elements_empty in Hunlink. by injection Hunlink as <-. }
    split; [done|]. split; [done|]. split; [|done].
    exists NR'. split; [done|]. congruence.
Qed.

Lemma removeUnnecessaryFilters_false_witness :
  ∃ plan',
    removeUnnecessaryFiltersRule valueIsConstant valueToBoolean
      throwsUnlessConstant false_plan [] = Ok (plan', [], true)
    ∧ (4 ∉ (∅ : gset nat))
    ∧ getNodeById false_plan 6 = None
    ∧ (∃ NoResults,
         getNodeById plan' 6 = Some NoResults ∧ data NoResults = NoResultsNode)
    ∧ dependsOn 5 6 plan'.
Proof.
  apply (proj2
    (proj2 (removeUnnecessaryFilters_replaces_false_filter
              valueIsConstant valueToBoolean throwsUnlessConstant
              false_plan [] [] 4 [] false_plan ∅
              (mkNode 4 (FilterNode var_t) [3] [5] ∅)
              (mkExpression (AstValue (JBool false)))
              eq_refl eq_refl eq_refl eq_refl eq_refl eq_refl))
    5 (mkNode 5 (ReturnNode var_p) [4] [] ∅) noResults_plan ∅).
  - exact idsBounded_false_plan.
  - reflexivity.
  - reflexivity.
  - apply list_elem_of_here.
  - by vm_compute.
  - intros m Hm. set_solver.
Defined.
End AqlTheory.

Module CursorTheory.
Import Cursor.

(** ** Properties of parsed objects *)

Lemma lookupProperty_filter_ne props key k :
  k ≠ key →
  lookupProperty (filter (λ kv : string * Json, kv.1 ≠ key) props) k
  = lookupProperty props k.
Proof.
  intros Hne. induction props as [|[k' v] props IH]; [done|].
  rewrite filter_cons. simpl. case_decide as Hk; simpl.
  - by rewrite IH.
  - rewrite IH. simpl in Hk. subst k'.
    by rewrite bool_decide_eq_false_2 by done.
Qed.

Lemma lookupProperty_filter_eq props key :
  lookupProperty (filter (λ kv : string * Json, kv.1 ≠ key) props) key = None.
Proof.
  induction props as [|[k' v] props IH]; [done|].
  rewrite filter_cons. simpl. case_decide as Hk; simpl; [|done].
  by rewrite bool_decide_eq_false_2 by done.
Qed.

Lemma getProperty_removeProperty_ne json key k :
  k ≠ key → getProperty (removeProperty key json) k = getProperty json k.
Proof.
  intros Hne. destruct json; try done. simpl.
  by apply lookupProperty_filter_ne.
Qed.

Lemma js_or_falsy a b : truthy a = false → js_or a b = b.
Proof. intros H. unfold js_or. by rewrite H. Qed.

Lemma cursorOptions_falsy_batchSize json :
  truthy (getProperty json "batchSize") = false →
  cursorOptions (removeProperty "batchSize" json) = cursorOptions json.
Proof.
  intros Hfalsy. unfold cursorOptions.
  rewrite (getProperty_removeProperty_ne json "batchSize" "ttl") by done.
  rewrite (getProperty_removeProperty_ne json "batchSize" "count") by done.
  rewrite (getProperty_removeProperty_ne json "batchSize" "options") by done.
  rewrite (js_or_falsy (getProperty json "batchSize")) by done.
  destruct json; try done. simpl.
  by rewrite lookupProperty_filter_eq.
Qed.

Lemma foldl_insert_lookup_ne {A} (f : A → string) (g : A → JsValue)
    (skip : A → bool) (l : list A) (options : gmap string JsValue) key :
  key ∉ f <$> l →
  foldl (λ opts a, if skip a then opts else <[f a := g a]> opts) options l !! key
  = options !! key.
Proof.
  revert options. induction l as [|a l IH]; intros options Hnot; [done|].
  rewrite fmap_cons, not_elem_of_cons in Hnot. destruct Hnot as [Hne Hnot].
  simpl. rewrite IH by done. destruct (skip a); [done|].
  by rewrite lookup_insert_ne.
Qed.

Lemma copyOwnProperties_lookup_ne o options options' key :
  copyOwnProperties o options = Normal options' →
  match o with
  | JObject props => key ∉ props.*1
  | JArray items => key ∉ pretty <$> seq 0 (length items)
  | _ => True
  end →
  options' !! key = options !! key.
Proof.
  unfold copyOwnProperties. destruct o as [| | | |items|props]; try by intros [= <-].
  - intros [= <-] Hnot.
    apply (foldl_insert_lookup_ne pretty (λ i, items !! i) (λ _, false)). done.
  - case_bool_decide; [done|]. intros [= <-] Hnot.
    apply (foldl_insert_lookup_ne fst (λ kv, lookupProperty props kv.1)
             (λ kv, bool_decide (kv.1 = "__proto__"))). done.
Qed.

Lemma cursorOptions_not_overridden json options key :
  cursorOptions json = Normal options →
  optionsOverride key json = false →
  options !! key
  = (<["ttl" := getProperty json "ttl"]>
       (<["batchSize" := js_or (getProperty json "batchSize") (Some (JNumber 1000))]>
          (<["count" := js_or (getProperty json "count") (Some (JBool false))]>
             (∅ : gmap string JsValue)))) !! key.
Proof.
  unfold cursorOptions, optionsOverride.
  destruct (getProperty json "options") as [[| | | |items|props]|];
    try by intros [= <-].
  - intros Hcopy Hover. apply bool_decide_eq_false in Hover.
    by eapply (copyOwnProperties_lookup_ne (JArray items)).
  - intros Hcopy Hover. apply bool_decide_eq_false in Hover.
    by eapply (copyOwnProperties_lookup_ne (JObject props)).
Qed.

(** ** The cursor actions *)



(** C10 does not hold for every body with a falsy [batchSize]: a body that
    also carries [options: {batchSize: 0}] has its [batchSize] of 1000
    overwritten by the loop over [json.options], and the options handed to
    [AQL_EXECUTE] ask for a batch size of zero. *)
Lemma cursorOptions_zero_batchSize_through_options :
  truthy (getProperty zeroBatchBody "batchSize") = false
  ∧ requestedOption "batchSize" (cursorOptions zeroBatchBody)
    = Some (Some (JNumber 0))
  ∧ post_api_cursor reportBatchSize sendPlainly
      (mkRequest POST [] (Some zeroBatchBody))
    = Normal (resultException "batchSize is 0").
Proof. split; [reflexivity|]. split; by vm_compute. Qed.

(** C10, as the code has it: a body whose [batchSize] is absent or falsy
    (0, null, false, the empty string) is handled exactly like the same
    body without [batchSize]: the same options object is built and the same
    response is given.  Unless [json.options] has an own property of that
    name, the options object holds [batchSize = 1000], and [count = false]
    when the body's [count] is absent or falsy. *)
Theorem post_api_cursor_falsy_batchSize
    AQL_EXECUTE sendCursor json (suffixes : list string) :
  truthy (getProperty json "batchSize") = false →
  cursorOptions json = cursorOptions (removeProperty "batchSize" json)
  ∧ post_api_cursor AQL_EXECUTE sendCursor (mkRequest POST suffixes (Some json))
    = post_api_cursor AQL_EXECUTE sendCursor
        (mkRequest POST suffixes (Some (removeProperty "batchSize" json)))
  ∧ (∀ options,
       cursorOptions json = Normal options →
       (optionsOverride "batchSize" json = false →
        options !! "batchSize" = Some (Some (JNumber 1000)))
       ∧ (truthy (getProperty json "count") = false →
          optionsOverride "count" json = false →
          options !! "count" = Some (Some (JBool false)))).
Proof.
  intros Hfalsy.
  pose proof (cursorOptions_falsy_batchSize json Hfalsy) as Hsame.
  split; [done|]. split.
  - unfold post_api_cursor. cbn [suffix jsonBody].
    rewrite Hsame.
    rewrite (getProperty_removeProperty_ne json "batchSize" "query") by done.
    rewrite (getProperty_removeProperty_ne json "batchSize" "bindVars") by done.
    by rewrite (getProperty_removeProperty_ne json "batchSize" "count") by done.
  - intros options Hoptions. split.
    + intros Hover.
      rewrite (cursorOptions_not_overridden json options "batchSize") by done.
      rewrite lookup_insert_ne, lookup_insert_eq by done.
      by rewrite js_or_falsy.
    + intros Hcount Hover.
      rewrite (cursorOptions_not_overridden json options "count") by done.
      rewrite !lookup_insert_ne, lookup_insert_eq by done.
      by rewrite js_or_falsy.
Qed.

Lemma post_api_cursor_falsy_batchSize_witness :
  cursorOptions (JObject [("query", JString "RETURN 1"); ("batchSize", JNull)])
  = cursorOptions (JObject [("query", JString "RETURN 1")])
  ∧ requestedOption "batchSize"
      (cursorOptions (JObject [("query", JString "RETURN 1"); ("batchSize", JNull)]))
    = Some (Some (JNumber 1000)).
Proof.
  pose proof (post_api_cursor_falsy_batchSize reportBatchSize sendPlainly
                (JObject [("query", JString "RETURN 1"); ("batchSize", JNull)])
                [] eq_refl) as (Hsame & _ & Hoptions).
  split; [exact Hsame|].
  destruct (cursorOptions (JObject [("query", JString "RETURN 1"); ("batchSize", JNull)]))
    as [options|] eqn:Hc; [|by vm_compute in Hc].
  simpl. by apply (Hoptions options eq_refl).
Defined.

(** ** The options object *)

Lemma lookupProperty_elem props key v :
  lookupProperty props key = Some v → key ∈ props.*1.
Proof.
  induction props as [|[k w] props IH]; [done|]. simpl.
  case_bool_decide as Hk; [intros _; subst; by left|].
  intros H. right. by apply IH.
Qed.

Lemma foldl_copy_lookup (all props : list (string * Json)) key :
  key ∈ props.*1 →
  key ≠ "__proto__" →
  ∀ options : gmap string JsValue,
    foldl (λ opts (kv : string * Json),
             if bool_decide (kv.1 = "__proto__") then opts
             else <[kv.1 := lookupProperty all kv.1]> opts)
          options props !! key
    = Some (lookupProperty all key).
Proof.
  intros Hkey Hproto. induction props as [|[k w] props IH]; intros options.
  - by apply elem_of_nil in Hkey.
  - simpl in *. destruct (decide (key ∈ props.*1)) as [Hin|Hnotin].
    + by apply IH.
    + apply elem_of_cons in Hkey as [<-|?]; [|done].
      rewrite (foldl_insert_lookup_ne (λ kv : string * Json, kv.1)
                 (λ kv, lookupProperty all kv.1)
                 (λ kv, bool_decide (kv.1 = "__proto__"))) by done.
      rewrite bool_decide_eq_false_2 by done. by rewrite lookup_insert_eq.
Qed.

Lemma copyOwnProperties_lookup props options key :
  lookupProperty props "hasOwnProperty" = None →
  key ∈ props.*1 →
  key ≠ "__proto__" →
  ∃ options',
    copyOwnProperties (JObject props) options = Normal options'
    ∧ options' !! key = Some (lookupProperty props key).
Proof.
  intros Hown Hkey Hproto. unfold copyOwnProperties.
  rewrite Hown. rewrite bool_decide_eq_false_2 by (by intros [? ?]).
  eexists. split; [reflexivity|]. by apply foldl_copy_lookup.
Qed.

Lemma cursorOptions_lookup json props key :
  getProperty json "options" = Some (JObject props) →
  lookupProperty props "hasOwnProperty" = None →
  key ∈ props.*1 →
  key ≠ "__proto__" →
  ∃ options,
    cursorOptions json = Normal options
    ∧ options !! key = Some (lookupProperty props key).
Proof.
  intros Hoptions Hown Hkey Hproto. unfold cursorOptions. rewrite Hoptions.
  by apply copyOwnProperties_lookup.
Qed.

(** X14: when [json.options] is an object (without an own property
    [hasOwnProperty]), every own property of it other than [__proto__] is
    in the options object [post_api_cursor] builds, with the value it has
    in [json.options]: it overrides the [count], [batchSize] and [ttl]
    taken from the body itself, and any other name is passed on as well. *)
Theorem cursorOptions_own_properties_override json props key :
  getProperty json "options" = Some (JObject props) →
  lookupProperty props "hasOwnProperty" = None →
  key ∈ props.*1 →
  key ≠ "__proto__" →
  ∃ options,
    cursorOptions json = Normal options
    ∧ options !! key = Some (lookupProperty props key).
Proof.
  intros Hoptions Hown Hkey Hproto. by apply cursorOptions_lookup.
Qed.

Lemma cursorOptions_own_properties_override_witness :
  ∃ options,
    cursorOptions zeroBatchBody = Normal options
    ∧ options !! "batchSize"
      = Some (lookupProperty [("batchSize", JNumber 0)] "batchSize").
Proof.
  apply (cursorOptions_own_properties_override zeroBatchBody
           [("batchSize", JNumber 0)] "batchSize").
  - reflexivity.
  - reflexivity.
  - simpl. set_solver.
  - done.
Defined.

Lemma foldl_index_lookup (g : nat → JsValue) (l : list nat) i :
  i ∈ l →
  ∀ options : gmap string JsValue,
    foldl (λ opts j, <[pretty j := g j]> opts) options l !! pretty i
    = Some (g i).
Proof.
  induction l as [|j l IH] using rev_ind; intros Hi options.
  - by apply elem_of_nil in Hi.
  - rewrite foldl_app. simpl.
    destruct (decide (j = i)) as [->|Hne]; [by rewrite lookup_insert_eq|].
    rewrite lookup_insert_ne by (intros Heq; by apply pretty_nat_inj in Heq).
    apply IH. apply elem_of_app in Hi as [?|Hi]; [done|].
    apply list_elem_of_singleton in Hi. congruence.
Qed.

(** X21: an array is accepted as [json.options] ([typeof] says [object]
    for it too): every element is copied into the options object under its
    index, written as a decimal string. *)
Theorem cursorOptions_array_options json items i item :
  getProperty json "options" = Some (JArray items) →
  items !! i = Some item →
  ∃ options,
    cursorOptions json = Normal options
    ∧ options !! pretty i = Some (Some item).
Proof.
  intros Hoptions Hitem. unfold cursorOptions. rewrite Hoptions.
  unfold copyOwnProperties. eexists. split; [reflexivity|].
  rewrite (foldl_index_lookup (λ j, items !! j)).
  - by rewrite Hitem.
  - apply elem_of_seq. apply lookup_lt_Some in Hitem. lia.
Qed.

Lemma cursorOptions_array_options_witness :
  ∃ options,
    cursorOptions
      (JObject [ ("query", JString "RETURN 1");
                 ("options", JArray [JNumber 7; JBool true]) ])
    = Normal options
    ∧ options !! pretty 1 = Some (Some (JBool true)).
Proof.
  by apply (cursorOptions_array_options
              (JObject [ ("query", JString "RETURN 1");
                         ("options", JArray [JNumber 7; JBool true]) ])
              [JNumber 7; JBool true] 1 (JBool true)).
Defined.

(** X15: unless [json.options] has an own property [batchSize], the
    options object [post_api_cursor] builds from an object body holds as
    [batchSize] the body's own [batchSize] when that is truthy (of whatever
    type) and 1000 otherwise; either way the value is truthy. *)
Theorem cursorOptions_batchSize_truthy fields options :
  let json := JObject fields in
  cursorOptions json = Normal options →
  optionsOverride "batchSize" json = false →
  options !! "batchSize"
  = Some (if truthy (getProperty json "batchSize")
          then getProperty json "batchSize" else Some (JNumber 1000))
  ∧ ∃ v, options !! "batchSize" = Some v ∧ truthy v = true.
Proof.
  intros json Hoptions Hover.
  rewrite (cursorOptions_not_overridden json options "batchSize" Hoptions Hover).
  rewrite lookup_insert_ne by done. rewrite lookup_insert_eq.
  unfold js_or. split; [done|].
  eexists. split; [reflexivity|].
  by destruct (truthy (getProperty json "batchSize")) eqn:Ht.
Qed.

Lemma cursorOptions_batchSize_truthy_witness :
  (<["ttl" := None]>
     (<["batchSize" := Some (JString "many")]>
        (<["count" := Some (JBool false)]> (∅ : gmap string JsValue))))
  !! "batchSize" = Some (Some (JString "many"))
  ∧ ∃ v,
      (<["ttl" := None]>
         (<["batchSize" := Some (JString "many")]>
            (<["count" := Some (JBool false)]> (∅ : gmap string JsValue))))
      !! "batchSize" = Some v
      ∧ truthy v = true.
Proof.
  apply (cursorOptions_batchSize_truthy
           [("query", JString "RETURN 1"); ("batchSize", JString "many")]).
  - reflexivity.
  - reflexivity.
Defined.

(** ** Requests that fail *)

Section Failures.
Context (CURSOR : string → CursorLookup).
Context (DELETE_CURSOR : string → bool).
Context (AQL_EXECUTE : JsValue → JsValue → gmap string JsValue → Executed).
Context (decodeURIComponent : string → option string).
Context (sendCursor : ArangoCursor → nat → option bool → Completion Response).

(** X16: a POST whose [json.options] is an object with an own property
    named [hasOwnProperty] is answered through [actions.resultException]
    with a TypeError: the call [json.options.hasOwnProperty(i)] in the loop
    over the options finds the JSON value instead of the method, and the
    handler of [callback] catches the error; the query is not executed. *)
Theorem post_api_cursor_hasOwnProperty_option json props :
  getProperty json "options" = Some (JObject props) →
  is_Some (lookupProperty props "hasOwnProperty") →
  let server := callback CURSOR DELETE_CURSOR AQL_EXECUTE decodeURIComponent
                  sendCursor in
  server (mkRequest POST [] (Some json)) = resultException "TypeError".
Proof.
  intros Hoptions Hown server. subst server. unfold callback, post_api_cursor, cursorOptions.
  cbn [requestType suffix jsonBody length negb bool_decide decide_rel].
  rewrite Hoptions. unfold copyOwnProperties.
  by rewrite (bool_decide_eq_true_2 _ Hown).
Qed.

(** X17: a POST without suffix whose body is an object without [query]
    (and whose options can be built) is answered through
    [actions.resultBad] with [ERROR_QUERY_EMPTY], that is with status 400,
    exactly like a POST whose body [getJsonBody] rejects; [AQL_EXECUTE]
    has no part in the answer. *)
Theorem post_api_cursor_without_query fields options :
  let json := JObject fields in
  getProperty json "query" = None →
  cursorOptions json = Normal options →
  let server := callback CURSOR DELETE_CURSOR AQL_EXECUTE decodeURIComponent
                  sendCursor in
  server (mkRequest POST [] (Some json)) = resultBad ERROR_QUERY_EMPTY
  ∧ server (mkRequest POST [] None) = resultBad ERROR_QUERY_EMPTY
  ∧ responseCode (server (mkRequest POST [] (Some json))) = Some 400.
Proof.
  intros json Hquery Hoptions server.
  assert (server (mkRequest POST [] (Some json)) = resultBad ERROR_QUERY_EMPTY)
    as Hbad.
  { subst server. unfold callback, post_api_cursor.
    cbn [requestType suffix jsonBody length negb bool_decide decide_rel].
    by rewrite Hoptions, Hquery. }
  split; [done|]. split; [done|]. by rewrite Hbad.
Qed.

(** X18: a PUT or DELETE whose one suffix [decodeURIComponent] rejects
    (a malformed percent escape) is answered through
    [actions.resultException] with the URIError, by the handler of
    [callback]; neither [CURSOR] nor [DELETE_CURSOR] is consulted. *)
Theorem api_cursor_malformed_identifier id body :
  decodeURIComponent id = None →
  let server := callback CURSOR DELETE_CURSOR AQL_EXECUTE decodeURIComponent
                  sendCursor in
  server (mkRequest PUT [id] body) = resultException "URIError"
  ∧ server (mkRequest DELETE [id] body) = resultException "URIError".
Proof.
  intros Hdecode server. subst server. unfold callback, put_api_cursor, delete_api_cursor.
  cbn [requestType suffix length negb bool_decide decide_rel].
  by rewrite Hdecode.
Qed.

(** X19: an exception of [actions.resultCursor] is swallowed by
    [put_api_cursor] (its [catch] block is empty: the request ends without
    the action writing a response, and the handler of [callback] never sees the
    exception), whereas in [post_api_cursor] it propagates to the handler of
    [callback], which answers through [actions.resultException]. *)
Theorem api_cursor_failing_resultCursor
    id cursorId cursor json options query created error :
  decodeURIComponent id = Some cursorId →
  CURSOR cursorId = IsCursor cursor →
  cursorOptions json = Normal options →
  getProperty json "query" = Some query →
  AQL_EXECUTE (Some query) (getProperty json "bindVars") options
    = ExecutedCursor created →
  (∀ c httpCode countRequested,
     sendCursor c httpCode countRequested = Throw error) →
  let server := callback CURSOR DELETE_CURSOR AQL_EXECUTE decodeURIComponent
                  sendCursor in
  server (mkRequest PUT [id] None) = noResult
  ∧ server (mkRequest POST [] (Some json)) = resultException error.
Proof.
  intros Hdecode Hcursor Hoptions Hquery Hexec Hsend server. subst server.
  split.
  - unfold callback, put_api_cursor.
    cbn [requestType suffix length negb bool_decide decide_rel].
    by rewrite Hdecode, Hcursor, Hsend.
  - unfold callback, post_api_cursor.
    cbn [requestType suffix jsonBody length negb bool_decide decide_rel].
    rewrite Hoptions. cbn [mbind Completion_bind]. rewrite Hquery.
    by rewrite Hexec, Hsend.
Qed.

(** X20: [countRequested] is computed from [json.count] alone.  When the
    body has no truthy [count] of its own but [json.options] carries
    [count], the options handed to [AQL_EXECUTE] hold the [count] of
    [json.options], while [actions.resultCursor] is called with
    [countRequested: false]. *)
Theorem post_api_cursor_count_through_options json props v query :
  getProperty json "options" = Some (JObject props) →
  lookupProperty props "hasOwnProperty" = None →
  lookupProperty props "count" = Some v →
  truthy (getProperty json "count") = false →
  getProperty json "query" = Some query →
  ∃ options,
    cursorOptions json = Normal options
    ∧ options !! "count" = Some (Some v)
    ∧ post_api_cursor AQL_EXECUTE sendCursor (mkRequest POST [] (Some json))
      = match AQL_EXECUTE (Some query) (getProperty json "bindVars") options with
        | ExecutedError error => Normal (resultException error)
        | ExecutedCursor cursor => sendCursor cursor HTTP_CREATED (Some false)
        end.
Proof.
  intros Hoptions Hown Hcount Hfalsy Hquery.
  destruct (cursorOptions_lookup json props "count" Hoptions Hown)
    as (options & Hbuilt & Hlookup);
    [by eapply lookupProperty_elem|done|].
  exists options. split; [done|]. split; [by rewrite Hlookup, Hcount|].
  unfold post_api_cursor.
  cbn [suffix jsonBody length negb bool_decide decide_rel].
  rewrite Hbuilt. cbn [mbind Completion_bind]. by rewrite Hquery, Hfalsy.
Qed.

End Failures.

Lemma post_api_cursor_hasOwnProperty_option_witness :
  callback noCursor (λ _, false) reportBatchSize decodePlain sendPlainly
    (mkRequest POST []
       (Some (JObject [ ("query", JString "RETURN 1");
                        ("options", JObject [("hasOwnProperty", JNumber 1)]) ])))
  = resultException "TypeError".
Proof.
  apply (post_api_cursor_hasOwnProperty_option noCursor (λ _, false)
           reportBatchSize decodePlain sendPlainly
           (JObject [ ("query", JString "RETURN 1");
                      ("options", JObject [("hasOwnProperty", JNumber 1)]) ])
           [("hasOwnProperty", JNumber 1)]).
  - reflexivity.
  - by exists (JNumber 1).
Defined.

Lemma post_api_cursor_without_query_witness :
  callback noCursor (λ _, false) reportBatchSize decodePlain sendPlainly
    (mkRequest POST [] (Some (JObject [("batchSize", JNumber 5)])))
  = resultBad ERROR_QUERY_EMPTY
  ∧ callback noCursor (λ _, false) reportBatchSize decodePlain sendPlainly
      (mkRequest POST [] None)
    = resultBad ERROR_QUERY_EMPTY
  ∧ responseCode
      (callback noCursor (λ _, false) reportBatchSize decodePlain sendPlainly
         (mkRequest POST [] (Some (JObject [("batchSize", JNumber 5)]))))
    = Some 400.
Proof.
  by eapply (post_api_cursor_without_query noCursor (λ _, false)
               reportBatchSize decodePlain sendPlainly
               [("batchSize", JNumber 5)]).
Defined.

Lemma api_cursor_malformed_identifier_witness :
  callback everyCursor (λ _, true) executeToCursor decodeFails sendPlainly
    (mkRequest PUT ["%E0%A4%A"] None) = resultException "URIError"
  ∧ callback everyCursor (λ _, true) executeToCursor decodeFails sendPlainly
      (mkRequest DELETE ["%E0%A4%A"] None) = resultException "URIError".
Proof.
  by apply (api_cursor_malformed_identifier everyCursor (λ _, true)
              executeToCursor decodeFails sendPlainly "%E0%A4%A" None).
Defined.

Lemma api_cursor_failing_resultCursor_witness :
  callback everyCursor (λ _, true) executeToCursor decodePlain sendFails
    (mkRequest PUT ["26011191"] None) = noResult
  ∧ callback everyCursor (λ _, true) executeToCursor decodePlain sendFails
      (mkRequest POST [] (Some (JObject [("query", JString "RETURN 1")])))
    = resultException "cursor is gone".
Proof.
  by eapply (api_cursor_failing_resultCursor everyCursor (λ _, true)
               executeToCursor decodePlain sendFails "26011191" "26011191"
               (mkCursor "26011191") (JObject [("query", JString "RETURN 1")])
               _ (JString "RETURN 1") (mkCursor "1") "cursor is gone").
Defined.

Lemma post_api_cursor_count_through_options_witness :
  ∃ options,
    cursorOptions countThroughOptionsBody = Normal options
    ∧ options !! "count" = Some (Some (JBool true))
    ∧ post_api_cursor executeToCursor sendPlainly
        (mkRequest POST [] (Some countThroughOptionsBody))
      = match executeToCursor (Some (JString "FOR p IN products RETURN p"))
                (getProperty countThroughOptionsBody "bindVars") options with
        | ExecutedError error => Normal (resultException error)
        | ExecutedCursor cursor => sendPlainly cursor HTTP_CREATED (Some false)
        end.
Proof.
  by apply (post_api_cursor_count_through_options executeToCursor sendPlainly
              countThroughOptionsBody [("count", JBool true)] (JBool true)
              (JString "FOR p IN products RETURN p")).
Defined.

(** X23: the shape of the request is checked before anything else.  A POST
    with a URL suffix is answered through [actions.resultNotFound] with
    [ERROR_CURSOR_NOT_FOUND] even when it has no usable body; a PUT or
    DELETE that does not have exactly one suffix is answered through
    [actions.resultBad] with [ERROR_HTTP_BAD_PARAMETER] even when a suffix
    could not be decoded; every other request type is answered through
    [actions.resultUnsupported].  The body, [CURSOR], [DELETE_CURSOR],
    [AQL_EXECUTE] and [decodeURIComponent] have no part in these answers. *)
Theorem api_cursor_request_shape_first
    CURSOR DELETE_CURSOR AQL_EXECUTE decodeURIComponent sendCursor req :
  let server := callback CURSOR DELETE_CURSOR AQL_EXECUTE decodeURIComponent
                  sendCursor in
  (requestType req = POST → suffix req ≠ [] →
   server req = resultNotFound ERROR_CURSOR_NOT_FOUND)
  ∧ (requestType req = PUT ∨ requestType req = DELETE →
     length (suffix req) ≠ 1 →
     server req = resultBad ERROR_HTTP_BAD_PARAMETER)
  ∧ (requestType req ≠ POST → requestType req ≠ PUT →
     requestType req ≠ DELETE →
     server req = resultUnsupported).
Proof.
  intros server. subst server. unfold callback. split; [|split].
  - intros -> Hsuffix. unfold post_api_cursor.
    destruct (suffix req); [done|]. reflexivity.
  - intros [-> | ->] Hlen.
    + unfold put_api_cursor. by rewrite bool_decide_eq_false_2.
    + unfold delete_api_cursor. by rewrite bool_decide_eq_false_2.
  - intros HPOST HPUT HDELETE. by destruct (requestType req).
Qed.
End CursorTheory.
